(** * Zero-intelligence limit order book ([marketlearn/orderbook/lob.py])

    A shallow embedding of the [Book] class: the array-based price ladder,
    its queries, the six order primitives, the two event models (SFGK and
    CST) and the two averaging drivers, followed by the properties of the
    specification that were checked against them.

    Conventions of the embedding.
    - A numpy integer array is a [list Z] whose cells are int64 values;
      scalar arithmetic on a cell wraps around ([wrap64]).
    - A Python exception is a value of [exn]; a method that can raise
      returns a [result].
    - [self] is a record holding the attributes that [__init__] assigns;
      reading any other attribute raises [AttributeError].
    - Floating point and [numpy.random] are taken as interfaces
      ([FloatOps], [RandomSource]); the one law is that a draw returns an
      int64 member of its population. *)

From Stdlib Require Import String ZArith List Bool Lia.
From Stdlib Require PrimFloat SpecFloat FloatOps.
Import ListNotations.
Open Scope string_scope.
Open Scope list_scope.
Open Scope Z_scope.

(** ** Exceptions and results *)

Inductive exn : Type :=
| AttributeError (attr : string)
| TypeError
| ValueError
| IndexError
| KeyError
| OverflowError
| UserError (cls : string).

Inductive result (A : Type) : Type :=
| Ok (a : A)
| Raise (e : exn).
Arguments Ok {A} a.
Arguments Raise {A} e.

Definition bind {A B : Type} (m : result A) (k : A -> result B) : result B :=
  match m with
  | Ok a => k a
  | Raise e => Raise e
  end.

Notation "x <- m ;; k" := (bind m (fun x => k))
  (at level 61, m at next level, right associativity).
Notation "' pat <- m ;; k" := (bind m (fun x => match x with pat => k end))
  (at level 61, pat pattern, m at next level, right associativity).

(** ** int64 cells *)

Definition min_int64 : Z := - 2 ^ 63.
Definition max_int64 : Z := 2 ^ 63 - 1.

Definition in_int64 (x : Z) : bool := (min_int64 <=? x) && (x <=? max_int64).

Definition wrap64 (x : Z) : Z := (x + 2 ^ 63) mod 2 ^ 64 - 2 ^ 63.

(** [cell + qty] and [cell - qty] for an int64 scalar [cell] and a Python
    int [qty]: a [qty] that does not fit int64 is refused, the result
    wraps. *)
Definition int64_add (x qty : Z) : result Z :=
  if in_int64 qty then Ok (wrap64 (x + qty)) else Raise OverflowError.

Definition int64_sub (x qty : Z) : result Z :=
  if in_int64 qty then Ok (wrap64 (x - qty)) else Raise OverflowError.

(** ** The numpy operations the class uses *)

Module np.

(** [np.arange(lo, hi)] *)
Definition arange (lo hi : Z) : list Z :=
  map (fun k => lo + Z.of_nat k) (seq 0 (Z.to_nat (hi - lo))).

(** [np.repeat(x, n)]; a negative count is refused. *)
Definition repeat (x n : Z) : result (list Z) :=
  if n <? 0 then Raise ValueError else Ok (List.repeat x (Z.to_nat n)).

(** [np.append(a, b)] *)
Definition append {A : Type} (a b : list A) : list A := a ++ b.

(** [arr > 0], [arr == p], [arr >= p], [arr <= p], [arr < p] *)
Definition gt0 (arr : list Z) : list bool := map (fun x => 0 <? x) arr.
Definition eq (arr : list Z) (p : Z) : list bool := map (fun x => x =? p) arr.
Definition ge (arr : list Z) (p : Z) : list bool := map (fun x => p <=? x) arr.
Definition le (arr : list Z) (p : Z) : list bool := map (fun x => x <=? p) arr.
Definition lt (arr : list Z) (p : Z) : list bool := map (fun x => x <? p) arr.

(** [arr[mask]] for a boolean mask: the cells where the mask holds; a
    mask of another length is an [IndexError]. *)
Fixpoint pick {A : Type} (arr : list A) (mask : list bool) : list A :=
  match arr, mask with
  | a :: arr', m :: mask' => if m then a :: pick arr' mask' else pick arr' mask'
  | _, _ => []
  end.

Definition select {A : Type} (arr : list A) (mask : list bool) : result (list A) :=
  if Nat.eqb (length arr) (length mask) then Ok (pick arr mask)
  else Raise IndexError.

(** [arr[mask] = v]: every cell where the mask holds becomes [v]. *)
Fixpoint put (arr : list Z) (mask : list bool) (v : Z) : list Z :=
  match arr, mask with
  | a :: arr', m :: mask' => (if m then v else a) :: put arr' mask' v
  | _, _ => arr
  end.

Definition assign (arr : list Z) (mask : list bool) (v : Z) : result (list Z) :=
  if Nat.eqb (length arr) (length mask) then Ok (put arr mask v)
  else Raise IndexError.

(** [arr.min()] and [arr.max()]: a zero-size array has no minimum, numpy
    raises [ValueError]. *)
Definition min (arr : list Z) : result Z :=
  match arr with
  | [] => Raise ValueError
  | x :: xs => Ok (fold_left Z.min xs x)
  end.

Definition max (arr : list Z) : result Z :=
  match arr with
  | [] => Raise ValueError
  | x :: xs => Ok (fold_left Z.max xs x)
  end.

(** [arr[i]] for an integer [i]; negative indices count from the end. *)
Definition item {A : Type} (arr : list A) (i : Z) : result A :=
  let n := Z.of_nat (length arr) in
  if (- n <=? i) && (i <? n) then
    match nth_error arr (Z.to_nat (if i <? 0 then i + n else i)) with
    | Some a => Ok a
    | None => Raise IndexError
    end
  else Raise IndexError.

(** [arr[idx]] for an integer array [idx]. *)
Fixpoint take {A : Type} (arr : list A) (idx : list Z) : result (list A) :=
  match idx with
  | [] => Ok []
  | i :: idx' =>
      a <- item arr i ;;
      rest <- take arr idx' ;;
      Ok (a :: rest)
  end.

(** [np.where(mask)[0]]: the positions where the mask holds. *)
Fixpoint where_from (k : Z) (mask : list bool) : list Z :=
  match mask with
  | [] => []
  | m :: mask' => if m then k :: where_from (k + 1) mask' else where_from (k + 1) mask'
  end.

Definition where_ (mask : list bool) : list Z := where_from 0 mask.

(** [arr.sum()], [arr.cumsum()] on int64 cells. *)
Definition sum (arr : list Z) : Z :=
  fold_left (fun acc x => wrap64 (acc + x)) arr 0.

Fixpoint cumsum_from (acc : Z) (arr : list Z) : list Z :=
  match arr with
  | [] => []
  | x :: arr' => let s := wrap64 (acc + x) in s :: cumsum_from s arr'
  end.

Definition cumsum (arr : list Z) : list Z := cumsum_from 0 arr.

(** [arr[i] = v] for an integer [i]. *)
Definition setitem (arr : list Z) (i : Z) (v : Z) : result (list Z) :=
  let n := Z.of_nat (length arr) in
  if (- n <=? i) && (i <? n) then
    let k := Z.to_nat (if i <? 0 then i + n else i) in
    Ok (firstn k arr ++ v :: skipn (S k) arr)
  else Raise IndexError.

(** Elementwise arithmetic of two arrays, with numpy's broadcasting of a
    one-cell array. *)
Fixpoint zip_with {A B C : Type} (f : A -> B -> C) (a : list A) (b : list B) : list C :=
  match a, b with
  | x :: a', y :: b' => f x y :: zip_with f a' b'
  | _, _ => []
  end.

Definition broadcast {A B C : Type} (f : A -> B -> C) (a : list A) (b : list B)
  : result (list C) :=
  if Nat.eqb (length a) (length b) then Ok (zip_with f a b)
  else match a, b with
       | [x], _ => Ok (map (f x) b)
       | _, [y] => Ok (map (fun x => f x y) a)
       | _, _ => Raise ValueError
       end.

(** Python slices [arr[:k]] and [arr[k:]]. *)
Definition upto {A : Type} (arr : list A) (k : Z) : list A :=
  let n := Z.of_nat (length arr) in
  firstn (Z.to_nat (if k <? 0 then k + n else k)) arr.

Definition from {A : Type} (arr : list A) (k : Z) : list A :=
  let n := Z.of_nat (length arr) in
  skipn (Z.to_nat (if k <? 0 then k + n else k)) arr.

End np.

(** ** The book *)

Record Book : Type := mkBook {
  _levels : Z;
  _depth : Z;
  price : list Z;
  bid_size : list Z;
  ask_size : list Z;
  events : list (Z * string)
}.

Definition set_bid_size (self : Book) (v : list Z) : Book :=
  mkBook (_levels self) (_depth self) (price self) v (ask_size self) (events self).

Definition set_ask_size (self : Book) (v : list Z) : Book :=
  mkBook (_levels self) (_depth self) (price self) (bid_size self) v (events self).

(** [self.<name>] for an array attribute.  [__init__] assigns [price],
    [bid_size] and [ask_size]; no method assigns any other array. *)
Definition getattr (self : Book) (name : string) : result (list Z) :=
  if String.eqb name "price" then Ok (price self)
  else if String.eqb name "bid_size" then Ok (bid_size self)
  else if String.eqb name "ask_size" then Ok (ask_size self)
  else Raise (AttributeError name).

Definition _get_levels (self : Book) : Z := _levels self.
Definition _get_depth (self : Book) : Z := _depth self.

Definition _initialize_orders (self : Book) : result (list Z * list Z) :=
  let d := _get_depth self in
  let pl := _get_levels self in
  buy_orders <- np.repeat d (pl - 8) ;;
  let buy_orders := np.append buy_orders [5; 4; 4; 3; 3; 2; 2; 1] in
  sell_orders <- np.repeat 0 pl ;;
  zeros <- np.repeat 0 (pl + 1) ;;
  let buy_orders := np.append buy_orders zeros in
  let sell_orders := np.append sell_orders [0; 1; 2; 2; 3; 3; 4; 4; 5] in
  deep <- np.repeat d (pl - 8) ;;
  let sell_orders := np.append sell_orders deep in
  Ok (buy_orders, sell_orders).

Definition _create_events : list (Z * string) :=
  combine (np.arange 0 6)
    ["market_buy"; "market_sell"; "limit_buy"; "limit_sell";
     "cancel_buy"; "cancel_sell"].

Definition __init__ : result Book :=
  let self := mkBook 1000 5 (np.arange (- 1000) (1000 + 1)) [] [] [] in
  '(b, a) <- _initialize_orders self ;;
  let self := set_ask_size (set_bid_size self b) a in
  Ok (mkBook (_levels self) (_depth self) (price self) (bid_size self)
        (ask_size self) _create_events).

(** ** Queries *)

Definition best_ask (self : Book) : result Z :=
  asks <- np.select (price self) (np.gt0 (ask_size self)) ;;
  np.min asks.

Definition best_bid (self : Book) : result Z :=
  bids <- np.select (price self) (np.gt0 (bid_size self)) ;;
  np.max bids.

Definition spread (self : Book) : result Z :=
  a <- best_ask self ;;
  b <- best_bid self ;;
  Ok (wrap64 (a - b)).

(** [arr[self.price == p][0]]: the cell of a ladder array at tick [p]. *)
Definition at_tick (self : Book) (arr : list Z) (p : Z) : result Z :=
  cells <- np.select arr (np.eq (price self) p) ;;
  np.item cells 0.

(** ** Orders *)

Definition market_buy (self : Book) (qty : Z) : result Book :=
  p <- best_ask self ;;
  cell <- at_tick self (ask_size self) p ;;
  remaining_orders <- int64_sub cell qty ;;
  ask' <- np.assign (ask_size self) (np.eq (price self) p) remaining_orders ;;
  Ok (set_ask_size self ask').

Definition market_sell (self : Book) (qty : Z) : result Book :=
  p <- best_bid self ;;
  cell <- at_tick self (bid_size self) p ;;
  remaining_orders <- int64_sub cell qty ;;
  bid' <- np.assign (bid_size self) (np.eq (price self) p) remaining_orders ;;
  Ok (set_bid_size self bid').

Definition limit_buy (self : Book) (price' : Z) (qty : Z) : result Book :=
  cell <- at_tick self (bid_size self) price' ;;
  new_orders <- int64_add cell qty ;;
  bid' <- np.assign (bid_size self) (np.eq (price self) price') new_orders ;;
  Ok (set_bid_size self bid').

Definition limit_sell (self : Book) (price' : Z) (qty : Z) : result Book :=
  cell <- at_tick self (ask_size self) price' ;;
  new_orders <- int64_add cell qty ;;
  ask' <- np.assign (ask_size self) (np.eq (price self) price') new_orders ;;
  Ok (set_ask_size self ask').

(** ** Floating point and the random source

    Rates and averages are Python floats and every draw goes through
    [np.random.choice]; both are interfaces here.  The only law is that a
    draw returns a member of the population it was given, as an int64
    value. *)

Class FloatOps : Type := {
  float64 : Type;
  of_int : Z -> float64;
  fadd : float64 -> float64 -> float64;
  fmul : float64 -> float64 -> float64;
  fdiv : float64 -> float64 -> float64;
  half : float64
}.

(** The third positional parameter of [np.random.choice(a, size, replace, p)]:
    left at its default, or bound to an array by the caller. *)
Inductive replace_arg `{FloatOps} : Type :=
| ReplaceDefault
| ReplaceArray (v : list float64).

Class RandomSource `{FloatOps} : Type := {
  rng : Type;
  (** [np.random.choice(a, 1, replace, p)[0]] *)
  random_choice :
    rng -> list Z -> replace_arg -> option (list float64) -> result (Z * rng);
  random_choice_In :
    forall g a r p x g',
      random_choice g a r p = Ok (x, g') -> In x a /\ in_int64 x = true
}.

Section Random.
Context `{RandomSource}.

(** [price_level + 1] where [price_level] may be [None]. *)
Definition succ_level (price_level : option Z) : result Z :=
  match price_level with
  | Some n => Ok (n + 1)
  | None => Raise TypeError
  end.

Definition choose (price_level : option Z) (prob : option (list float64))
    (g : rng) : result (Z * rng) :=
  match prob with
  | None =>
      hi <- succ_level price_level ;;
      random_choice g (np.arange 1 hi) ReplaceDefault None
  | Some prob =>
      hi <- succ_level price_level ;;
      random_choice g (np.arange 1 hi) (ReplaceArray prob) None
  end.

Definition cancel_buy (self : Book) (price' : option Z)
    (cancelable_orders : option Z) (qty : Z) (g : rng) : result (Book * rng) :=
  match price' with
  | Some price' =>
      cell <- at_tick self (bid_size self) price' ;;
      remaining_orders <- int64_sub cell qty ;;
      bid' <- np.assign (bid_size self) (np.eq (price self) price')
                remaining_orders ;;
      Ok (set_bid_size self bid', g)
  | None =>
      '(q, g) <- choose cancelable_orders None g ;;
      buy_size <- getattr self "buy_size" ;;
      let tmp := np.cumsum (rev buy_size) in
      let posn := Z.of_nat (length (np.pick tmp (np.ge tmp q))) in
      p <- np.item (price self) (posn - 1) ;;
      cell <- np.item (bid_size self) (posn - 1) ;;
      cell' <- int64_sub cell qty ;;
      bid' <- np.setitem (bid_size self) (posn - 1) cell' ;;
      Ok (set_bid_size self bid', g)
  end.

(** In the first branch the assignment goes through [self.sell_size]. *)
Definition cancel_sell (self : Book) (price' : option Z)
    (cancelable_orders : option Z) (qty : Z) (g : rng) : result (Book * rng) :=
  match price' with
  | Some price' =>
      cell <- at_tick self (ask_size self) price' ;;
      remaining_orders <- int64_sub cell qty ;;
      sell_size <- getattr self "sell_size" ;;
      _ <- np.assign sell_size (np.eq (price self) price')
             remaining_orders ;;
      Ok (self, g)
  | None =>
      '(q, g) <- choose cancelable_orders None g ;;
      sell_size <- getattr self "sell_size" ;;
      let tmp := np.cumsum sell_size in
      let posn := Z.of_nat (length (np.pick tmp (np.lt tmp q))) + 1 in
      p <- np.item (price self) (posn - 1) ;;
      cell <- np.item (ask_size self) (posn - 1) ;;
      cell' <- int64_sub cell qty ;;
      ask' <- np.setitem (ask_size self) (posn - 1) cell' ;;
      Ok (set_ask_size self ask', g)
  end.

End Random.

(** ** Positions and book shape *)

Definition _bid_position (self : Book) : result Z :=
  b <- best_bid self ;;
  i <- np.item (np.where_ (np.eq (price self) b)) 0 ;;
  Ok (i + 1).

Definition _ask_position (self : Book) : result Z :=
  a <- best_ask self ;;
  i <- np.item (np.where_ (np.eq (price self) a)) 0 ;;
  Ok (i + 1).

(** [int(floor((bid + ask) * 0.5))]: positions are small integers, so the
    product is exact and the floor is the integer quotient. *)
Definition _mid_position (self : Book) : result Z :=
  bp <- _bid_position self ;;
  ap <- _ask_position self ;;
  Ok ((bp + ap) / 2).

Definition book_shape (self : Book) (band : Z) : result (list Z) :=
  m <- _mid_position self ;;
  buy_qty <- np.take (bid_size self) (map (Z.add m) (np.arange (- band - 1) 0)) ;;
  m' <- _mid_position self ;;
  sell_qty <- np.take (ask_size self) (map (Z.add m') (np.arange 0 band)) ;;
  Ok (np.append buy_qty sell_qty).

(** ** Calls by keyword

    [cancel_buy] and [cancel_sell] take [price], [cancelable_orders] and
    [qty]; a call naming any other parameter is a [TypeError]. *)

Record cancel_args : Type := mkCancelArgs {
  arg_price : option Z;
  arg_cancelable_orders : option Z;
  arg_qty : Z
}.

Definition cancel_defaults : cancel_args := mkCancelArgs None None 1.

Fixpoint bind_cancel_kwargs (kwargs : list (string * Z)) (acc : cancel_args)
  : result cancel_args :=
  match kwargs with
  | [] => Ok acc
  | (name, v) :: kwargs' =>
      if String.eqb name "price" then
        bind_cancel_kwargs kwargs'
          (mkCancelArgs (Some v) (arg_cancelable_orders acc) (arg_qty acc))
      else if String.eqb name "cancelable_orders" then
        bind_cancel_kwargs kwargs' (mkCancelArgs (arg_price acc) (Some v) (arg_qty acc))
      else if String.eqb name "qty" then
        bind_cancel_kwargs kwargs'
          (mkCancelArgs (arg_price acc) (arg_cancelable_orders acc) v)
      else Raise TypeError
  end.

(** [self.events[k]] *)
Fixpoint dict_get (d : list (Z * string)) (k : Z) : result string :=
  match d with
  | [] => Raise KeyError
  | (k', v) :: d' => if k' =? k then Ok v else dict_get d' k
  end.

(** ** Event models *)

Section Models.
Context `{RandomSource}.

Definition fsum (a : list float64) : float64 := fold_left fadd a (of_int 0).

(** [np.dot(thetas, c)] for one-dimensional arrays. *)
Definition dot (thetas : list float64) (c : list Z) : result float64 :=
  if Nat.eqb (length thetas) (length c)
  then Ok (fsum (np.zip_with (fun t x => fmul t (of_int x)) thetas c))
  else Raise ValueError.

Definition call_cancel_buy (self : Book) (kwargs : list (string * Z)) (g : rng)
  : result (Book * rng) :=
  args <- bind_cancel_kwargs kwargs cancel_defaults ;;
  cancel_buy self (arg_price args) (arg_cancelable_orders args) (arg_qty args) g.

Definition call_cancel_sell (self : Book) (kwargs : list (string * Z)) (g : rng)
  : result (Book * rng) :=
  args <- bind_cancel_kwargs kwargs cancel_defaults ;;
  cancel_sell self (arg_price args) (arg_cancelable_orders args) (arg_qty args) g.

(** The [if]/[elif] chain of [sfgk_model]. *)
Definition sfgk_dispatch (self : Book) (market_event : string) (L : Z)
    (net_buys net_sells : Z) (g : rng) : result (Book * rng) :=
  if String.eqb market_event "market_buy" then
    self <- market_buy self 1 ;; Ok (self, g)
  else if String.eqb market_event "market_sell" then
    self <- market_sell self 1 ;; Ok (self, g)
  else if String.eqb market_event "limit_buy" then
    '(q, g) <- choose (Some L) None g ;;
    a <- best_ask self ;;
    let p := wrap64 (a - q) in
    self <- limit_buy self p 1 ;; Ok (self, g)
  else if String.eqb market_event "limit_sell" then
    '(q, g) <- choose (Some L) None g ;;
    b <- best_bid self ;;
    let p := wrap64 (b + q) in
    self <- limit_sell self p 1 ;; Ok (self, g)
  else if String.eqb market_event "cancel_buy" then
    call_cancel_buy self [("cancellable_orders", net_buys)] g
  else if String.eqb market_event "cancel_sell" then
    call_cancel_sell self [("cancellable_orders", net_sells)] g
  else Ok (self, g).

Definition sfgk_model (self : Book) (mu lamda theta : float64) (L : Z) (g : rng)
  : result (Book * rng) :=
  buy_size <- getattr self "buy_size" ;;
  a <- best_ask self ;;
  lo <- int64_sub a L ;;
  within <- np.select buy_size (np.ge (price self) lo) ;;
  let net_buys := np.sum within in
  sell_size <- getattr self "sell_size" ;;
  b <- best_bid self ;;
  hi <- int64_add b L ;;
  within <- np.select sell_size (np.le (price self) hi) ;;
  let net_sells := np.sum within in
  let cum_rate :=
    fadd (fadd (fadd mu (fmul (of_int (2 * L)) lamda))
               (fmul (of_int net_buys) theta))
         (fmul (of_int net_sells) theta) in
  let pevent :=
    [fmul half mu; fmul half mu; fmul (of_int L) lamda; fmul (of_int L) lamda;
     fmul (of_int net_buys) theta; fmul (of_int net_sells) theta] in
  let pevent := map (fun x => fdiv x cum_rate) pevent in
  '(k, g) <- random_choice g (np.arange 0 6) ReplaceDefault (Some pevent) ;;
  market_event <- dict_get (events self) k ;;
  sfgk_dispatch self market_event L net_buys net_sells g.

(** The [if]/[elif] chain of [cst_model]. *)
Definition cst_dispatch (self : Book) (market_event : string)
    (lamdas thetas : list float64) (L : Z) (cb cs : list Z)
    (cum_lam cb_rates cs_rates : float64) (g : rng) : result (Book * rng) :=
  if String.eqb market_event "market_buy" then
    self <- market_buy self 1 ;; Ok (self, g)
  else if String.eqb market_event "market_sell" then
    self <- market_sell self 1 ;; Ok (self, g)
  else if String.eqb market_event "limit_buy" then
    let pevent := map (fun x => fdiv x cum_lam) lamdas in
    '(q, g) <- choose (Some L) (Some pevent) g ;;
    a <- best_ask self ;;
    let p := wrap64 (a - q) in
    self <- limit_buy self p 1 ;; Ok (self, g)
  else if String.eqb market_event "limit_sell" then
    let pevent := map (fun x => fdiv x cum_lam) lamdas in
    '(q, g) <- choose (Some L) (Some pevent) g ;;
    b <- best_bid self ;;
    let p := wrap64 (b + q) in
    self <- limit_sell self p 1 ;; Ok (self, g)
  else if String.eqb market_event "cancel_buy" then
    weighted <- np.broadcast (fun t x => fmul t (of_int x)) thetas cb ;;
    let pevent := map (fun x => fdiv x cb_rates) weighted in
    '(q, g) <- choose (Some L) (Some pevent) g ;;
    a <- best_ask self ;;
    let p := wrap64 (a - q) in
    call_cancel_buy self [("price", p)] g
  else if String.eqb market_event "cancel_sell" then
    weighted <- np.broadcast (fun t x => fmul t (of_int x)) thetas cs ;;
    let pevent := map (fun x => fdiv x cs_rates) weighted in
    '(q, g) <- choose (Some L) (Some pevent) g ;;
    b <- best_bid self ;;
    let p := wrap64 (b + q) in
    call_cancel_sell self [("price", p)] g
  else Ok (self, g).

Definition cst_model (self : Book) (mu : float64) (lamdas thetas : list float64)
    (L : Z) (g : rng) : result (Book * rng) :=
  buy_size <- getattr self "buy_size" ;;
  a <- best_ask self ;;
  lo <- int64_sub a L ;;
  within <- np.select buy_size (np.ge (price self) lo) ;;
  let cb := rev (np.upto within L) in
  sell_size <- getattr self "sell_size" ;;
  b <- best_bid self ;;
  hi <- int64_add b L ;;
  within <- np.select sell_size (np.le (price self) hi) ;;
  let cs := np.from within (- L) in
  cb_rates <- dot thetas cb ;;
  cs_rates <- dot thetas cs ;;
  let cum_lam := fsum lamdas in
  let cum_rate :=
    fadd (fadd (fadd (fmul (of_int 2) mu) (fmul (of_int 2) cum_lam)) cb_rates)
         cs_rates in
  let pevent :=
    map (fun x => fdiv x cum_rate) [mu; mu; cum_lam; cum_lam; cb_rates; cs_rates] in
  '(k, g) <- random_choice g (np.arange 0 6) ReplaceDefault (Some pevent) ;;
  market_event <- dict_get (events self) k ;;
  cst_dispatch self market_event lamdas thetas L cb cs cum_lam cb_rates cs_rates g.

End Models.

(** ** Averaging drivers

    Both drivers call the event model through [self]; the loops are written
    once over the model they call. *)

Section Drivers.
Context `{FloatOps}.
Variable G : Type.
Variable model : Book -> G -> result (Book * G).

(** [for _ in range(n): self.model(...)] *)
Fixpoint burn_in (n : nat) (self : Book) (g : G) : result (Book * G) :=
  match n with
  | O => Ok (self, g)
  | S n' => '(self, g) <- model self g ;; burn_in n' self g
  end.

(** [shape / n] for an integer array and a Python int: true division,
    cell by cell. *)
Definition true_divide (shape : list Z) (n : Z) : list float64 :=
  map (fun x => fdiv (of_int x) (of_int n)) shape.

(** [self.book_shape(L) / max_events] *)
Definition scaled_shape (self : Book) (L max_events : Z) : result (list float64) :=
  shape <- book_shape self L ;;
  Ok (true_divide shape max_events).

(** [for _ in range(1, max_events)]: one event, then one more term of the
    average. *)
Fixpoint accumulate (n : nat) (L max_events : Z) (self : Book) (g : G)
    (avg_book_shape : list float64) : result (list float64 * Book * G) :=
  match n with
  | O => Ok (avg_book_shape, self, g)
  | S n' =>
      '(self, g) <- model self g ;;
      term <- scaled_shape self L max_events ;;
      avg_book_shape <- np.broadcast fadd avg_book_shape term ;;
      accumulate n' L max_events self g avg_book_shape
  end.

Definition simulate_with (L max_events : Z) (self : Book) (g : G)
  : result (list float64 * Book * G) :=
  '(self, g) <- burn_in 1000 self g ;;
  avg_book_shape <- scaled_shape self L max_events ;;
  accumulate (length (np.arange 1 max_events)) L max_events self g avg_book_shape.

(** The tail of [cst_simulate]: mirror the two sides around the centre. *)
Definition symmetrize (avgBookShape : list float64) (L : Z) : result (list float64) :=
  sides <- np.broadcast fadd (rev (np.upto avgBookShape L)) (np.from avgBookShape (L + 1)) ;;
  let ans := map (fun x => fmul x half) sides in
  centre <- np.item avgBookShape L ;;
  Ok (np.append [centre] ans).

Definition cst_simulate_with (L numEvents : Z) (self : Book) (g : G)
  : result (list float64 * Book * G) :=
  '(avgBookShape, self, g) <- simulate_with L numEvents self g ;;
  ans <- symmetrize avgBookShape L ;;
  Ok (ans, self, g).

End Drivers.

Section Simulations.
Context `{RandomSource}.

Definition sfgk_simulate (self : Book) (mu lamda theta : float64) (L max_events : Z)
    (g : rng) : result (list float64 * Book * rng) :=
  simulate_with rng (fun self g => sfgk_model self mu lamda theta L g)
    L max_events self g.

Definition cst_simulate (self : Book) (mu : float64) (lamdas thetas : list float64)
    (L numEvents : Z) (g : rng) : result (list float64 * Book * rng) :=
  cst_simulate_with rng (fun self g => cst_model self mu lamdas thetas L g)
    L numEvents self g.

End Simulations.

(** ** The freshly constructed book *)

Definition fresh : Book :=
  match __init__ with
  | Ok self => self
  | Raise _ => mkBook 0 0 [] [] [] []
  end.

(** ** Predicates used in the statements *)

Fixpoint nodupb (l : list Z) : bool :=
  match l with
  | [] => true
  | x :: l' => negb (existsb (Z.eqb x) l') && nodupb l'
  end.

(** A book state: both ladders are as long as the price array, no tick
    occurs twice, and every cell is an int64 value. *)
Definition book_ok (self : Book) : bool :=
  Nat.eqb (length (bid_size self)) (length (price self))
  && Nat.eqb (length (ask_size self)) (length (price self))
  && nodupb (price self)
  && forallb in_int64 (bid_size self)
  && forallb in_int64 (ask_size self).

(** Tick [t] holds a positive quantity in the ladder array [arr]. *)
Definition resting (self : Book) (arr : list Z) (t : Z) : Prop :=
  exists i x, nth_error (price self) i = Some t /\ nth_error arr i = Some x /\ 0 < x.

Definition nonnegb (self : Book) : bool :=
  forallb (Z.leb 0) (bid_size self) && forallb (Z.leb 0) (ask_size self).

Definition nonneg (self : Book) : Prop :=
  Forall (Z.le 0) (bid_size self) /\ Forall (Z.le 0) (ask_size self).

(** The shape of the initial ladder at one tick, as a boolean test. *)
Definition initial_shape_at (self : Book) (t : Z) : bool :=
  match at_tick self (bid_size self) t, at_tick self (ask_size self) t with
  | Ok b, Ok a =>
      (if t <? 0 then a =? 0 else true)
      && (if 0 <=? t then b =? 0 else true)
      && (if t <? - 8 then b =? 5 else true)
      && (if 8 <? t then a =? 5 else true)
  | _, _ => false
  end.

(** The invariant of the event models: the ladder is the constructor's,
    and every tick holding bids lies strictly below every tick holding
    asks. *)
Definition no_cross (self : Book) : Prop :=
  price self = np.arange (- 1000) 1001 /\
  length (bid_size self) = length (price self) /\
  length (ask_size self) = length (price self) /\
  forall tb ta,
    resting self (bid_size self) tb -> resting self (ask_size self) ta -> tb < ta.

(** Both sides hold orders and the best bid is below the best ask. *)
Definition separated (self : Book) : bool :=
  match best_bid self, best_ask self with
  | Ok b, Ok a => b <? a
  | _, _ => false
  end.

(** [n] calls of one operation in a row. *)
Fixpoint repeat_op (n : nat) (op : Book -> result Book) (self : Book) : result Book :=
  match n with
  | O => Ok self
  | S n' => self <- op self ;; repeat_op n' op self
  end.

(** The fresh book after 4984 unit market buys, which is every resting
    sell order. *)
Definition drained_run : result Book :=
  Eval vm_compute in repeat_op 4984 (fun self => market_buy self 1) fresh.

Definition drained : Book :=
  Eval vm_compute in
    match drained_run with
    | Ok self => self
    | Raise _ => fresh
    end.

(** The states the event models can produce: a state is reachable when it
    is the fresh book or the result of one more event, with any rates, any
    window and any random source.  The [if]/[elif] chains are steps of
    their own, whatever event was drawn and whatever totals were gathered
    before them. *)
Inductive reachable : Book -> Prop :=
| reach_fresh : reachable fresh
| reach_sfgk_model :
    forall (F : FloatOps) (R : RandomSource) self mu lamda theta L g self' g',
      reachable self ->
      sfgk_model self mu lamda theta L g = Ok (self', g') ->
      reachable self'
| reach_cst_model :
    forall (F : FloatOps) (R : RandomSource) self mu lamdas thetas L g self' g',
      reachable self ->
      cst_model self mu lamdas thetas L g = Ok (self', g') ->
      reachable self'
| reach_sfgk_dispatch :
    forall (F : FloatOps) (R : RandomSource) self market_event L net_buys net_sells
           g self' g',
      reachable self ->
      sfgk_dispatch self market_event L net_buys net_sells g = Ok (self', g') ->
      reachable self'
| reach_cst_dispatch :
    forall (F : FloatOps) (R : RandomSource) self market_event lamdas thetas L cb cs
           cum_lam cb_rates cs_rates g self' g',
      reachable self ->
      cst_dispatch self market_event lamdas thetas L cb cs cum_lam cb_rates cs_rates g
        = Ok (self', g') ->
      reachable self'.

(** The sum the drivers build: the first [n + 1] samples, each divided by
    [max_events], added cell by cell in the order the loop adds them. *)
Fixpoint running_sum `{FloatOps} (n : nat) (max_events : Z) (shapes : nat -> list Z)
  : list float64 :=
  match n with
  | O => true_divide (shapes O) max_events
  | S n' =>
      np.zip_with fadd (running_sum n' max_events shapes)
        (true_divide (shapes (S n')) max_events)
  end.

(** ** A deterministic harness

    The floats of the harness are the binary64 numbers, with their own
    rounding, and its random source replays a tape of positions. *)

(** An integer as the nearest binary64 number, ties to even. *)
Definition float_of_Z (z : Z) : PrimFloat.float :=
  FloatOps.SF2Prim (SpecFloat.binary_normalize FloatOps.prec FloatOps.emax z 0 false).

(** The binary64 quotient [a / b] of two integers. *)
Definition ratio (a b : Z) : PrimFloat.float :=
  PrimFloat.div (float_of_Z a) (float_of_Z b).

#[global] Instance binary64 : FloatOps := {|
  float64 := PrimFloat.float;
  of_int := float_of_Z;
  fadd := PrimFloat.add;
  fmul := PrimFloat.mul;
  fdiv := PrimFloat.div;
  half := ratio 1 2
|}.

(** [if replace:] on the third argument of [np.random.choice]: the truth
    value of an array of two or more cells is a [ValueError]; with the
    default, or an array of one cell, either truth value allows one draw. *)
Definition replace_truth (r : @replace_arg binary64) : result unit :=
  match r with
  | ReplaceArray (_ :: _ :: _) => Raise ValueError
  | _ => Ok tt
  end.

(** One draw: the population cell at the next position of the tape.  The
    tape stands for the generator's state, so the weights [p] are not
    consulted. *)
Definition tape_choice (g : list nat) (a : list Z) (r : @replace_arg binary64)
    (p : option (list PrimFloat.float)) : result (Z * list nat) :=
  match a with
  | [] => Raise ValueError
  | _ :: _ =>
      _ <- replace_truth r ;;
      match g with
      | [] => Raise ValueError
      | k :: g' =>
          match nth_error a k with
          | Some x => if in_int64 x then Ok (x, g') else Raise OverflowError
          | None => Raise ValueError
          end
      end
  end.

Lemma tape_choice_In g a r p x g' :
  tape_choice g a r p = Ok (x, g') -> In x a /\ in_int64 x = true.
Proof.
  unfold tape_choice. destruct a as [| a0 a']; [discriminate |].
  destruct (replace_truth r) as [[] | e]; cbn [bind]; [| discriminate].
  destruct g as [| k g0]; [discriminate |].
  destruct (nth_error (a0 :: a') k) as [y |] eqn:Ey; [| discriminate].
  destruct (in_int64 y) eqn:Ei; [| discriminate].
  intros E. injection E as <- <-.
  split; [eapply nth_error_In; eassumption | assumption].
Qed.

#[global] Instance tape : @RandomSource binary64 := {|
  rng := list nat;
  random_choice := tape_choice;
  random_choice_In := tape_choice_In
|}.

(** An event model for exercising the drivers: every event rests one more
    bid at tick -1, so the cell at -1 counts the events; [counted k] is the
    fresh book after [k] of them. *)
Definition one_bid_per_event (self : Book) (g : unit) : result (Book * unit) :=
  self <- limit_buy self (- 1) 1 ;; Ok (self, g).

Definition counted (k : nat) : Book * unit :=
  (set_bid_size fresh
     (np.put (bid_size fresh) (np.eq (price fresh) (- 1)) (1 + Z.of_nat k)), tt).

(** ** The mid price *)

(** [(self.best_ask() + self.best_bid()) * 0.5] *)
Definition mid `{FloatOps} (self : Book) : result float64 :=
  a <- best_ask self ;;
  b <- best_bid self ;;
  Ok (fmul (of_int (wrap64 (a + b))) half).

(** ** The Markov estimators

    Three Monte Carlo estimators, each a [while True] loop of events per
    trial.  The loop is run on a budget of events: [Running] stands for a
    loop that has not ended within the budget.  The rates [mu], [lamda] and
    [theta] are the float defaults of the inner [send_orders] functions
    (0.94, 1.85 and 0.71) and are parameters here. *)

Inductive run (A : Type) : Type :=
| Finished (a : A)
| Running.
Arguments Finished {A} a.
Arguments Running {A}.

(** [a / b] on Python ints: true division, [ZeroDivisionError] on a zero
    divisor. *)
Definition py_ratio `{FloatOps} (a b : Z) : result float64 :=
  if b =? 0 then Raise (UserError "ZeroDivisionError")
  else Ok (fdiv (of_int a) (of_int b)).

(** [np.random.uniform()] and the comparison [r > x] of two floats. *)
Class UniformSource `{RandomSource} : Type := {
  uniform : rng -> float64 * rng;
  fgt : float64 -> float64 -> bool
}.

Section Estimators.
Context `{UniformSource}.
Variables mu lamda theta : float64.

(** *** [prob_mid] *)

Definition prob_mid_send_orders (xb xs : Z) (g : rng) : result (Z * Z * rng) :=
  let cum_rate :=
    fadd (fadd (fadd (fmul (of_int 2) mu) (fmul (of_int 2) lamda))
               (fmul theta (of_int xb)))
         (fmul theta (of_int xs)) in
  let bid_qty_down := fadd mu (fmul theta (of_int xb)) in
  let ask_qty_down := fadd mu (fmul theta (of_int xs)) in
  let pevent :=
    map (fun x => fdiv x cum_rate) [lamda; lamda; bid_qty_down; ask_qty_down] in
  '(ans, g) <- random_choice g (np.arange 0 4) ReplaceDefault (Some pevent) ;;
  if ans =? 0 then Ok (xb + 1, xs, g)
  else if ans =? 1 then Ok (xb, xs + 1, g)
  else if ans =? 2 then Ok (xb - 1, xs, g)
  else if ans =? 3 then Ok (xb, xs - 1, g)
  else Ok (xb, xs, g).

(** One trial: [true] when the ask queue empties first. *)
Fixpoint prob_mid_trial (budget : nat) (qb_old qs_old : Z) (g : rng)
  : result (run (bool * rng)) :=
  match budget with
  | O => Ok Running
  | S budget' =>
      '(qb_new, qs_new, g) <- prob_mid_send_orders qb_old qs_old g ;;
      if qb_new =? 0 then Ok (Finished (false, g))
      else if qs_new =? 0 then Ok (Finished (true, g))
      else prob_mid_trial budget' qb_new qs_new g
  end.

(** [for i in range(n)] around the trial, counting the successes. *)
Fixpoint prob_mid_trials (budget n : nat) (xb xs count : Z) (g : rng)
  : result (run (Z * rng)) :=
  match n with
  | O => Ok (Finished (count, g))
  | S n' =>
      r <- prob_mid_trial budget xb xs g ;;
      match r with
      | Running => Ok Running
      | Finished (up, g) =>
          prob_mid_trials budget n' xb xs (if up then count + 1 else count) g
      end
  end.

Definition prob_mid (budget : nat) (n xb xs : Z) (g : rng)
  : result (run (float64 * rng)) :=
  r <- prob_mid_trials budget (Z.to_nat n) xb xs 0 g ;;
  match r with
  | Running => Ok Running
  | Finished (count, g) => p <- py_ratio count n ;; Ok (Finished (p, g))
  end.

(** *** [limit_order_prob] *)

Definition limit_order_send_orders (xb xs d : Z) (g : rng)
  : result (Z * Z * Z * rng) :=
  let cum_rate :=
    fadd (fadd (fadd (fmul (of_int 2) mu) (fmul (of_int 2) lamda))
               (fmul theta (of_int (xb - 1))))
         (fmul theta (of_int xs)) in
  let ask_qty_down := fadd mu (fmul theta (of_int xs)) in
  let pevent :=
    map (fun x => fdiv x cum_rate)
      [lamda; lamda; mu; fmul theta (of_int (xb - 1)); ask_qty_down] in
  '(ans, g) <- random_choice g (np.arange 0 5) ReplaceDefault (Some pevent) ;;
  if ans =? 0 then Ok (xb + 1, xs, d, g)
  else if ans =? 1 then Ok (xb, xs + 1, d, g)
  else if ans =? 2 then Ok (xb - 1, xs, d - (if 0 <? d then 1 else 0), g)
  else if ans =? 3 then
    let '(r, g) := uniform g in
    bound <- py_ratio (xb - d) (xb - 1) ;;
    let d := if fgt r bound then d - 1 else d in
    Ok (xb - 1, xs, d, g)
  else Ok (xb, xs - 1, d, g).

(** One trial: [true] when the order at position [d] is executed. *)
Fixpoint limit_order_trial (budget : nat) (qb_old qs_old d_old : Z) (g : rng)
  : result (run (bool * rng)) :=
  match budget with
  | O => Ok Running
  | S budget' =>
      '(qb_new, qs_new, d_new, g) <- limit_order_send_orders qb_old qs_old d_old g ;;
      if d_new =? 0 then Ok (Finished (true, g))
      else if (qs_new =? 0) && (0 <? d_new) then Ok (Finished (false, g))
      else limit_order_trial budget' qb_new qs_new d_new g
  end.

Fixpoint limit_order_trials (budget n : nat) (xb xs dpos count : Z) (g : rng)
  : result (run (Z * rng)) :=
  match n with
  | O => Ok (Finished (count, g))
  | S n' =>
      r <- limit_order_trial budget xb xs dpos g ;;
      match r with
      | Running => Ok Running
      | Finished (done, g) =>
          limit_order_trials budget n' xb xs dpos (if done then count + 1 else count) g
      end
  end.

Definition limit_order_prob (budget : nat) (n xb xs dpos : Z) (g : rng)
  : result (run (float64 * rng)) :=
  r <- limit_order_trials budget (Z.to_nat n) xb xs dpos 0 g ;;
  match r with
  | Running => Ok Running
  | Finished (count, g) => p <- py_ratio count n ;; Ok (Finished (p, g))
  end.

(** *** [prob_making_spread] *)

Definition making_spread_send_orders (xb xs bid_pos ask_pos : Z) (g : rng)
  : result (Z * Z * Z * Z * rng) :=
  let xb_rate := xb - 1 in
  let xs_rate := xs - 1 in
  let xb_rate := if bid_pos =? 0 then xb else xb_rate in
  let xs_rate := if ask_pos =? 0 then xs else xs_rate in
  let cum_rate :=
    fadd (fadd (fadd (fmul (of_int 2) mu) (fmul (of_int 2) lamda))
               (fmul theta (of_int xb_rate)))
         (fmul theta (of_int xs_rate)) in
  let pevent :=
    map (fun x => fdiv x cum_rate)
      [lamda; lamda; mu; mu; fmul theta (of_int xb_rate);
       fmul theta (of_int xs_rate)] in
  '(ans, g) <- random_choice g (np.arange 0 6) ReplaceDefault (Some pevent) ;;
  if ans =? 0 then Ok (xb + 1, xs, bid_pos, ask_pos, g)
  else if ans =? 1 then Ok (xb, xs + 1, bid_pos, ask_pos, g)
  else if ans =? 2 then
    Ok (xb - 1, xs, bid_pos - (if 0 <? bid_pos then 1 else 0), ask_pos, g)
  else if ans =? 3 then
    Ok (xb, xs - 1, bid_pos, ask_pos - (if 0 <? ask_pos then 1 else 0), g)
  else if ans =? 4 then
    let '(r, g) := uniform g in
    bound <- py_ratio (xb - bid_pos) xb_rate ;;
    let bid_pos := if fgt r bound then bid_pos - 1 else bid_pos in
    Ok (xb - 1, xs, bid_pos, ask_pos, g)
  else if ans =? 5 then
    let '(r, g) := uniform g in
    bound <- py_ratio (xs - ask_pos) xs_rate ;;
    let ask_pos := if fgt r bound then ask_pos - 1 else ask_pos in
    Ok (xb, xs - 1, bid_pos, ask_pos, g)
  else Ok (xb, xs, bid_pos, ask_pos, g).

(** One trial: [true] when both orders have been executed. *)
Fixpoint making_spread_trial (budget : nat) (qb_old qs_old b_old a_old : Z) (g : rng)
  : result (run (bool * rng)) :=
  match budget with
  | O => Ok Running
  | S budget' =>
      '(qb_new, qs_new, b_new, a_new, g) <-
        making_spread_send_orders qb_old qs_old b_old a_old g ;;
      if (b_new =? 0) && (a_new =? 0) then Ok (Finished (true, g))
      else if (qb_new =? 0) && (0 <? a_new) then Ok (Finished (false, g))
      else if (qs_new =? 0) && (0 <? b_new) then Ok (Finished (false, g))
      else making_spread_trial budget' qb_new qs_new b_new a_new g
  end.

Fixpoint making_spread_trials (budget n : nat) (xb xs bid_pos ask_pos count : Z)
    (g : rng) : result (run (Z * rng)) :=
  match n with
  | O => Ok (Finished (count, g))
  | S n' =>
      r <- making_spread_trial budget xb xs bid_pos ask_pos g ;;
      match r with
      | Running => Ok Running
      | Finished (done, g) =>
          making_spread_trials budget n' xb xs bid_pos ask_pos
            (if done then count + 1 else count) g
      end
  end.

Definition prob_making_spread (budget : nat) (n xb xs bid_pos ask_pos : Z) (g : rng)
  : result (run (float64 * rng)) :=
  r <- making_spread_trials budget (Z.to_nat n) xb xs bid_pos ask_pos 0 g ;;
  match r with
  | Running => Ok Running
  | Finished (count, g) => p <- py_ratio count n ;; Ok (Finished (p, g))
  end.

End Estimators.

(** The harness for the estimators: every uniform draw is one half, and
    [r > x] is the binary64 comparison. *)
#[global] Instance tape_uniform : @UniformSource binary64 tape := {|
  uniform := fun g => (ratio 1 2, g);
  fgt := fun r x => PrimFloat.ltb x r
|}.

(** The outcomes of [n] trials run one after the other on one random
    stream: each trial starts from the generator the trial before it left,
    and every one of them ends. *)
Inductive trial_outcomes {G : Type} (trial : G -> result (run (bool * G)))
  : nat -> G -> list bool -> G -> Prop :=
| outcomes_nil : forall g, trial_outcomes trial 0 g [] g
| outcomes_cons : forall n g up g1 ups g2,
    trial g = Ok (Finished (up, g1)) ->
    trial_outcomes trial n g1 ups g2 ->
    trial_outcomes trial (S n) g (up :: ups) g2.

(** The number of successes among the outcomes. *)
Definition successes (ups : list bool) : Z :=
  Z.of_nat (length (filter (fun up : bool => up) ups)).

(** ** Basic facts *)

Lemma bind_Ok {A B : Type} (m : result A) (k : A -> result B) (b : B) :
  bind m k = Ok b -> exists a, m = Ok a /\ k a = Ok b.
Proof.
  destruct m as [a | e]; simpl; intros E; [exists a; auto | discriminate].
Qed.

Ltac inv_bind H :=
  let a := fresh "v" in
  let E := fresh "E" in
  apply bind_Ok in H; destruct H as (a & E & H).

Lemma wrap64_small (x : Z) : - 2 ^ 63 <= x <= 2 ^ 63 - 1 -> wrap64 x = x.
Proof.
  intros Hx. unfold wrap64.
  rewrite Z.mod_small; lia.
Qed.

Lemma wrap64_range (x : Z) : - 2 ^ 63 <= wrap64 x <= 2 ^ 63 - 1.
Proof.
  unfold wrap64.
  pose proof (Z.mod_pos_bound (x + 2 ^ 63) (2 ^ 64) ltac:(lia)). lia.
Qed.

Lemma wrap64_add_sub (x q : Z) : wrap64 (wrap64 (x + q) - q) = wrap64 x.
Proof.
  unfold wrap64.
  replace ((x + q + 2 ^ 63) mod 2 ^ 64 - 2 ^ 63 - q + 2 ^ 63)
    with ((x + q + 2 ^ 63) mod 2 ^ 64 - q) by lia.
  rewrite Zminus_mod_idemp_l.
  f_equal. f_equal. lia.
Qed.

Lemma in_int64_spec (x : Z) : in_int64 x = true <-> - 2 ^ 63 <= x <= 2 ^ 63 - 1.
Proof.
  unfold in_int64, min_int64, max_int64.
  rewrite andb_true_iff, !Z.leb_le. tauto.
Qed.

Lemma in_int64_wrap64 (x : Z) : in_int64 (wrap64 x) = true.
Proof. apply in_int64_spec, wrap64_range. Qed.

Lemma nodupb_NoDup (l : list Z) : nodupb l = true -> NoDup l.
Proof.
  induction l as [| x l IH]; simpl; intros E; [constructor |].
  apply andb_true_iff in E. destruct E as [E1 E2].
  constructor; [| auto].
  intros Hin. apply negb_true_iff in E1.
  assert (existsb (Z.eqb x) l = true) as E3.
  { apply existsb_exists. exists x. split; [assumption | apply Z.eqb_refl]. }
  congruence.
Qed.

Lemma In_arange (lo hi t : Z) : lo <= t < hi -> In t (np.arange lo hi).
Proof.
  intros Ht. unfold np.arange. apply in_map_iff.
  exists (Z.to_nat (t - lo)). split; [lia |].
  apply in_seq. lia.
Qed.

Lemma arange_In (lo hi t : Z) : In t (np.arange lo hi) -> lo <= t < hi.
Proof.
  unfold np.arange. intros Hin. apply in_map_iff in Hin.
  destruct Hin as (k & <- & Hk). apply in_seq in Hk. lia.
Qed.

(** ** Masks: selection and assignment *)

Lemma length_put (arr : list Z) (mask : list bool) (v : Z) :
  length (np.put arr mask v) = length arr.
Proof.
  revert mask. induction arr as [| a arr IH]; intros [| m mask]; simpl; auto.
Qed.

Lemma nth_error_put (price' arr : list Z) (p v : Z) (i : nat) :
  length arr = length price' ->
  nth_error (np.put arr (np.eq price' p) v) i =
  match nth_error price' i with
  | Some t => if t =? p then Some v else nth_error arr i
  | None => None
  end.
Proof.
  revert arr i. induction price' as [| t price' IH]; intros [| a arr] i Hlen;
    simpl in Hlen; try discriminate.
  - destruct i; reflexivity.
  - destruct i as [| i]; simpl.
    + destruct (t =? p); reflexivity.
    + apply IH. lia.
Qed.

Lemma In_pick (price' arr : list Z) (f : Z -> bool) (t : Z) :
  length arr = length price' ->
  (In t (np.pick price' (map f arr)) <->
   exists i x, nth_error price' i = Some t /\ nth_error arr i = Some x /\ f x = true).
Proof.
  revert arr. induction price' as [| t0 price' IH]; intros [| a arr] Hlen;
    simpl in Hlen; try discriminate.
  - simpl. split; [tauto |]. intros ([| i] & x & Hp & _); discriminate.
  - simpl. specialize (IH arr ltac:(lia)).
    destruct (f a) eqn:Ef.
    + split.
      * intros [<- | Hin].
        -- exists 0%nat, a. auto.
        -- apply IH in Hin. destruct Hin as (i & x & Hp & Ha & Hx).
           exists (S i), x. auto.
      * intros ([| i] & x & Hp & Ha & Hx); simpl in *.
        -- left. congruence.
        -- right. apply IH. exists i, x. auto.
    + split.
      * intros Hin. apply IH in Hin. destruct Hin as (i & x & Hp & Ha & Hx).
        exists (S i), x. auto.
      * intros ([| i] & x & Hp & Ha & Hx); simpl in *.
        -- congruence.
        -- apply IH. exists i, x. auto.
Qed.

Lemma pick_eq_other (price' arr : list Z) (p t v : Z) :
  t <> p ->
  np.pick (np.put arr (np.eq price' p) v) (np.eq price' t) =
  np.pick arr (np.eq price' t).
Proof.
  intros Hne. revert arr. induction price' as [| t0 price' IH]; intros [| a arr];
    simpl; auto.
  destruct (t0 =? t) eqn:Et.
  - apply Z.eqb_eq in Et. assert ((t0 =? p) = false) as -> by (apply Z.eqb_neq; lia).
    f_equal. apply IH.
  - apply IH.
Qed.

Lemma pick_eq_same (price' arr : list Z) (p v : Z) :
  length arr = length price' ->
  np.pick (np.put arr (np.eq price' p) v) (np.eq price' p) =
  map (fun _ => v) (np.pick arr (np.eq price' p)).
Proof.
  revert arr. induction price' as [| t0 price' IH]; intros [| a arr] Hlen;
    simpl in Hlen; try discriminate; simpl; auto.
  destruct (t0 =? p); simpl; rewrite IH by lia; reflexivity.
Qed.

Lemma pick_eq_nonempty (price' arr : list Z) (p : Z) :
  length arr = length price' -> In p price' ->
  np.pick arr (np.eq price' p) <> [].
Proof.
  revert arr. induction price' as [| t0 price' IH]; intros [| a arr] Hlen Hin;
    simpl in Hlen; try discriminate; simpl in *; [tauto |].
  destruct (t0 =? p) eqn:Et; [discriminate |].
  apply IH; [lia |]. destruct Hin as [-> | Hin]; [| assumption].
  rewrite Z.eqb_refl in Et. discriminate.
Qed.

Lemma pick_eq_In (price' arr : list Z) (p : Z) :
  np.pick arr (np.eq price' p) <> [] -> In p price'.
Proof.
  revert arr. induction price' as [| t0 price' IH]; intros [| a arr]; simpl;
    try congruence.
  destruct (t0 =? p) eqn:Et.
  - apply Z.eqb_eq in Et. auto.
  - intros Hne. right. eapply IH. eassumption.
Qed.

(** ** The initial ladder *)

Lemma init_returns : __init__ = Ok fresh.
Proof. vm_compute. reflexivity. Qed.

Lemma fresh_ok : book_ok fresh = true.
Proof. vm_compute. reflexivity. Qed.

Lemma initial_shape_at_spec (self : Book) (t : Z) :
  initial_shape_at self t = true ->
  (t < 0 -> at_tick self (ask_size self) t = Ok 0) /\
  (0 <= t -> at_tick self (bid_size self) t = Ok 0) /\
  (t < - 8 -> at_tick self (bid_size self) t = Ok 5) /\
  (8 < t -> at_tick self (ask_size self) t = Ok 5).
Proof.
  unfold initial_shape_at.
  destruct (at_tick self (bid_size self) t) as [b | e]; [| discriminate].
  destruct (at_tick self (ask_size self) t) as [a | e]; [| discriminate].
  intros Hall.
  apply andb_true_iff in Hall. destruct Hall as [Hall H4].
  apply andb_true_iff in Hall. destruct Hall as [Hall H3].
  apply andb_true_iff in Hall. destruct Hall as [H1 H2].
  repeat split; intros Hlt.
  - apply Z.ltb_lt in Hlt. rewrite Hlt in H1. apply Z.eqb_eq in H1. now subst a.
  - apply Z.leb_le in Hlt. rewrite Hlt in H2. apply Z.eqb_eq in H2. now subst b.
  - apply Z.ltb_lt in Hlt. rewrite Hlt in H3. apply Z.eqb_eq in H3. now subst b.
  - apply Z.ltb_lt in Hlt. rewrite Hlt in H4. apply Z.eqb_eq in H4. now subst a.
Qed.

Lemma initial_shape_everywhere :
  forallb (initial_shape_at fresh) (np.arange (- 1000) 1001) = true.
Proof. vm_compute. reflexivity. Qed.

(** C4. The constructor returns a book with [levels = 1000] and [depth = 5];
    at every tick of the ladder the ask side is empty below 0, the bid side
    is empty at and above 0, the bid side holds 5 below -8 and the ask side
    holds 5 above 8; and the tapering cells are [ask_size[0] = 0],
    [ask_size[1] = 1], [ask_size[8] = 5], [bid_size[-1] = 1],
    [bid_size[-8] = 5]. *)
Theorem initial_configuration (t : Z) :
  - 1000 <= t <= 1000 ->
  __init__ = Ok fresh /\ _levels fresh = 1000 /\ _depth fresh = 5 /\
  ((t < 0 -> at_tick fresh (ask_size fresh) t = Ok 0) /\
   (0 <= t -> at_tick fresh (bid_size fresh) t = Ok 0) /\
   (t < - 8 -> at_tick fresh (bid_size fresh) t = Ok 5) /\
   (8 < t -> at_tick fresh (ask_size fresh) t = Ok 5)) /\
  at_tick fresh (ask_size fresh) 0 = Ok 0 /\
  at_tick fresh (ask_size fresh) 1 = Ok 1 /\
  at_tick fresh (ask_size fresh) 8 = Ok 5 /\
  at_tick fresh (bid_size fresh) (- 1) = Ok 1 /\
  at_tick fresh (bid_size fresh) (- 8) = Ok 5.
Proof.
  intros Ht.
  split; [exact init_returns |].
  split; [vm_compute; reflexivity |]. split; [vm_compute; reflexivity |].
  split.
  { pose proof initial_shape_everywhere as Hall.
    rewrite forallb_forall in Hall.
    exact (initial_shape_at_spec fresh t
             (Hall t (In_arange (- 1000) 1001 t ltac:(lia)))). }
  clear. repeat split; vm_compute; reflexivity.
Qed.

Lemma initial_configuration_witness :
  - 1000 <= 9 <= 1000 /\ at_tick fresh (ask_size fresh) 9 = Ok 5.
Proof.
  split; [lia |].
  destruct (initial_configuration 9 ltac:(lia)) as (_ & _ & _ & Hshape & _).
  destruct Hshape as (_ & _ & _ & Hdeep).
  exact (Hdeep ltac:(lia)).
Defined.

(** ** Cells at a tick *)

Lemma select_Ok {A : Type} (arr : list A) (mask : list bool) (l : list A) :
  np.select arr mask = Ok l <-> length arr = length mask /\ l = np.pick arr mask.
Proof.
  unfold np.select. destruct (Nat.eqb (length arr) (length mask)) eqn:E.
  - apply Nat.eqb_eq in E. split.
    + intros H. injection H as <-. auto.
    + intros [_ ->]. reflexivity.
  - apply Nat.eqb_neq in E. split; [discriminate | tauto].
Qed.

Lemma item0_Ok {A : Type} (l : list A) (x : A) :
  np.item l 0 = Ok x <-> exists rest, l = x :: rest.
Proof.
  unfold np.item. destruct l as [| y l]; simpl.
  - split; [discriminate | intros (rest & E); discriminate].
  - replace (- Z.pos (Pos.of_succ_nat (length l)) <=? 0) with true
      by (symmetry; apply Z.leb_le; lia).
    simpl. split.
    + intros E. injection E as <-. eauto.
    + intros (rest & E). injection E as <- _. reflexivity.
Qed.

Lemma length_eq_mask (price' : list Z) (p : Z) :
  length (np.eq price' p) = length price'.
Proof. unfold np.eq. apply length_map. Qed.

Lemma at_tick_inv (self : Book) (arr : list Z) (p x : Z) :
  at_tick self arr p = Ok x ->
  length arr = length (price self) /\
  exists rest, np.pick arr (np.eq (price self) p) = x :: rest.
Proof.
  unfold at_tick. intros H. inv_bind H.
  apply select_Ok in E. destruct E as [Hlen ->].
  rewrite length_eq_mask in Hlen.
  apply item0_Ok in H. auto.
Qed.

Lemma at_tick_intro (self : Book) (arr : list Z) (p x : Z) (rest : list Z) :
  length arr = length (price self) ->
  np.pick arr (np.eq (price self) p) = x :: rest ->
  at_tick self arr p = Ok x.
Proof.
  intros Hlen Hpick. unfold at_tick.
  assert (np.select arr (np.eq (price self) p) = Ok (x :: rest)) as ->.
  { apply select_Ok. rewrite length_eq_mask. auto. }
  simpl. apply item0_Ok. eauto.
Qed.

Lemma at_tick_Ok (self : Book) (arr : list Z) (p : Z) :
  length arr = length (price self) -> In p (price self) ->
  exists x, at_tick self arr p = Ok x.
Proof.
  intros Hlen Hin.
  destruct (np.pick arr (np.eq (price self) p)) as [| x rest] eqn:E.
  - exfalso. eapply pick_eq_nonempty; eassumption.
  - exists x. eapply at_tick_intro; eassumption.
Qed.

Lemma at_tick_In (self : Book) (arr : list Z) (p x : Z) :
  at_tick self arr p = Ok x -> In p (price self).
Proof.
  intros H. apply at_tick_inv in H. destruct H as (_ & rest & E).
  apply (pick_eq_In (price self) arr p). rewrite E. discriminate.
Qed.

Lemma at_tick_not_In (self : Book) (arr : list Z) (p : Z) :
  length arr = length (price self) -> ~ In p (price self) ->
  at_tick self arr p = Raise IndexError.
Proof.
  intros Hlen Hnin. unfold at_tick.
  assert (np.select arr (np.eq (price self) p) = Ok (np.pick arr (np.eq (price self) p))) as ->.
  { apply select_Ok. rewrite length_eq_mask. auto. }
  simpl.
  destruct (np.pick arr (np.eq (price self) p)) as [| x rest] eqn:E; [reflexivity |].
  exfalso. apply Hnin. apply (pick_eq_In (price self) arr p). rewrite E. discriminate.
Qed.

(** The common shape of the five writes: read the cell at the tick, compute
    the new value, store it under the same mask. *)
Lemma update_inv {A : Type} (self : Book) (arr : list Z) (p : Z)
    (f : Z -> result Z) (k : list Z -> A) (r : A) :
  (cell <- at_tick self arr p ;;
   v <- f cell ;;
   arr' <- np.assign arr (np.eq (price self) p) v ;;
   Ok (k arr')) = Ok r ->
  exists x v, at_tick self arr p = Ok x /\ f x = Ok v /\
              r = k (np.put arr (np.eq (price self) p) v).
Proof.
  intros H. inv_bind H. inv_bind H. inv_bind H.
  unfold np.assign in E1.
  destruct (Nat.eqb (length arr) (length (np.eq (price self) p))); [| discriminate].
  injection E1 as <-. injection H as <-. eauto.
Qed.

Lemma update_intro {A : Type} (self : Book) (arr : list Z) (p x v : Z)
    (f : Z -> result Z) (k : list Z -> A) :
  at_tick self arr p = Ok x -> f x = Ok v ->
  (cell <- at_tick self arr p ;;
   v <- f cell ;;
   arr' <- np.assign arr (np.eq (price self) p) v ;;
   Ok (k arr')) = Ok (k (np.put arr (np.eq (price self) p) v)).
Proof.
  intros Hx Hv. rewrite Hx. simpl. rewrite Hv. simpl.
  apply at_tick_inv in Hx. destruct Hx as [Hlen _].
  unfold np.assign. rewrite length_eq_mask.
  rewrite (proj2 (Nat.eqb_eq _ _) Hlen). reflexivity.
Qed.

Lemma at_tick_put_same (self : Book) (arr : list Z) (p x v : Z) :
  at_tick self arr p = Ok x ->
  at_tick self (np.put arr (np.eq (price self) p) v) p = Ok v.
Proof.
  intros H. apply at_tick_inv in H. destruct H as (Hlen & rest & E).
  eapply at_tick_intro with (rest := map (fun _ => v) rest).
  - rewrite length_put. assumption.
  - rewrite pick_eq_same by assumption. rewrite E. reflexivity.
Qed.

Lemma put_NoDup_restore (price' arr : list Z) (p x v : Z) (rest : list Z) :
  NoDup price' -> length arr = length price' ->
  np.pick arr (np.eq price' p) = x :: rest ->
  np.put (np.put arr (np.eq price' p) v) (np.eq price' p) x = arr.
Proof.
  intros Hnd. revert arr. induction Hnd as [| t price' Hnin Hnd IH];
    intros [| a arr] Hlen Hpick; simpl in *; try discriminate.
  destruct (t =? p) eqn:Et.
  - injection Hpick as -> Hrest. f_equal.
    apply Z.eqb_eq in Et. subst t.
    clear IH Hrest. revert arr Hlen. clear Hnd.
    induction price' as [| t price' IH]; intros [| b arr] Hlen;
      simpl in *; try discriminate; auto.
    assert ((t =? p) = false) as ->.
    { apply Z.eqb_neq. intros ->. apply Hnin. now left. }
    f_equal. apply IH; [tauto | lia].
  - f_equal. apply IH; [lia | assumption].
Qed.

(** ** Best quotes *)

Lemma fold_min_spec (xs : list Z) (x : Z) :
  In (fold_left Z.min xs x) (x :: xs) /\
  forall y, In y (x :: xs) -> fold_left Z.min xs x <= y.
Proof.
  revert x. induction xs as [| z xs IH]; intros x; simpl.
  - split; [auto | intros y [<- | []]; lia].
  - destruct (IH (Z.min x z)) as [Hin Hle]. split.
    + destruct Hin as [E | Hin]; [| auto].
      rewrite <- E. destruct (Z.min_spec x z) as [[_ ->] | [_ ->]]; auto.
    + intros y Hy.
      assert (fold_left Z.min xs (Z.min x z) <= Z.min x z) as Hm
        by (apply Hle; now left).
      destruct Hy as [<- | [<- | Hy]]; [lia | lia |].
      apply Hle. now right.
Qed.

Lemma fold_max_spec (xs : list Z) (x : Z) :
  In (fold_left Z.max xs x) (x :: xs) /\
  forall y, In y (x :: xs) -> y <= fold_left Z.max xs x.
Proof.
  revert x. induction xs as [| z xs IH]; intros x; simpl.
  - split; [auto | intros y [<- | []]; lia].
  - destruct (IH (Z.max x z)) as [Hin Hle]. split.
    + destruct Hin as [E | Hin]; [| auto].
      rewrite <- E. destruct (Z.max_spec x z) as [[_ ->] | [_ ->]]; auto.
    + intros y Hy.
      assert (Z.max x z <= fold_left Z.max xs (Z.max x z)) as Hm
        by (apply Hle; now left).
      destruct Hy as [<- | [<- | Hy]]; [lia | lia |].
      apply Hle. now right.
Qed.

Lemma resting_pick (self : Book) (arr : list Z) (t : Z) :
  length arr = length (price self) ->
  (In t (np.pick (price self) (np.gt0 arr)) <-> resting self arr t).
Proof.
  intros Hlen. unfold np.gt0, resting.
  rewrite (In_pick (price self) arr (fun x => 0 <? x) t Hlen).
  split; intros (i & x & Hp & Ha & Hx); exists i, x; repeat split; auto;
    [apply Z.ltb_lt | apply Z.ltb_lt]; assumption.
Qed.

Lemma length_gt0 (arr : list Z) : length (np.gt0 arr) = length arr.
Proof. unfold np.gt0. apply length_map. Qed.

Lemma best_ask_Ok (self : Book) (a : Z) :
  best_ask self = Ok a ->
  length (ask_size self) = length (price self) /\
  resting self (ask_size self) a /\
  forall t, resting self (ask_size self) t -> a <= t.
Proof.
  unfold best_ask. intros H. inv_bind H.
  apply select_Ok in E. destruct E as [Hlen ->].
  rewrite length_gt0 in Hlen. symmetry in Hlen.
  destruct (np.pick (price self) (np.gt0 (ask_size self))) as [| x xs] eqn:Ep;
    [discriminate |].
  simpl in H. injection H as <-.
  destruct (fold_min_spec xs x) as [Hin Hle].
  rewrite <- Ep in Hin, Hle.
  split; [assumption |]. split.
  - apply resting_pick; assumption.
  - intros t Ht. apply Hle. apply resting_pick; assumption.
Qed.

Lemma best_bid_Ok (self : Book) (b : Z) :
  best_bid self = Ok b ->
  length (bid_size self) = length (price self) /\
  resting self (bid_size self) b /\
  forall t, resting self (bid_size self) t -> t <= b.
Proof.
  unfold best_bid. intros H. inv_bind H.
  apply select_Ok in E. destruct E as [Hlen ->].
  rewrite length_gt0 in Hlen. symmetry in Hlen.
  destruct (np.pick (price self) (np.gt0 (bid_size self))) as [| x xs] eqn:Ep;
    [discriminate |].
  simpl in H. injection H as <-.
  destruct (fold_max_spec xs x) as [Hin Hle].
  rewrite <- Ep in Hin, Hle.
  split; [assumption |]. split.
  - apply resting_pick; assumption.
  - intros t Ht. apply Hle. apply resting_pick; assumption.
Qed.

Lemma best_ask_total (self : Book) :
  length (ask_size self) = length (price self) ->
  (exists a, best_ask self = Ok a) \/
  (best_ask self = Raise ValueError /\ forall t, ~ resting self (ask_size self) t).
Proof.
  intros Hlen. unfold best_ask.
  assert (np.select (price self) (np.gt0 (ask_size self))
          = Ok (np.pick (price self) (np.gt0 (ask_size self)))) as ->.
  { apply select_Ok. rewrite length_gt0. auto. }
  simpl.
  destruct (np.pick (price self) (np.gt0 (ask_size self))) as [| x xs] eqn:Ep.
  - right. split; [reflexivity |]. intros t Ht.
    apply resting_pick in Ht; [| assumption]. rewrite Ep in Ht. destruct Ht.
  - left. simpl. eauto.
Qed.

Lemma best_bid_total (self : Book) :
  length (bid_size self) = length (price self) ->
  (exists b, best_bid self = Ok b) \/
  (best_bid self = Raise ValueError /\ forall t, ~ resting self (bid_size self) t).
Proof.
  intros Hlen. unfold best_bid.
  assert (np.select (price self) (np.gt0 (bid_size self))
          = Ok (np.pick (price self) (np.gt0 (bid_size self)))) as ->.
  { apply select_Ok. rewrite length_gt0. auto. }
  simpl.
  destruct (np.pick (price self) (np.gt0 (bid_size self))) as [| x xs] eqn:Ep.
  - right. split; [reflexivity |]. intros t Ht.
    apply resting_pick in Ht; [| assumption]. rewrite Ep in Ht. destruct Ht.
  - left. simpl. eauto.
Qed.

Lemma book_ok_spec (self : Book) :
  book_ok self = true ->
  length (bid_size self) = length (price self) /\
  length (ask_size self) = length (price self) /\
  NoDup (price self) /\
  Forall (fun x => in_int64 x = true) (bid_size self) /\
  Forall (fun x => in_int64 x = true) (ask_size self).
Proof.
  unfold book_ok. intros H.
  repeat (apply andb_true_iff in H; destruct H as [H ?]).
  apply Nat.eqb_eq in H. apply Nat.eqb_eq in H3.
  repeat split; auto using nodupb_NoDup; apply Forall_forall;
    apply forallb_forall; assumption.
Qed.

(** C3 (as the code has it).  On a book state, [best_bid] returns the
    highest tick with a positive bid quantity and [best_ask] the lowest tick
    with a positive ask quantity whenever there is one; when there is none
    both raise numpy's [ValueError] for the extremum of a zero-size array,
    and so does [market_buy] on an empty ask side.  The class defines no
    exception of its own. *)
Theorem best_quotes_or_ValueError (self : Book) :
  book_ok self = true ->
  ((exists t, resting self (bid_size self) t) ->
   exists m, best_bid self = Ok m /\ resting self (bid_size self) m /\
             forall t, resting self (bid_size self) t -> t <= m) /\
  ((forall t, ~ resting self (bid_size self) t) ->
   best_bid self = Raise ValueError) /\
  ((exists t, resting self (ask_size self) t) ->
   exists m, best_ask self = Ok m /\ resting self (ask_size self) m /\
             forall t, resting self (ask_size self) t -> m <= t) /\
  ((forall t, ~ resting self (ask_size self) t) ->
   best_ask self = Raise ValueError) /\
  ((forall t, ~ resting self (ask_size self) t) ->
   forall qty, market_buy self qty = Raise ValueError).
Proof.
  intros Hok. apply book_ok_spec in Hok.
  destruct Hok as (Hbid & Hask & _).
  assert ((forall t, ~ resting self (ask_size self) t) ->
          best_ask self = Raise ValueError) as Hempty_ask.
  { intros Hnone. destruct (best_ask_total self Hask) as [[a Ha] | [E _]];
      [| assumption].
    apply best_ask_Ok in Ha. destruct Ha as (_ & Hr & _).
    exfalso. exact (Hnone a Hr). }
  repeat split.
  - intros [t Ht]. destruct (best_bid_total self Hbid) as [[m Hm] | [_ Hnone]].
    + exists m. split; [assumption |]. apply best_bid_Ok in Hm. tauto.
    + exfalso. exact (Hnone t Ht).
  - intros Hnone. destruct (best_bid_total self Hbid) as [[m Hm] | [E _]];
      [| assumption].
    apply best_bid_Ok in Hm. destruct Hm as (_ & Hr & _).
    exfalso. exact (Hnone m Hr).
  - intros [t Ht]. destruct (best_ask_total self Hask) as [[m Hm] | [_ Hnone]].
    + exists m. split; [assumption |]. apply best_ask_Ok in Hm. tauto.
    + exfalso. exact (Hnone t Ht).
  - exact Hempty_ask.
  - intros Hnone qty. unfold market_buy. rewrite (Hempty_ask Hnone). reflexivity.
Qed.

Lemma best_quotes_or_ValueError_witness :
  book_ok fresh = true /\
  exists m, best_bid fresh = Ok m /\ resting fresh (bid_size fresh) m /\
            forall t, resting fresh (bid_size fresh) t -> t <= m.
Proof.
  assert (book_ok fresh = true) as Hok by (vm_compute; reflexivity).
  split; [exact Hok |].
  destruct (best_quotes_or_ValueError fresh Hok) as (Hbid & _).
  apply Hbid. exists (- 1). exists 999%nat, 1.
  repeat split; vm_compute; reflexivity.
Defined.

(** C3, the claim as written fails: after 4984 unit market buys the ask
    side of the fresh book is empty, and [best_ask] and [market_buy] then
    raise [ValueError], not an [EmptyBookError]. *)
Lemma empty_side_raises_ValueError :
  repeat_op 4984 (fun self => market_buy self 1) fresh = Ok drained /\
  best_ask drained = Raise ValueError /\
  market_buy drained 1 = Raise ValueError /\
  best_ask drained <> Raise (UserError "EmptyBookError") /\
  market_buy drained 1 <> Raise (UserError "EmptyBookError").
Proof.
  assert (best_ask drained = Raise ValueError) as Hask
    by (vm_compute; reflexivity).
  assert (market_buy drained 1 = Raise ValueError) as Hbuy
    by (vm_compute; reflexivity).
  split; [vm_compute; reflexivity |].
  split; [exact Hask |]. split; [exact Hbuy |].
  rewrite Hask, Hbuy. split; discriminate.
Qed.

(** ** Writes at a tick *)

Lemma pick_In {A : Type} (arr : list A) (mask : list bool) (x : A) :
  In x (np.pick arr mask) -> In x arr.
Proof.
  revert mask. induction arr as [| a arr IH]; intros [| m mask]; simpl; try tauto.
  destruct m; simpl; intros Hin.
  - destruct Hin as [-> | Hin]; [auto | right; eapply IH; eassumption].
  - right. eapply IH. eassumption.
Qed.

Lemma at_tick_cell (self : Book) (arr : list Z) (p x : Z) :
  at_tick self arr p = Ok x -> In x arr.
Proof.
  intros H. apply at_tick_inv in H. destruct H as (_ & rest & E).
  apply (pick_In arr (np.eq (price self) p)). rewrite E. now left.
Qed.

Lemma at_tick_Raise (self : Book) (arr : list Z) (p : Z) (e : exn) :
  at_tick self arr p = Raise e -> e = IndexError.
Proof.
  unfold at_tick, np.select.
  destruct (Nat.eqb (length arr) (length (np.eq (price self) p))); simpl.
  - unfold np.item.
    destruct (np.pick arr (np.eq (price self) p)) as [| x rest]; simpl.
    + intros E. injection E as <-. reflexivity.
    + replace (- Z.pos (Pos.of_succ_nat (length rest)) <=? 0) with true
        by (symmetry; apply Z.leb_le; lia).
      simpl. discriminate.
  - intros E. injection E as <-. reflexivity.
Qed.

Lemma pick_eq_NoDup (price' arr : list Z) (p y : Z) (i : nat) :
  NoDup price' -> length arr = length price' ->
  nth_error price' i = Some p -> nth_error arr i = Some y ->
  np.pick arr (np.eq price' p) = [y].
Proof.
  intros Hnd. revert arr i. induction Hnd as [| t price' Hnin Hnd IH];
    intros [| a arr] i Hlen Hp Ha; simpl in Hlen; try discriminate.
  - destruct i; discriminate.
  - destruct i as [| i]; simpl in *.
    + injection Hp as ->. injection Ha as ->. rewrite Z.eqb_refl. f_equal.
      destruct (np.pick arr (np.eq price' p)) as [| z rest] eqn:E; [reflexivity |].
      exfalso. apply Hnin. apply (pick_eq_In price' arr p). rewrite E. discriminate.
    + assert ((t =? p) = false) as ->.
      { apply Z.eqb_neq. intros ->. apply Hnin.
        eapply nth_error_In. eassumption. }
      eapply IH; [lia | eassumption | eassumption].
Qed.

Lemma In_put_new (price' arr : list Z) (p v : Z) :
  np.pick arr (np.eq price' p) <> [] -> In v (np.put arr (np.eq price' p) v).
Proof.
  revert arr. induction price' as [| t price' IH]; intros [| a arr]; simpl;
    try congruence.
  destruct (t =? p); [now left |].
  intros Hne. right. apply IH. assumption.
Qed.

Lemma Forall_put (P : Z -> Prop) (arr : list Z) (mask : list bool) (v : Z) :
  Forall P arr -> P v -> Forall P (np.put arr mask v).
Proof.
  intros Harr Hv. revert mask. induction Harr as [| a arr Ha Harr IH];
    intros [| m mask]; simpl; auto.
  constructor; [destruct m; assumption | apply IH].
Qed.

Lemma limit_buy_inv (self : Book) (p q : Z) (self' : Book) :
  limit_buy self p q = Ok self' ->
  exists x, at_tick self (bid_size self) p = Ok x /\ in_int64 q = true /\
            self' = set_bid_size self
                      (np.put (bid_size self) (np.eq (price self) p) (wrap64 (x + q))).
Proof.
  unfold limit_buy. intros H.
  apply (update_inv self (bid_size self) p (fun c => int64_add c q) (set_bid_size self))
    in H.
  destruct H as (x & v & Hx & Hv & ->). exists x.
  unfold int64_add in Hv. destruct (in_int64 q); [| discriminate].
  injection Hv as <-. auto.
Qed.

Lemma limit_sell_inv (self : Book) (p q : Z) (self' : Book) :
  limit_sell self p q = Ok self' ->
  exists x, at_tick self (ask_size self) p = Ok x /\ in_int64 q = true /\
            self' = set_ask_size self
                      (np.put (ask_size self) (np.eq (price self) p) (wrap64 (x + q))).
Proof.
  unfold limit_sell. intros H.
  apply (update_inv self (ask_size self) p (fun c => int64_add c q) (set_ask_size self))
    in H.
  destruct H as (x & v & Hx & Hv & ->). exists x.
  unfold int64_add in Hv. destruct (in_int64 q); [| discriminate].
  injection Hv as <-. auto.
Qed.

Lemma limit_buy_Ok (self : Book) (p q : Z) :
  length (bid_size self) = length (price self) -> In p (price self) ->
  in_int64 q = true ->
  exists x, at_tick self (bid_size self) p = Ok x /\
            limit_buy self p q =
            Ok (set_bid_size self
                  (np.put (bid_size self) (np.eq (price self) p) (wrap64 (x + q)))).
Proof.
  intros Hlen Hin Hq.
  destruct (at_tick_Ok self (bid_size self) p Hlen Hin) as [x Hx].
  exists x. split; [assumption |]. unfold limit_buy.
  apply (update_intro self (bid_size self) p x (wrap64 (x + q))
           (fun c => int64_add c q) (set_bid_size self) Hx).
  unfold int64_add. rewrite Hq. reflexivity.
Qed.

Lemma limit_sell_Ok (self : Book) (p q : Z) :
  length (ask_size self) = length (price self) -> In p (price self) ->
  in_int64 q = true ->
  exists x, at_tick self (ask_size self) p = Ok x /\
            limit_sell self p q =
            Ok (set_ask_size self
                  (np.put (ask_size self) (np.eq (price self) p) (wrap64 (x + q)))).
Proof.
  intros Hlen Hin Hq.
  destruct (at_tick_Ok self (ask_size self) p Hlen Hin) as [x Hx].
  exists x. split; [assumption |]. unfold limit_sell.
  apply (update_intro self (ask_size self) p x (wrap64 (x + q))
           (fun c => int64_add c q) (set_ask_size self) Hx).
  unfold int64_add. rewrite Hq. reflexivity.
Qed.

Lemma market_buy_inv (self : Book) (qty : Z) (self' : Book) :
  market_buy self qty = Ok self' ->
  exists p x, best_ask self = Ok p /\ at_tick self (ask_size self) p = Ok x /\
              in_int64 qty = true /\
              self' = set_ask_size self
                        (np.put (ask_size self) (np.eq (price self) p) (wrap64 (x - qty))).
Proof.
  unfold market_buy. intros H. inv_bind H. rename v into p.
  apply (update_inv self (ask_size self) p (fun c => int64_sub c qty) (set_ask_size self))
    in H.
  destruct H as (x & v & Hx & Hv & ->). exists p, x.
  unfold int64_sub in Hv. destruct (in_int64 qty); [| discriminate].
  injection Hv as <-. auto.
Qed.

Lemma market_sell_inv (self : Book) (qty : Z) (self' : Book) :
  market_sell self qty = Ok self' ->
  exists p x, best_bid self = Ok p /\ at_tick self (bid_size self) p = Ok x /\
              in_int64 qty = true /\
              self' = set_bid_size self
                        (np.put (bid_size self) (np.eq (price self) p) (wrap64 (x - qty))).
Proof.
  unfold market_sell. intros H. inv_bind H. rename v into p.
  apply (update_inv self (bid_size self) p (fun c => int64_sub c qty) (set_bid_size self))
    in H.
  destruct H as (x & v & Hx & Hv & ->). exists p, x.
  unfold int64_sub in Hv. destruct (in_int64 qty); [| discriminate].
  injection Hv as <-. auto.
Qed.

Lemma market_buy_Ok (self : Book) (qty p x : Z) :
  best_ask self = Ok p -> at_tick self (ask_size self) p = Ok x ->
  in_int64 qty = true ->
  market_buy self qty =
  Ok (set_ask_size self
        (np.put (ask_size self) (np.eq (price self) p) (wrap64 (x - qty)))).
Proof.
  intros Hp Hx Hq. unfold market_buy. rewrite Hp. cbn [bind].
  apply (update_intro self (ask_size self) p x (wrap64 (x - qty))
           (fun c => int64_sub c qty) (set_ask_size self) Hx).
  unfold int64_sub. rewrite Hq. reflexivity.
Qed.

Lemma market_sell_Ok (self : Book) (qty p x : Z) :
  best_bid self = Ok p -> at_tick self (bid_size self) p = Ok x ->
  in_int64 qty = true ->
  market_sell self qty =
  Ok (set_bid_size self
        (np.put (bid_size self) (np.eq (price self) p) (wrap64 (x - qty)))).
Proof.
  intros Hp Hx Hq. unfold market_sell. rewrite Hp. cbn [bind].
  apply (update_intro self (bid_size self) p x (wrap64 (x - qty))
           (fun c => int64_sub c qty) (set_bid_size self) Hx).
  unfold int64_sub. rewrite Hq. reflexivity.
Qed.

Section CancelFacts.
Context `{RandomSource}.

Lemma cancel_buy_inv (self : Book) (p : Z) (co : option Z) (qty : Z) (g : rng)
    (self' : Book) (g' : rng) :
  cancel_buy self (Some p) co qty g = Ok (self', g') ->
  exists x, at_tick self (bid_size self) p = Ok x /\ in_int64 qty = true /\
            g' = g /\
            self' = set_bid_size self
                      (np.put (bid_size self) (np.eq (price self) p) (wrap64 (x - qty))).
Proof.
  unfold cancel_buy. intros Hc.
  apply (update_inv self (bid_size self) p (fun c => int64_sub c qty)
           (fun arr => (set_bid_size self arr, g))) in Hc.
  destruct Hc as (x & v & Hx & Hv & Hr). exists x.
  unfold int64_sub in Hv. destruct (in_int64 qty); [| discriminate].
  injection Hv as <-. injection Hr as -> ->. auto.
Qed.

Lemma cancel_buy_Ok (self : Book) (p x : Z) (co : option Z) (qty : Z) (g : rng) :
  at_tick self (bid_size self) p = Ok x -> in_int64 qty = true ->
  cancel_buy self (Some p) co qty g =
  Ok (set_bid_size self
        (np.put (bid_size self) (np.eq (price self) p) (wrap64 (x - qty))), g).
Proof.
  intros Hx Hq. unfold cancel_buy.
  apply (update_intro self (bid_size self) p x (wrap64 (x - qty))
           (fun c => int64_sub c qty) (fun arr => (set_bid_size self arr, g)) Hx).
  unfold int64_sub. rewrite Hq. reflexivity.
Qed.

Lemma cancel_sell_Raise (self : Book) (p : Z) (co : option Z) (qty : Z) (g : rng) :
  exists e, cancel_sell self (Some p) co qty g = Raise e /\
            (e = AttributeError "sell_size" \/ e = IndexError \/ e = OverflowError).
Proof.
  unfold cancel_sell.
  destruct (at_tick self (ask_size self) p) as [x | e] eqn:Ex; simpl.
  - unfold int64_sub. destruct (in_int64 qty); simpl; eauto.
  - exists e. split; [reflexivity |]. apply at_tick_Raise in Ex. auto.
Qed.

Lemma cancel_sell_AttributeError (self : Book) (p x : Z) (co : option Z) (qty : Z)
    (g : rng) :
  at_tick self (ask_size self) p = Ok x -> in_int64 qty = true ->
  cancel_sell self (Some p) co qty g = Raise (AttributeError "sell_size").
Proof.
  intros Hx Hq. unfold cancel_sell. rewrite Hx. simpl.
  unfold int64_sub. rewrite Hq. reflexivity.
Qed.

End CancelFacts.

Lemma put_other (price' arr : list Z) (p v : Z) (j : nat) :
  length arr = length price' -> nth_error price' j <> Some p ->
  nth_error (np.put arr (np.eq price' p) v) j = nth_error arr j.
Proof.
  intros Hlen Hne. rewrite nth_error_put by assumption.
  destruct (nth_error price' j) as [t |] eqn:Et.
  - destruct (t =? p) eqn:E; [| reflexivity].
    apply Z.eqb_eq in E. congruence.
  - symmetry. apply nth_error_None. rewrite Hlen. apply nth_error_None. assumption.
Qed.

Lemma tick_index (price' : list Z) (p : Z) :
  NoDup price' -> In p price' ->
  exists i, nth_error price' i = Some p /\
            forall j, j <> i -> nth_error price' j <> Some p.
Proof.
  intros Hnd Hin. apply In_nth_error in Hin. destruct Hin as [i Hi].
  exists i. split; [assumption |]. intros j Hji Hj.
  apply Hji. rewrite NoDup_nth_error in Hnd. apply Hnd.
  - apply nth_error_Some. congruence.
  - congruence.
Qed.

(** C10. On a book state, for an in-ladder price [p] and an int64 quantity
    [q], [limit_buy(p, q)] returns and changes one cell only, the bid cell
    at the index of [p]: every other bid cell, the whole ask array, the
    price array and the configuration are as before.  [limit_sell] does the
    same on the ask side. *)
Theorem limit_orders_frame (self : Book) (p q : Z) :
  book_ok self = true -> In p (price self) -> in_int64 q = true ->
  (exists self' i,
      limit_buy self p q = Ok self' /\
      nth_error (price self) i = Some p /\
      (forall j, j <> i -> nth_error (bid_size self') j = nth_error (bid_size self) j) /\
      length (bid_size self') = length (bid_size self) /\
      ask_size self' = ask_size self /\ price self' = price self /\
      _levels self' = _levels self /\ _depth self' = _depth self /\
      events self' = events self) /\
  (exists self' i,
      limit_sell self p q = Ok self' /\
      nth_error (price self) i = Some p /\
      (forall j, j <> i -> nth_error (ask_size self') j = nth_error (ask_size self) j) /\
      length (ask_size self') = length (ask_size self) /\
      bid_size self' = bid_size self /\ price self' = price self /\
      _levels self' = _levels self /\ _depth self' = _depth self /\
      events self' = events self).
Proof.
  intros Hok Hin Hq. apply book_ok_spec in Hok.
  destruct Hok as (Hbid & Hask & Hnd & _).
  destruct (tick_index (price self) p Hnd Hin) as (i & Hi & Hothers).
  split.
  - destruct (limit_buy_Ok self p q Hbid Hin Hq) as (x & _ & ->).
    eexists. exists i. split; [reflexivity |]. split; [assumption |].
    simpl. split.
    + intros j Hj. apply put_other; auto.
    + split; [apply length_put | auto 10].
  - destruct (limit_sell_Ok self p q Hask Hin Hq) as (x & _ & ->).
    eexists. exists i. split; [reflexivity |]. split; [assumption |].
    simpl. split.
    + intros j Hj. apply put_other; auto.
    + split; [apply length_put | auto 10].
Qed.

Lemma limit_orders_frame_witness :
  book_ok fresh = true /\ In (- 3) (price fresh) /\ in_int64 2 = true /\
  exists self' i,
    limit_buy fresh (- 3) 2 = Ok self' /\
    nth_error (price fresh) i = Some (- 3) /\
    (forall j, j <> i -> nth_error (bid_size self') j = nth_error (bid_size fresh) j) /\
    length (bid_size self') = length (bid_size fresh) /\
    ask_size self' = ask_size fresh /\ price self' = price fresh /\
    _levels self' = _levels fresh /\ _depth self' = _depth fresh /\
    events self' = events fresh.
Proof.
  assert (book_ok fresh = true) as Hok by (vm_compute; reflexivity).
  assert (In (- 3) (price fresh)) as Hin
    by (exact (In_arange (- 1000) 1001 (- 3) ltac:(lia))).
  assert (in_int64 2 = true) as Hq by reflexivity.
  split; [exact Hok |]. split; [exact Hin |]. split; [exact Hq |].
  exact (proj1 (limit_orders_frame fresh (- 3) 2 Hok Hin Hq)).
Defined.

(** C5. On a book state, for an in-ladder price [p] and an int64 quantity
    [q], [limit_buy(p, q)] followed by [cancel_buy(price=p, qty=q)] both
    return and give back the book the pair started from: [bid_size] at [p]
    has its prior value and no other cell has moved. *)
Theorem limit_then_cancel_restores `{RandomSource} (self : Book) (p q : Z)
    (co : option Z) (g : rng) :
  book_ok self = true -> In p (price self) -> in_int64 q = true ->
  exists self1 self2,
    limit_buy self p q = Ok self1 /\
    cancel_buy self1 (Some p) co q g = Ok (self2, g) /\
    at_tick self2 (bid_size self2) p = at_tick self (bid_size self) p /\
    bid_size self2 = bid_size self /\ self2 = self.
Proof.
  intros Hok Hin Hq. apply book_ok_spec in Hok.
  destruct Hok as (Hbid & Hask & Hnd & Hcells & _).
  destruct (limit_buy_Ok self p q Hbid Hin Hq) as (x & Hx & Hbuy).
  rewrite Hbuy.
  set (self1 := set_bid_size self
                  (np.put (bid_size self) (np.eq (price self) p) (wrap64 (x + q)))).
  assert (at_tick self1 (bid_size self1) p = Ok (wrap64 (x + q))) as Hx1.
  { exact (at_tick_put_same self (bid_size self) p x (wrap64 (x + q)) Hx). }
  pose proof (cancel_buy_Ok self1 p (wrap64 (x + q)) co q g Hx1 Hq) as Hcancel.
  assert (wrap64 (wrap64 (x + q) - q) = x) as Hback.
  { rewrite wrap64_add_sub. apply wrap64_small. apply in_int64_spec.
    rewrite Forall_forall in Hcells. apply Hcells.
    eapply at_tick_cell. eassumption. }
  rewrite Hback in Hcancel.
  assert (set_bid_size self1
            (np.put (bid_size self1) (np.eq (price self1) p) x) = self) as Hsame.
  { destruct (at_tick_inv _ _ _ _ Hx) as (_ & rest & Hpick).
    unfold self1, set_bid_size. simpl.
    rewrite (put_NoDup_restore (price self) (bid_size self) p x (wrap64 (x + q)) rest
               Hnd Hbid Hpick).
    destruct self; reflexivity. }
  rewrite Hsame in Hcancel.
  exists self1, self. repeat split; auto.
Qed.

Lemma limit_then_cancel_restores_witness :
  book_ok fresh = true /\ In (- 3) (price fresh) /\ in_int64 2 = true /\
  exists self1 self2,
    limit_buy fresh (- 3) 2 = Ok self1 /\
    cancel_buy self1 (Some (- 3)) None 2 ([] : list nat) = Ok (self2, []) /\
    at_tick self2 (bid_size self2) (- 3) = at_tick fresh (bid_size fresh) (- 3) /\
    bid_size self2 = bid_size fresh /\ self2 = fresh.
Proof.
  assert (book_ok fresh = true) as Hok by (vm_compute; reflexivity).
  assert (In (- 3) (price fresh)) as Hin
    by (exact (In_arange (- 1000) 1001 (- 3) ltac:(lia))).
  assert (in_int64 2 = true) as Hq by reflexivity.
  split; [exact Hok |]. split; [exact Hin |]. split; [exact Hq |].
  exact (limit_then_cancel_restores (H0 := tape) fresh (- 3) 2 None [] Hok Hin Hq).
Defined.

(** ** Decrements *)

Lemma resting_In (self : Book) (arr : list Z) (t : Z) :
  resting self arr t -> In t (price self).
Proof.
  intros (i & x & Hp & _). eapply nth_error_In. eassumption.
Qed.

Lemma nonnegb_spec (self : Book) : nonnegb self = true <-> nonneg self.
Proof.
  unfold nonnegb, nonneg. rewrite andb_true_iff, !forallb_forall, !Forall_forall.
  split; intros [Hb Ha]; split; intros x Hx.
  - apply Z.leb_le. auto.
  - apply Z.leb_le. auto.
  - apply Z.leb_le. auto.
  - apply Z.leb_le. auto.
Qed.

(** One decrement of [qty] at tick [p] of a non-negative int64 array: the
    cell becomes [x - qty] with no wrap-around, and the array stays
    non-negative exactly when [qty <= x]. *)
Lemma decrement_nonneg (self : Book) (arr : list Z) (p x qty : Z) :
  Forall (fun c => in_int64 c = true) arr -> Forall (Z.le 0) arr ->
  0 <= qty -> in_int64 qty = true ->
  at_tick self arr p = Ok x ->
  wrap64 (x - qty) = x - qty /\
  (Forall (Z.le 0) (np.put arr (np.eq (price self) p) (wrap64 (x - qty)))
   <-> qty <= x).
Proof.
  intros Hcells Hpos Hqty Hq Hx.
  pose proof (at_tick_cell _ _ _ _ Hx) as Hin.
  rewrite Forall_forall in Hcells, Hpos.
  pose proof (Hcells x Hin) as Hx64. pose proof (Hpos x Hin) as Hx0.
  apply in_int64_spec in Hx64. apply in_int64_spec in Hq.
  assert (wrap64 (x - qty) = x - qty) as Hw by (apply wrap64_small; lia).
  split; [assumption |]. rewrite Hw. split.
  - intros Hall. rewrite Forall_forall in Hall.
    assert (0 <= x - qty); [| lia].
    apply Hall. apply In_put_new.
    destruct (at_tick_inv _ _ _ _ Hx) as (_ & rest & ->). discriminate.
  - intros Hle. apply Forall_put; [apply Forall_forall; assumption | lia].
Qed.

Lemma best_quote_cell (self : Book) (arr : list Z) (p x : Z) :
  NoDup (price self) -> length arr = length (price self) ->
  resting self arr p -> at_tick self arr p = Ok x -> 0 < x.
Proof.
  intros Hnd Hlen (i & y & Hp & Hy & Hpos) Hx.
  destruct (at_tick_inv _ _ _ _ Hx) as (_ & rest & Hpick).
  rewrite (pick_eq_NoDup (price self) arr p y i Hnd Hlen Hp Hy) in Hpick.
  injection Hpick as <- _. assumption.
Qed.

(** The cancels that never write: [cancel_sell], with or without a price,
    and [cancel_buy] without a price raise on every book. *)
Lemma cancels_that_raise `{RandomSource} (self : Book) (qty : Z) :
  (forall p' co g, exists e, cancel_sell self p' co qty g = Raise e) /\
  (forall co g, exists e, cancel_buy self None co qty g = Raise e).
Proof.
  split.
  - intros [p |] co g.
    + destruct (cancel_sell_Raise self p co qty g) as (e & He & _). eauto.
    + unfold cancel_sell. destruct (choose co None g) as [[q g'] | e]; simpl; eauto.
  - intros co g. unfold cancel_buy.
    destruct (choose co None g) as [[q g'] | e]; simpl; eauto.
Qed.

(** C1 (as the code has it).  On a book state with non-negative cells and
    for an int64 [qty >= 0], the decrements that write neither clamp nor
    check: [market_buy(qty)] when there is a best ask [p],
    [market_sell(qty)] when there is a best bid [p], and
    [cancel_buy(price=p, qty)] for a tick [p] of the ladder all return, the
    cell at [p] goes from [x] to [x - qty], and the book stays non-negative
    exactly when [qty <= x].  For the two market orders [x > 0], so the
    default [qty = 1] keeps the book non-negative.  The other cancels,
    [cancel_sell] with or without a price and [cancel_buy] without a price,
    raise on every call. *)
Theorem decrements_do_not_clamp `{RandomSource} (self : Book) (qty : Z) :
  book_ok self = true -> nonnegb self = true -> 0 <= qty -> in_int64 qty = true ->
  (forall p, best_ask self = Ok p ->
     exists x self',
       at_tick self (ask_size self) p = Ok x /\ 0 < x /\
       market_buy self qty = Ok self' /\
       at_tick self' (ask_size self') p = Ok (x - qty) /\
       (nonneg self' <-> qty <= x)) /\
  (forall p, best_bid self = Ok p ->
     exists x self',
       at_tick self (bid_size self) p = Ok x /\ 0 < x /\
       market_sell self qty = Ok self' /\
       at_tick self' (bid_size self') p = Ok (x - qty) /\
       (nonneg self' <-> qty <= x)) /\
  (forall p co g, In p (price self) ->
     exists x self',
       at_tick self (bid_size self) p = Ok x /\
       cancel_buy self (Some p) co qty g = Ok (self', g) /\
       at_tick self' (bid_size self') p = Ok (x - qty) /\
       (nonneg self' <-> qty <= x)) /\
  (forall p' co g, exists e, cancel_sell self p' co qty g = Raise e) /\
  (forall co g, exists e, cancel_buy self None co qty g = Raise e).
Proof.
  intros Hok Hnn Hqty Hq. apply book_ok_spec in Hok.
  destruct Hok as (Hbid & Hask & Hnd & Hbid64 & Hask64).
  apply nonnegb_spec in Hnn. destruct Hnn as [Hbid0 Hask0].
  split; [| split; [| split; [| apply cancels_that_raise]]].
  - intros p Hp.
    destruct (best_ask_Ok self p Hp) as (_ & Hrest & _).
    destruct (at_tick_Ok self (ask_size self) p Hask (resting_In _ _ _ Hrest))
      as [x Hx].
    destruct (decrement_nonneg self (ask_size self) p x qty Hask64 Hask0 Hqty Hq Hx)
      as [Hw Hiff].
    exists x. eexists. split; [exact Hx |]. split.
    { exact (best_quote_cell self (ask_size self) p x Hnd Hask Hrest Hx). }
    split; [exact (market_buy_Ok self qty p x Hp Hx Hq) |]. split.
    { rewrite Hw.
      exact (at_tick_put_same self (ask_size self) p x (x - qty) Hx). }
    unfold nonneg. simpl. rewrite Hiff. tauto.
  - intros p Hp.
    destruct (best_bid_Ok self p Hp) as (_ & Hrest & _).
    destruct (at_tick_Ok self (bid_size self) p Hbid (resting_In _ _ _ Hrest))
      as [x Hx].
    destruct (decrement_nonneg self (bid_size self) p x qty Hbid64 Hbid0 Hqty Hq Hx)
      as [Hw Hiff].
    exists x. eexists. split; [exact Hx |]. split.
    { exact (best_quote_cell self (bid_size self) p x Hnd Hbid Hrest Hx). }
    split; [exact (market_sell_Ok self qty p x Hp Hx Hq) |]. split.
    { rewrite Hw.
      exact (at_tick_put_same self (bid_size self) p x (x - qty) Hx). }
    unfold nonneg. simpl. rewrite Hiff. tauto.
  - intros p co g Hin.
    destruct (at_tick_Ok self (bid_size self) p Hbid Hin) as [x Hx].
    destruct (decrement_nonneg self (bid_size self) p x qty Hbid64 Hbid0 Hqty Hq Hx)
      as [Hw Hiff].
    exists x. eexists. split; [exact Hx |].
    split; [exact (cancel_buy_Ok self p x co qty g Hx Hq) |]. split.
    { rewrite Hw.
      exact (at_tick_put_same self (bid_size self) p x (x - qty) Hx). }
    unfold nonneg. simpl. rewrite Hiff. tauto.
Qed.

Lemma decrements_do_not_clamp_witness :
  book_ok fresh = true /\ nonnegb fresh = true /\ 0 <= 1 /\ in_int64 1 = true /\
  best_ask fresh = Ok 1 /\
  exists x self',
    at_tick fresh (ask_size fresh) 1 = Ok x /\ 0 < x /\
    market_buy fresh 1 = Ok self' /\
    at_tick self' (ask_size self') 1 = Ok (x - 1) /\
    (nonneg self' <-> 1 <= x).
Proof.
  assert (book_ok fresh = true) as Hok by (vm_compute; reflexivity).
  assert (nonnegb fresh = true) as Hnn by (vm_compute; reflexivity).
  assert (0 <= 1) as Hq by lia.
  assert (in_int64 1 = true) as Hq64 by reflexivity.
  assert (best_ask fresh = Ok 1) as Ha by (vm_compute; reflexivity).
  split; [exact Hok |]. split; [exact Hnn |]. split; [exact Hq |].
  split; [exact Hq64 |]. split; [exact Ha |].
  exact (proj1 (decrements_do_not_clamp (H0 := tape) fresh 1 Hok Hnn Hq Hq64) 1 Ha).
Defined.

(** C1, the claim as written fails: on the fresh book tick 0 holds no bid,
    and [cancel_buy(price=0)] with the default quantity leaves -1 there;
    [market_buy(qty=2)] leaves -1 at tick 1, which held one unit. *)
Lemma decrement_goes_negative :
  at_tick fresh (bid_size fresh) 0 = Ok 0 /\
  (r <- cancel_buy fresh (Some 0) None 1 ([] : list nat) ;;
   at_tick (fst r) (bid_size (fst r)) 0) = Ok (- 1) /\
  at_tick fresh (ask_size fresh) 1 = Ok 1 /\
  (self' <- market_buy fresh 2 ;; at_tick self' (ask_size self') 1) = Ok (- 1).
Proof.
  repeat split; vm_compute; reflexivity.
Qed.

(** ** The misspelt attributes *)

(** C8, on the code: [cancel_sell] with an explicit price never returns.
    It reads the ask cell, then assigns through [self.sell_size], an
    attribute the class never sets, so the call ends in [AttributeError]
    (or earlier in [IndexError] or [OverflowError]) and [ask_size] is not
    decremented.  On the fresh book, [cancel_sell(price=1)] raises
    [AttributeError] while tick 1 holds one unit. *)
Theorem cancel_sell_never_returns :
  (forall (F : FloatOps) (R : RandomSource) (self : Book) (p : Z) (co : option Z)
          (qty : Z) (g : rng),
     exists e, cancel_sell self (Some p) co qty g = Raise e /\
               (e = AttributeError "sell_size" \/ e = IndexError \/ e = OverflowError)) /\
  at_tick fresh (ask_size fresh) 1 = Ok 1 /\
  cancel_sell fresh (Some 1) None 1 ([] : list nat) = Raise (AttributeError "sell_size").
Proof.
  split.
  - intros F R self p co qty g. apply cancel_sell_Raise.
  - split; vm_compute; reflexivity.
Qed.

(** C2, on the code: [sfgk_model] raises [AttributeError] at its first
    statement, which reads [self.buy_size], whatever the book, the rates
    and the window; no event is drawn.  Past that statement the two cancel
    branches call [cancel_buy] and [cancel_sell] with the keyword
    [cancellable_orders], which neither accepts. *)
Theorem sfgk_model_raises :
  forall (F : FloatOps) (R : RandomSource) (self : Book) (mu lamda theta : float64)
         (L : Z) (g : rng),
    sfgk_model self mu lamda theta L g = Raise (AttributeError "buy_size") /\
    (forall net_buys net_sells,
        sfgk_dispatch self "cancel_buy" L net_buys net_sells g = Raise TypeError /\
        sfgk_dispatch self "cancel_sell" L net_buys net_sells g = Raise TypeError).
Proof.
  intros F R self mu lamda theta L g. split; [reflexivity |].
  intros net_buys net_sells. split; reflexivity.
Qed.

(** C6, on the code: [cst_model] raises [AttributeError] at its first
    statement, which reads [self.buy_size], so no distance is ever drawn;
    and [choose] hands its weights to [np.random.choice] as the third
    positional argument, [replace], leaving [p] unset. *)
Theorem cst_model_raises :
  forall (F : FloatOps) (R : RandomSource) (self : Book) (mu : float64)
         (lamdas thetas : list float64) (L : Z) (g : rng),
    cst_model self mu lamdas thetas L g = Raise (AttributeError "buy_size") /\
    (forall prob,
        choose (Some L) (Some prob) g =
        random_choice g (np.arange 1 (L + 1)) (ReplaceArray prob) None).
Proof.
  intros F R self mu lamdas thetas L g. split; [reflexivity |].
  intros prob. reflexivity.
Qed.

(** ** The book never crosses *)

Lemma price_fresh : price fresh = np.arange (- 1000) 1001.
Proof. vm_compute. reflexivity. Qed.

Lemma separated_no_cross (self : Book) :
  price self = np.arange (- 1000) 1001 -> separated self = true -> no_cross self.
Proof.
  unfold separated. intros Hprice Hsep.
  destruct (best_bid self) as [b | e] eqn:Eb; [| discriminate].
  destruct (best_ask self) as [a | e] eqn:Ea; [| discriminate].
  apply Z.ltb_lt in Hsep.
  apply best_bid_Ok in Eb. destruct Eb as (Hbid & _ & Hmax).
  apply best_ask_Ok in Ea. destruct Ea as (Hask & _ & Hmin).
  repeat split; auto.
  intros tb ta Htb Hta. specialize (Hmax tb Htb). specialize (Hmin ta Hta). lia.
Qed.

Lemma no_cross_fresh : no_cross fresh.
Proof.
  apply separated_no_cross; [exact price_fresh | vm_compute; reflexivity].
Qed.

Lemma no_cross_tick (self : Book) (t : Z) :
  no_cross self -> In t (price self) -> - 1000 <= t <= 1000.
Proof.
  intros (Hprice & _) Hin. rewrite Hprice in Hin. apply arange_In in Hin. lia.
Qed.

Lemma resting_put (self : Book) (arr : list Z) (p v t : Z) :
  length arr = length (price self) ->
  resting self (np.put arr (np.eq (price self) p) v) t ->
  t = p \/ resting self arr t.
Proof.
  intros Hlen (i & x & Hp & Hx & Hpos).
  rewrite nth_error_put in Hx by assumption. rewrite Hp in Hx.
  destruct (t =? p) eqn:E.
  - left. apply Z.eqb_eq. assumption.
  - right. exists i, x. auto.
Qed.

Lemma no_cross_bid_write (self : Book) (p v : Z) :
  no_cross self ->
  (forall ta, resting self (ask_size self) ta -> p < ta) ->
  no_cross (set_bid_size self (np.put (bid_size self) (np.eq (price self) p) v)).
Proof.
  intros (Hprice & Hbid & Hask & Hsep) Hbelow.
  unfold no_cross. simpl. rewrite length_put.
  repeat split; auto.
  intros tb ta Htb Hta.
  change (resting self (np.put (bid_size self) (np.eq (price self) p) v) tb) in Htb.
  change (resting self (ask_size self) ta) in Hta.
  apply resting_put in Htb; [| assumption].
  destruct Htb as [-> | Htb]; auto.
Qed.

Lemma no_cross_ask_write (self : Book) (p v : Z) :
  no_cross self ->
  (forall tb, resting self (bid_size self) tb -> tb < p) ->
  no_cross (set_ask_size self (np.put (ask_size self) (np.eq (price self) p) v)).
Proof.
  intros (Hprice & Hbid & Hask & Hsep) Habove.
  unfold no_cross. simpl. rewrite length_put.
  repeat split; auto.
  intros tb ta Htb Hta.
  change (resting self (bid_size self) tb) in Htb.
  change (resting self (np.put (ask_size self) (np.eq (price self) p) v) ta) in Hta.
  apply resting_put in Hta; [| assumption].
  destruct Hta as [-> | Hta]; auto.
Qed.

Lemma market_buy_no_cross (self : Book) (qty : Z) (self' : Book) :
  no_cross self -> market_buy self qty = Ok self' -> no_cross self'.
Proof.
  intros Hnc Hop. apply market_buy_inv in Hop.
  destruct Hop as (p & x & Hp & _ & _ & ->).
  apply no_cross_ask_write; [assumption |].
  apply best_ask_Ok in Hp. destruct Hp as (_ & Hrest & _).
  destruct Hnc as (_ & _ & _ & Hsep). intros tb Htb. auto.
Qed.

Lemma market_sell_no_cross (self : Book) (qty : Z) (self' : Book) :
  no_cross self -> market_sell self qty = Ok self' -> no_cross self'.
Proof.
  intros Hnc Hop. apply market_sell_inv in Hop.
  destruct Hop as (p & x & Hp & _ & _ & ->).
  apply no_cross_bid_write; [assumption |].
  apply best_bid_Ok in Hp. destruct Hp as (_ & Hrest & _).
  destruct Hnc as (_ & _ & _ & Hsep). intros ta Hta. auto.
Qed.

(** A tick of the ladder that is [a - q] or [b + q] modulo 2^64, for an
    int64 distance [q >= 1], is [a - q] or [b + q] itself. *)
Lemma wrap64_below (a q p : Z) :
  - 1000 <= a <= 1000 -> 1 <= q <= 2 ^ 63 - 1 -> - 1000 <= p <= 1000 ->
  p = wrap64 (a - q) -> p < a.
Proof.
  intros Ha Hq Hp ->.
  destruct (Z_lt_le_dec (a - q) (- 2 ^ 63)) as [Hlow | Hfit].
  - exfalso. unfold wrap64 in Hp.
    replace (a - q + 2 ^ 63) with (a - q + 2 ^ 63 + 2 ^ 64 + (- 1) * 2 ^ 64) in Hp by lia.
    rewrite Z.mod_add in Hp by lia.
    rewrite Z.mod_small in Hp by lia. lia.
  - rewrite wrap64_small by lia. lia.
Qed.

Lemma wrap64_above (b q p : Z) :
  - 1000 <= b <= 1000 -> 1 <= q <= 2 ^ 63 - 1 -> - 1000 <= p <= 1000 ->
  p = wrap64 (b + q) -> b < p.
Proof.
  intros Hb Hq Hp ->.
  destruct (Z_lt_le_dec (2 ^ 63 - 1) (b + q)) as [Hhigh | Hfit].
  - exfalso. unfold wrap64 in Hp.
    replace (b + q + 2 ^ 63) with (b + q + 2 ^ 63 - 2 ^ 64 + 1 * 2 ^ 64) in Hp by lia.
    rewrite Z.mod_add in Hp by lia.
    rewrite Z.mod_small in Hp by lia. lia.
  - rewrite wrap64_small by lia. lia.
Qed.

Section EventInvariant.
Context `{RandomSource}.

Lemma choose_range (L : Z) (prob : option (list float64)) (g : rng) (q : Z) (g' : rng) :
  choose (Some L) prob g = Ok (q, g') -> 1 <= q <= 2 ^ 63 - 1.
Proof.
  unfold choose. intros Hc.
  assert (In q (np.arange 1 (L + 1)) /\ in_int64 q = true) as [Hin H64].
  { destruct prob; simpl in Hc; eapply random_choice_In; eassumption. }
  apply arange_In in Hin. apply in_int64_spec in H64. lia.
Qed.

Lemma bid_write_below_ask (self : Book) (q p a v : Z) :
  no_cross self -> best_ask self = Ok a -> 1 <= q <= 2 ^ 63 - 1 ->
  p = wrap64 (a - q) -> In p (price self) ->
  no_cross (set_bid_size self (np.put (bid_size self) (np.eq (price self) p) v)).
Proof.
  intros Hnc Ha Hq Hp Hin.
  apply no_cross_bid_write; [assumption |].
  apply best_ask_Ok in Ha. destruct Ha as (_ & Hrest & Hmin).
  assert (p < a) as Hlt.
  { apply (wrap64_below a q p); auto.
    - eapply no_cross_tick; [eassumption | eapply resting_In; eassumption].
    - eapply no_cross_tick; eassumption. }
  intros ta Hta. specialize (Hmin ta Hta). lia.
Qed.

Lemma ask_write_above_bid (self : Book) (q p b v : Z) :
  no_cross self -> best_bid self = Ok b -> 1 <= q <= 2 ^ 63 - 1 ->
  p = wrap64 (b + q) -> In p (price self) ->
  no_cross (set_ask_size self (np.put (ask_size self) (np.eq (price self) p) v)).
Proof.
  intros Hnc Hb Hq Hp Hin.
  apply no_cross_ask_write; [assumption |].
  apply best_bid_Ok in Hb. destruct Hb as (_ & Hrest & Hmax).
  assert (b < p) as Hlt.
  { apply (wrap64_above b q p); auto.
    - eapply no_cross_tick; [eassumption | eapply resting_In; eassumption].
    - eapply no_cross_tick; eassumption. }
  intros tb Htb. specialize (Hmax tb Htb). lia.
Qed.

(** The limit branches, shared by the two models. *)
Lemma limit_buy_branch (self : Book) (L : Z) (prob : option (list float64))
    (g : rng) (r : Book * rng) :
  no_cross self ->
  ('(q, g) <- choose (Some L) prob g ;;
   a <- best_ask self ;;
   let p := wrap64 (a - q) in
   self <- limit_buy self p 1 ;; Ok (self, g)) = Ok r ->
  no_cross (fst r).
Proof.
  intros Hnc Hr. inv_bind Hr. destruct v as [q g1].
  inv_bind Hr. rename v into a. cbv zeta in Hr. inv_bind Hr.
  injection Hr as <-. simpl.
  apply limit_buy_inv in E1. destruct E1 as (x & Hx & _ & ->).
  apply (bid_write_below_ask self q (wrap64 (a - q)) a); auto.
  - eapply choose_range; eassumption.
  - eapply at_tick_In; eassumption.
Qed.

Lemma limit_sell_branch (self : Book) (L : Z) (prob : option (list float64))
    (g : rng) (r : Book * rng) :
  no_cross self ->
  ('(q, g) <- choose (Some L) prob g ;;
   b <- best_bid self ;;
   let p := wrap64 (b + q) in
   self <- limit_sell self p 1 ;; Ok (self, g)) = Ok r ->
  no_cross (fst r).
Proof.
  intros Hnc Hr. inv_bind Hr. destruct v as [q g1].
  inv_bind Hr. rename v into b. cbv zeta in Hr. inv_bind Hr.
  injection Hr as <-. simpl.
  apply limit_sell_inv in E1. destruct E1 as (x & Hx & _ & ->).
  apply (ask_write_above_bid self q (wrap64 (b + q)) b); auto.
  - eapply choose_range; eassumption.
  - eapply at_tick_In; eassumption.
Qed.

Lemma market_buy_branch (self : Book) (g : rng) (r : Book * rng) :
  no_cross self ->
  (self <- market_buy self 1 ;; Ok (self, g)) = Ok r -> no_cross (fst r).
Proof.
  intros Hnc Hr. inv_bind Hr. injection Hr as <-. simpl.
  eapply market_buy_no_cross; eassumption.
Qed.

Lemma market_sell_branch (self : Book) (g : rng) (r : Book * rng) :
  no_cross self ->
  (self <- market_sell self 1 ;; Ok (self, g)) = Ok r -> no_cross (fst r).
Proof.
  intros Hnc Hr. inv_bind Hr. injection Hr as <-. simpl.
  eapply market_sell_no_cross; eassumption.
Qed.

Lemma sfgk_dispatch_no_cross (self : Book) (market_event : string) (L : Z)
    (net_buys net_sells : Z) (g : rng) (r : Book * rng) :
  no_cross self ->
  sfgk_dispatch self market_event L net_buys net_sells g = Ok r ->
  no_cross (fst r).
Proof.
  intros Hnc. unfold sfgk_dispatch.
  destruct (String.eqb market_event "market_buy"); [apply market_buy_branch; auto |].
  destruct (String.eqb market_event "market_sell"); [apply market_sell_branch; auto |].
  destruct (String.eqb market_event "limit_buy"); [apply limit_buy_branch; auto |].
  destruct (String.eqb market_event "limit_sell"); [apply limit_sell_branch; auto |].
  destruct (String.eqb market_event "cancel_buy"); [discriminate |].
  destruct (String.eqb market_event "cancel_sell"); [discriminate |].
  intros Hr. injection Hr as <-. assumption.
Qed.

Lemma cst_dispatch_no_cross (self : Book) (market_event : string)
    (lamdas thetas : list float64) (L : Z) (cb cs : list Z)
    (cum_lam cb_rates cs_rates : float64) (g : rng) (r : Book * rng) :
  no_cross self ->
  cst_dispatch self market_event lamdas thetas L cb cs cum_lam cb_rates cs_rates g
    = Ok r ->
  no_cross (fst r).
Proof.
  intros Hnc. unfold cst_dispatch.
  destruct (String.eqb market_event "market_buy"); [apply market_buy_branch; auto |].
  destruct (String.eqb market_event "market_sell"); [apply market_sell_branch; auto |].
  destruct (String.eqb market_event "limit_buy"); [apply limit_buy_branch; auto |].
  destruct (String.eqb market_event "limit_sell"); [apply limit_sell_branch; auto |].
  destruct (String.eqb market_event "cancel_buy").
  { intros Hr. inv_bind Hr. inv_bind Hr. destruct v0 as [q g1].
    inv_bind Hr. rename v0 into a. cbv zeta in Hr.
    destruct r as [self' g'].
    change (cancel_buy self (Some (wrap64 (a - q))) None 1 g1 = Ok (self', g')) in Hr.
    apply cancel_buy_inv in Hr.
    destruct Hr as (x & Hx & _ & _ & ->). simpl.
    apply (bid_write_below_ask self q (wrap64 (a - q)) a); auto.
    - eapply choose_range; eassumption.
    - eapply at_tick_In; eassumption. }
  destruct (String.eqb market_event "cancel_sell").
  { intros Hr. inv_bind Hr. inv_bind Hr. destruct v0 as [q g1].
    inv_bind Hr. rename v0 into b. cbv zeta in Hr.
    change (cancel_sell self (Some (wrap64 (b + q))) None 1 g1 = Ok r) in Hr.
    destruct (cancel_sell_Raise self (wrap64 (b + q)) None 1 g1) as (e & He & _).
    rewrite He in Hr. discriminate. }
  intros Hr. injection Hr as <-. assumption.
Qed.

End EventInvariant.

Lemma reachable_no_cross (self : Book) : reachable self -> no_cross self.
Proof.
  induction 1 as [| F R self mu lamda theta L g self' g' _ _ Hstep
                  | F R self mu lamdas thetas L g self' g' _ _ Hstep
                  | F R self ev L nb ns g self' g' _ IH Hstep
                  | F R self ev lamdas thetas L cb cs cl cbr csr g self' g' _ IH Hstep].
  - exact no_cross_fresh.
  - discriminate Hstep.
  - discriminate Hstep.
  - exact (sfgk_dispatch_no_cross self ev L nb ns g (self', g') IH Hstep).
  - exact (cst_dispatch_no_cross self ev lamdas thetas L cb cs cl cbr csr g
             (self', g') IH Hstep).
Qed.

(** C9. In every state the event models can reach from the fresh book in
    which both sides hold orders, [spread()] returns
    [best_ask() - best_bid()] and it is not negative. *)
Theorem reachable_spread_nonneg (self : Book) (a b : Z) :
  reachable self -> best_ask self = Ok a -> best_bid self = Ok b ->
  spread self = Ok (a - b) /\ 0 <= a - b.
Proof.
  intros Hreach Ha Hb. apply reachable_no_cross in Hreach.
  pose proof Hreach as (_ & _ & _ & Hsep).
  unfold spread. rewrite Ha, Hb. simpl.
  apply best_ask_Ok in Ha. destruct Ha as (_ & Hra & _).
  apply best_bid_Ok in Hb. destruct Hb as (_ & Hrb & _).
  pose proof (no_cross_tick self a Hreach (resting_In _ _ _ Hra)).
  pose proof (no_cross_tick self b Hreach (resting_In _ _ _ Hrb)).
  specialize (Hsep b a Hrb Hra).
  rewrite wrap64_small by lia. split; [reflexivity | lia].
Qed.

Lemma reachable_spread_nonneg_witness :
  reachable fresh /\ best_ask fresh = Ok 1 /\ best_bid fresh = Ok (- 1) /\
  spread fresh = Ok (1 - - 1) /\ 0 <= 1 - - 1.
Proof.
  assert (best_ask fresh = Ok 1) as Ha by (vm_compute; reflexivity).
  assert (best_bid fresh = Ok (- 1)) as Hb by (vm_compute; reflexivity).
  split; [exact reach_fresh |]. split; [exact Ha |]. split; [exact Hb |].
  exact (reachable_spread_nonneg fresh 1 (- 1) reach_fresh Ha Hb).
Defined.

(** ** The averaging drivers *)

Lemma length_arange (lo hi : Z) : length (np.arange lo hi) = Z.to_nat (hi - lo).
Proof. unfold np.arange. rewrite length_map, length_seq. reflexivity. Qed.

Lemma take_length {A : Type} (arr : list A) (idx : list Z) (l : list A) :
  np.take arr idx = Ok l -> length l = length idx.
Proof.
  revert l. induction idx as [| i idx IH]; intros l Ht; simpl in Ht.
  - injection Ht as <-. reflexivity.
  - inv_bind Ht. inv_bind Ht. injection Ht as <-. simpl. f_equal. auto.
Qed.

Lemma book_shape_length (self : Book) (band : Z) (shape : list Z) :
  book_shape self band = Ok shape ->
  length shape = (Z.to_nat (band + 1) + Z.to_nat band)%nat.
Proof.
  unfold book_shape. intros Hs. inv_bind Hs. inv_bind Hs. inv_bind Hs. inv_bind Hs.
  injection Hs as <-. unfold np.append. rewrite length_app.
  apply take_length in E0. apply take_length in E2.
  rewrite E0, E2, !length_map, !length_arange. f_equal; lia.
Qed.

Lemma length_zip_with {A B C : Type} (f : A -> B -> C) (a : list A) (b : list B) :
  length a = length b -> length (np.zip_with f a b) = length a.
Proof.
  revert b. induction a as [| x a IH]; intros [| y b] Hlen; simpl in *;
    try discriminate; auto.
Qed.

Lemma nth_error_zip_with {A B C : Type} (f : A -> B -> C) (a : list A) (b : list B)
    (i : nat) :
  nth_error (np.zip_with f a b) i =
  match nth_error a i, nth_error b i with
  | Some x, Some y => Some (f x y)
  | _, _ => None
  end.
Proof.
  revert b i. induction a as [| x a IH]; intros [| y b] [| i]; simpl; auto.
  - destruct (nth_error a i); reflexivity.
Qed.

Lemma broadcast_same_length {A B C : Type} (f : A -> B -> C) (a : list A) (b : list B) :
  length a = length b -> np.broadcast f a b = Ok (np.zip_with f a b).
Proof.
  intros Hlen. unfold np.broadcast.
  rewrite (proj2 (Nat.eqb_eq _ _) Hlen). reflexivity.
Qed.

Lemma put_put (arr : list Z) (mask : list bool) (v v' : Z) :
  np.put (np.put arr mask v) mask v' = np.put arr mask v'.
Proof.
  revert mask. induction arr as [| a arr IH]; intros [| m mask]; simpl; auto.
  destruct m; f_equal; apply IH.
Qed.

Section DriverFacts.
Context `{FloatOps}.
Variable G : Type.
Variable model : Book -> G -> result (Book * G).
Variable traj : nat -> Book * G.
Variables L max_events : Z.
Variable shapes : nat -> list Z.

Lemma length_true_divide (shape : list Z) (n : Z) :
  length (true_divide shape n) = length shape.
Proof. unfold true_divide. apply length_map. Qed.

Lemma running_sum_length (len n : nat) :
  (forall k, (k <= n)%nat -> length (shapes k) = len) ->
  length (running_sum n max_events shapes) = len.
Proof.
  induction n as [| n IH]; intros Hlen; simpl.
  - rewrite length_true_divide. apply Hlen. lia.
  - rewrite length_zip_with.
    + apply IH. intros k Hk. apply Hlen. lia.
    + rewrite length_true_divide, IH, Hlen; auto.
Qed.

Lemma burn_in_traj (n k0 : nat) :
  (forall k, (k0 <= k < k0 + n)%nat ->
             model (fst (traj k)) (snd (traj k)) = Ok (traj (S k))) ->
  burn_in G model n (fst (traj k0)) (snd (traj k0)) = Ok (traj (k0 + n)%nat).
Proof.
  revert k0. induction n as [| n IH]; intros k0 Hstep; simpl.
  - rewrite Nat.add_0_r. destruct (traj k0); reflexivity.
  - rewrite Hstep by lia. simpl.
    specialize (IH (S k0)). destruct (traj (S k0)) as [self g] eqn:E.
    simpl in IH. rewrite IH.
    + do 2 f_equal. lia.
    + intros k Hk. apply Hstep. lia.
Qed.

Lemma accumulate_traj (len n j base : nat) :
  (forall k, (j + base <= k < n + j + base)%nat ->
             model (fst (traj k)) (snd (traj k)) = Ok (traj (S k))) ->
  (forall k, (k <= n + j)%nat ->
             book_shape (fst (traj (k + base)%nat)) L = Ok (shapes k)) ->
  (forall k, (k <= n + j)%nat -> length (shapes k) = len) ->
  accumulate G model n L max_events
    (fst (traj (j + base)%nat)) (snd (traj (j + base)%nat))
    (running_sum j max_events shapes)
  = Ok (running_sum (n + j) max_events shapes,
        fst (traj (n + j + base)%nat), snd (traj (n + j + base)%nat)).
Proof.
  revert j. induction n as [| n IH]; intros j Hstep Hshape Hlen.
  - reflexivity.
  - cbn [accumulate]. rewrite Hstep by lia. cbn [bind].
    specialize (IH (S j)).
    change (S (j + base)) with (S j + base)%nat.
    destruct (traj (S j + base)%nat) as [self g] eqn:E.
    unfold scaled_shape.
    assert (book_shape self L = Ok (shapes (S j))) as ->.
    { specialize (Hshape (S j) ltac:(lia)). rewrite E in Hshape. exact Hshape. }
    cbn [bind].
    rewrite broadcast_same_length.
    2:{ rewrite length_true_divide, (running_sum_length len j), Hlen; auto; try lia.
        intros k Hk. apply Hlen. lia. }
    cbn [bind]. cbn [fst snd] in IH.
    change (np.zip_with fadd (running_sum j max_events shapes)
              (true_divide (shapes (S j)) max_events))
      with (running_sum (S j) max_events shapes).
    rewrite IH.
    + replace (n + S j)%nat with (S n + j)%nat by lia. reflexivity.
    + intros k Hk. apply Hstep. lia.
    + intros k Hk. apply Hshape. lia.
    + intros k Hk. apply Hlen. lia.
Qed.

Lemma simulate_with_traj :
  1 <= max_events ->
  (forall k, (k < Z.to_nat (max_events - 1) + 1000)%nat ->
             model (fst (traj k)) (snd (traj k)) = Ok (traj (S k))) ->
  (forall k, (k <= Z.to_nat (max_events - 1))%nat ->
             book_shape (fst (traj (k + 1000)%nat)) L = Ok (shapes k)) ->
  simulate_with G model L max_events (fst (traj 0%nat)) (snd (traj 0%nat))
  = Ok (running_sum (Z.to_nat (max_events - 1)) max_events shapes,
        fst (traj (Z.to_nat (max_events - 1) + 1000)%nat),
        snd (traj (Z.to_nat (max_events - 1) + 1000)%nat)).
Proof.
  intros Hm Hstep Hshape. unfold simulate_with.
  rewrite (burn_in_traj 1000 0) by (intros k Hk; apply Hstep; lia).
  change (0 + 1000)%nat with 1000%nat.
  pose proof (accumulate_traj (Z.to_nat (L + 1) + Z.to_nat L)
                (Z.to_nat (max_events - 1)) 0 1000) as Hacc.
  rewrite !Nat.add_0_r in Hacc. change (0 + 1000)%nat with 1000%nat in Hacc.
  destruct (traj 1000%nat) as [self g] eqn:E. cbn [bind fst snd] in *.
  unfold scaled_shape.
  assert (book_shape self L = Ok (shapes 0%nat)) as ->.
  { specialize (Hshape 0%nat ltac:(lia)).
    change (0 + 1000)%nat with 1000%nat in Hshape. rewrite E in Hshape.
    exact Hshape. }
  cbn [bind]. rewrite length_arange.
  apply Hacc.
  - intros k Hk. apply Hstep. lia.
  - intros k Hk. apply Hshape. lia.
  - intros k Hk. eapply book_shape_length. apply Hshape. lia.
Qed.

(** Mirroring an average of [2 L + 1] cells around its centre. *)
Lemma symmetrize_spec (avg : list float64) :
  0 <= L -> length avg = Z.to_nat (2 * L + 1) ->
  exists ans,
    symmetrize avg L = Ok ans /\ length ans = Z.to_nat (L + 1) /\
    (exists c, nth_error avg (Z.to_nat L) = Some c /\ nth_error ans 0 = Some c) /\
    (forall d, 1 <= d <= L ->
       exists x y,
         nth_error avg (Z.to_nat (L - d)) = Some x /\
         nth_error avg (Z.to_nat (L + d)) = Some y /\
         nth_error ans (Z.to_nat d) = Some (fmul (fadd x y) half)).
Proof.
  intros HL Hlen. unfold symmetrize, np.upto, np.from.
  assert ((L <? 0) = false) as -> by (apply Z.ltb_ge; lia).
  assert ((L + 1 <? 0) = false) as -> by (apply Z.ltb_ge; lia).
  assert (length (rev (firstn (Z.to_nat L) avg)) = Z.to_nat L) as Hl1.
  { rewrite length_rev, length_firstn. lia. }
  assert (length (skipn (Z.to_nat (L + 1)) avg) = Z.to_nat L) as Hl2.
  { rewrite length_skipn. lia. }
  rewrite broadcast_same_length by congruence. cbn [bind].
  destruct (nth_error avg (Z.to_nat L)) as [c |] eqn:Ec.
  2:{ apply nth_error_None in Ec. lia. }
  assert (np.item avg L = Ok c) as ->.
  { unfold np.item.
    assert ((- Z.of_nat (length avg) <=? L) && (L <? Z.of_nat (length avg)) = true)
      as ->.
    { apply andb_true_iff. split; [apply Z.leb_le | apply Z.ltb_lt]; lia. }
    assert ((L <? 0) = false) as -> by (apply Z.ltb_ge; lia).
    rewrite Ec. reflexivity. }
  cbn [bind]. eexists. split; [reflexivity |].
  unfold np.append. split.
  { cbn [app length]. rewrite length_map, length_zip_with by congruence.
    rewrite Hl1. lia. }
  split.
  { exists c. split; reflexivity. }
  intros d Hd.
  destruct (nth_error avg (Z.to_nat (L - d))) as [x |] eqn:Ex.
  2:{ apply nth_error_None in Ex. lia. }
  destruct (nth_error avg (Z.to_nat (L + d))) as [y |] eqn:Ey.
  2:{ apply nth_error_None in Ey. lia. }
  exists x, y. split; [reflexivity |]. split; [reflexivity |].
  replace (Z.to_nat d) with (S (Z.to_nat (d - 1))) by lia.
  cbn [app nth_error]. rewrite nth_error_map, nth_error_zip_with.
  assert (nth_error (rev (firstn (Z.to_nat L) avg)) (Z.to_nat (d - 1)) = Some x) as ->.
  { rewrite nth_error_rev.
    assert ((Z.to_nat (d - 1) <? length (firstn (Z.to_nat L) avg))%nat = true) as ->.
    { apply Nat.ltb_lt. rewrite length_firstn. lia. }
    rewrite length_firstn.
    replace (Init.Nat.min (Z.to_nat L) (length avg) - S (Z.to_nat (d - 1)))%nat
      with (Z.to_nat (L - d)) by lia.
    rewrite nth_error_firstn.
    assert ((Z.to_nat (L - d) <? Z.to_nat L)%nat = true) as ->
      by (apply Nat.ltb_lt; lia).
    assumption. }
  rewrite nth_error_skipn.
  replace (Z.to_nat (L + 1) + Z.to_nat (d - 1))%nat with (Z.to_nat (L + d)) by lia.
  rewrite Ey. reflexivity.
Qed.

End DriverFacts.

(** The loops of the two drivers, for an event model that returns at every
    call while [book_shape(L)] returns at every sample; [traj k] is the
    state after [k] events.  For [max_events >= 1] the loops run 1000
    burn-in events, take a first sample right after them, and then run
    [max_events - 1] further events with one sample after each: the result
    is the sum of the [max_events] samples of states 1000 to
    [1000 + max_events - 1], each divided by [max_events], and the book is
    left in the last of these states.  For [L >= 0] the CST loop returns,
    from that sum of [2 L + 1] cells, the centre cell unmixed followed, for
    each distance [d] in 1..L, by half the sum of the cells [d] places to
    the left and to the right of the centre. *)
Lemma driver_loops `{FloatOps} (G : Type)
    (model : Book -> G -> result (Book * G)) (traj : nat -> Book * G)
    (L max_events : Z) (shapes : nat -> list Z) :
  1 <= max_events ->
  (forall k, (k < Z.to_nat (max_events - 1) + 1000)%nat ->
             model (fst (traj k)) (snd (traj k)) = Ok (traj (S k))) ->
  (forall k, (k <= Z.to_nat (max_events - 1))%nat ->
             book_shape (fst (traj (k + 1000)%nat)) L = Ok (shapes k)) ->
  simulate_with G model L max_events (fst (traj 0%nat)) (snd (traj 0%nat))
  = Ok (running_sum (Z.to_nat (max_events - 1)) max_events shapes,
        fst (traj (Z.to_nat (max_events - 1) + 1000)%nat),
        snd (traj (Z.to_nat (max_events - 1) + 1000)%nat)) /\
  (0 <= L ->
   exists ans,
     cst_simulate_with G model L max_events (fst (traj 0%nat)) (snd (traj 0%nat))
     = Ok (ans,
           fst (traj (Z.to_nat (max_events - 1) + 1000)%nat),
           snd (traj (Z.to_nat (max_events - 1) + 1000)%nat)) /\
     length ans = Z.to_nat (L + 1) /\
     (exists c,
        nth_error (running_sum (Z.to_nat (max_events - 1)) max_events shapes)
          (Z.to_nat L) = Some c /\
        nth_error ans 0 = Some c) /\
     (forall d, 1 <= d <= L ->
        exists x y,
          nth_error (running_sum (Z.to_nat (max_events - 1)) max_events shapes)
            (Z.to_nat (L - d)) = Some x /\
          nth_error (running_sum (Z.to_nat (max_events - 1)) max_events shapes)
            (Z.to_nat (L + d)) = Some y /\
          nth_error ans (Z.to_nat d) = Some (fmul (fadd x y) half))).
Proof.
  intros Hm Hstep Hshape.
  pose proof (simulate_with_traj G model traj L max_events shapes Hm Hstep Hshape)
    as Hsim.
  split; [exact Hsim |].
  intros HL.
  assert (length (running_sum (Z.to_nat (max_events - 1)) max_events shapes)
          = Z.to_nat (2 * L + 1)) as Hlen.
  { apply running_sum_length. intros k Hk.
    rewrite (book_shape_length _ _ _ (Hshape k Hk)). lia. }
  destruct (symmetrize_spec L _ HL Hlen) as (ans & Hans & Hrest).
  exists ans. split; [| exact Hrest].
  unfold cst_simulate_with. rewrite Hsim. cbn [bind]. rewrite Hans. reflexivity.
Qed.

Lemma limit_buy_again (self : Book) (p x v q : Z) :
  at_tick self (bid_size self) p = Ok x -> in_int64 q = true ->
  - 2 ^ 63 <= v + q <= 2 ^ 63 - 1 ->
  limit_buy (set_bid_size self (np.put (bid_size self) (np.eq (price self) p) v)) p q
  = Ok (set_bid_size self (np.put (bid_size self) (np.eq (price self) p) (v + q))).
Proof.
  intros Hx Hq Hfit.
  set (self1 := set_bid_size self (np.put (bid_size self) (np.eq (price self) p) v)).
  assert (at_tick self1 (bid_size self1) p = Ok v) as Hv
    by exact (at_tick_put_same self (bid_size self) p x v Hx).
  unfold limit_buy.
  rewrite (update_intro self1 (bid_size self1) p v (wrap64 (v + q))
             (fun c => int64_add c q) (set_bid_size self1) Hv)
    by (unfold int64_add; rewrite Hq; reflexivity).
  rewrite wrap64_small by assumption.
  unfold self1, set_bid_size. cbn [bid_size price _levels _depth ask_size events].
  rewrite put_put. reflexivity.
Qed.

Lemma one_bid_per_event_step (self : Book) (x : Z) (k : nat) (g : unit) :
  at_tick self (bid_size self) (- 1) = Ok x ->
  - 2 ^ 63 <= x + Z.of_nat k + 1 <= 2 ^ 63 - 1 ->
  one_bid_per_event
    (set_bid_size self
       (np.put (bid_size self) (np.eq (price self) (- 1)) (x + Z.of_nat k))) g
  = Ok (set_bid_size self
          (np.put (bid_size self) (np.eq (price self) (- 1)) (x + Z.of_nat (S k))), g).
Proof.
  intros Hx Hfit. unfold one_bid_per_event.
  rewrite (limit_buy_again self (- 1) x (x + Z.of_nat k) 1 Hx eq_refl Hfit).
  cbn [bind]. do 4 f_equal. lia.
Qed.

Lemma counted_step (k : nat) :
  (k < 2000)%nat ->
  one_bid_per_event (fst (counted k)) (snd (counted k)) = Ok (counted (S k)).
Proof.
  intros Hk.
  assert (at_tick fresh (bid_size fresh) (- 1) = Ok 1) as Hx
    by (vm_compute; reflexivity).
  exact (one_bid_per_event_step fresh 1 k tt Hx ltac:(lia)).
Qed.

(** The loops on an event model that rests one bid at tick -1 per event,
    so that the cell at -1 is one more than the number of events, with
    [max_events = 2] and [L = 1]: the loops leave 1002 in that cell, which
    is 1001 events in all, where 1002 events leave 1003; and the samples
    are those after events 1000 and 1001. *)
Lemma driver_loops_example :
  simulate_with unit one_bid_per_event 1 2 (fst (counted 0)) (snd (counted 0))
  = Ok (running_sum 1 2 (fun k => [1001 + Z.of_nat k; 0; 1]),
        fst (counted 1001), snd (counted 1001)) /\
  (r <- simulate_with unit one_bid_per_event 1 2 fresh tt ;;
   at_tick (snd (fst r)) (bid_size (snd (fst r))) (- 1)) = Ok 1002 /\
  (r <- burn_in unit one_bid_per_event (1000 + 2) fresh tt ;;
   at_tick (fst r) (bid_size (fst r)) (- 1)) = Ok 1003 /\
  (r <- simulate_with unit one_bid_per_event 1 2 fresh tt ;; Ok (fst (fst r)))
  = Ok [ratio 2003 2; ratio 0 2; ratio 2 2].
Proof.
  split.
  { refine (proj1 (driver_loops unit one_bid_per_event counted 1 2
                     (fun k => [1001 + Z.of_nat k; 0; 1]) ltac:(lia) _ _)).
    - intros k Hk. apply counted_step.
      change (Z.to_nat (2 - 1)) with 1%nat in Hk. lia.
    - intros k Hk. change (Z.to_nat (2 - 1)) with 1%nat in Hk.
      destruct k as [| [| k]]; [vm_compute; reflexivity | vm_compute; reflexivity | lia]. }
  split; [vm_compute; reflexivity |].
  split; [vm_compute; reflexivity |].
  vm_compute; reflexivity.
Qed.

Lemma burn_in_Raise (G : Type) (model : Book -> G -> result (Book * G)) (n : nat)
    (self : Book) (g : G) (e : exn) :
  model self g = Raise e -> burn_in G model (S n) self g = Raise e.
Proof. intros E. cbn [burn_in]. rewrite E. reflexivity. Qed.

(** C7, on the code: neither driver returns.  The first burn-in event calls
    the event model, which raises [AttributeError] on reading
    [self.buy_size]; the error ends the driver before any sample is taken,
    whatever the book, the rates, the window and the number of events. *)
Theorem simulate_drivers_raise :
  forall (F : FloatOps) (R : RandomSource) (self : Book) (mu lamda theta : float64)
         (lamdas thetas : list float64) (L max_events : Z) (g : rng),
    sfgk_simulate self mu lamda theta L max_events g
      = Raise (AttributeError "buy_size") /\
    cst_simulate self mu lamdas thetas L max_events g
      = Raise (AttributeError "buy_size").
Proof.
  intros F R self mu lamda theta lamdas thetas L max_events g. split.
  - unfold sfgk_simulate, simulate_with.
    rewrite (burn_in_Raise rng (fun self g => sfgk_model self mu lamda theta L g)
               999 self g (AttributeError "buy_size") eq_refl).
    reflexivity.
  - unfold cst_simulate, cst_simulate_with, simulate_with.
    rewrite (burn_in_Raise rng (fun self g => cst_model self mu lamdas thetas L g)
               999 self g (AttributeError "buy_size") eq_refl).
    reflexivity.
Qed.

(** ** Book states are closed under the orders

    [book_ok] holds of the fresh book ([fresh_ok]) and every order that
    returns keeps it, so it holds of every state the class can produce. *)

Lemma forallb_put (f : Z -> bool) (arr : list Z) (mask : list bool) (v : Z) :
  forallb f arr = true -> f v = true -> forallb f (np.put arr mask v) = true.
Proof.
  intros Harr Hv. revert mask Harr. induction arr as [| a arr IH];
    intros [| m mask] Harr; simpl in *; auto.
  apply andb_true_iff in Harr. destruct Harr as [Ha Harr].
  apply andb_true_iff. split; [destruct m; assumption | apply IH; assumption].
Qed.

Lemma book_ok_bid_write (self : Book) (mask : list bool) (v : Z) :
  book_ok self = true -> in_int64 v = true ->
  book_ok (set_bid_size self (np.put (bid_size self) mask v)) = true.
Proof.
  unfold book_ok. cbn [set_bid_size bid_size ask_size price]. intros Hok Hv.
  repeat (apply andb_true_iff in Hok; destruct Hok as [Hok ?]).
  rewrite length_put.
  repeat (apply andb_true_iff; split); auto using forallb_put.
Qed.

Lemma book_ok_ask_write (self : Book) (mask : list bool) (v : Z) :
  book_ok self = true -> in_int64 v = true ->
  book_ok (set_ask_size self (np.put (ask_size self) mask v)) = true.
Proof.
  unfold book_ok. cbn [set_ask_size bid_size ask_size price]. intros Hok Hv.
  repeat (apply andb_true_iff in Hok; destruct Hok as [Hok ?]).
  rewrite length_put.
  repeat (apply andb_true_iff; split); auto using forallb_put.
Qed.

Lemma orders_keep_book_ok (self self' : Book) (p qty : Z) :
  book_ok self = true ->
  (limit_buy self p qty = Ok self' -> book_ok self' = true) /\
  (limit_sell self p qty = Ok self' -> book_ok self' = true) /\
  (market_buy self qty = Ok self' -> book_ok self' = true) /\
  (market_sell self qty = Ok self' -> book_ok self' = true).
Proof.
  intros Hok. repeat split; intros Hop.
  - apply limit_buy_inv in Hop. destruct Hop as (x & _ & _ & ->).
    apply book_ok_bid_write; [assumption | apply in_int64_wrap64].
  - apply limit_sell_inv in Hop. destruct Hop as (x & _ & _ & ->).
    apply book_ok_ask_write; [assumption | apply in_int64_wrap64].
  - apply market_buy_inv in Hop. destruct Hop as (t & x & _ & _ & _ & ->).
    apply book_ok_ask_write; [assumption | apply in_int64_wrap64].
  - apply market_sell_inv in Hop. destruct Hop as (t & x & _ & _ & _ & ->).
    apply book_ok_bid_write; [assumption | apply in_int64_wrap64].
Qed.

Lemma cancel_buy_keeps_book_ok `{RandomSource} (self self' : Book) (p : Z)
    (co : option Z) (qty : Z) (g g' : rng) :
  book_ok self = true ->
  cancel_buy self (Some p) co qty g = Ok (self', g') -> book_ok self' = true.
Proof.
  intros Hok Hop. apply cancel_buy_inv in Hop. destruct Hop as (x & _ & _ & _ & ->).
  apply book_ok_bid_write; [assumption | apply in_int64_wrap64].
Qed.


(** * Further properties of the orders and queries *)

(** ** One cell per write *)

Lemma write_at_tick (self : Book) (arr : list Z) (p x v : Z) :
  NoDup (price self) -> length arr = length (price self) ->
  at_tick self arr p = Ok x ->
  exists i,
    nth_error (price self) i = Some p /\ nth_error arr i = Some x /\
    nth_error (np.put arr (np.eq (price self) p) v) i = Some v /\
    forall j, j <> i ->
      nth_error (np.put arr (np.eq (price self) p) v) j = nth_error arr j.
Proof.
  intros Hnd Hlen Hx.
  destruct (tick_index (price self) p Hnd (at_tick_In _ _ _ _ Hx)) as (i & Hi & Hothers).
  exists i. split; [assumption |].
  assert (exists y, nth_error arr i = Some y) as [y Hy].
  { destruct (nth_error arr i) as [y |] eqn:E; [eauto |].
    apply nth_error_None in E. rewrite Hlen in E.
    apply nth_error_None in E. congruence. }
  destruct (at_tick_inv _ _ _ _ Hx) as (_ & rest & Hpick).
  rewrite (pick_eq_NoDup (price self) arr p y i Hnd Hlen Hi Hy) in Hpick.
  injection Hpick as -> _.
  split; [assumption |]. split.
  - rewrite nth_error_put by assumption. rewrite Hi, Z.eqb_refl. reflexivity.
  - intros j Hj. apply put_other; auto.
Qed.

(** X1. On a book state with a best ask [p], [market_buy(qty)] returns for
    every int64 [qty]: the one ask cell at [p], which held [x > 0], now
    holds [x - qty] (modulo 2^64); every other ask cell, the bid side and
    the price array are as before. *)
Theorem market_buy_at_best_ask (self : Book) (qty p : Z) :
  book_ok self = true -> in_int64 qty = true -> best_ask self = Ok p ->
  exists self' i x,
    market_buy self qty = Ok self' /\
    nth_error (price self) i = Some p /\
    nth_error (ask_size self) i = Some x /\ 0 < x /\
    nth_error (ask_size self') i = Some (wrap64 (x - qty)) /\
    (forall j, j <> i -> nth_error (ask_size self') j = nth_error (ask_size self) j) /\
    bid_size self' = bid_size self /\ price self' = price self.
Proof.
  intros Hok Hq Hp. apply book_ok_spec in Hok.
  destruct Hok as (_ & Hask & Hnd & _).
  pose proof (best_ask_Ok self p Hp) as (_ & Hrest & _).
  destruct (at_tick_Ok self (ask_size self) p Hask (resting_In _ _ _ Hrest)) as [x Hx].
  destruct (write_at_tick self (ask_size self) p x (wrap64 (x - qty)) Hnd Hask Hx)
    as (i & Hi & Hxi & Hnew & Hothers).
  eexists. exists i, x.
  split; [exact (market_buy_Ok self qty p x Hp Hx Hq) |].
  cbn [set_ask_size ask_size bid_size price].
  repeat split; auto.
  exact (best_quote_cell self (ask_size self) p x Hnd Hask Hrest Hx).
Qed.

Lemma market_buy_at_best_ask_witness :
  book_ok fresh = true /\ in_int64 1 = true /\ best_ask fresh = Ok 1 /\
  exists self' i x,
    market_buy fresh 1 = Ok self' /\
    nth_error (price fresh) i = Some 1 /\
    nth_error (ask_size fresh) i = Some x /\ 0 < x /\
    nth_error (ask_size self') i = Some (wrap64 (x - 1)) /\
    (forall j, j <> i -> nth_error (ask_size self') j = nth_error (ask_size fresh) j) /\
    bid_size self' = bid_size fresh /\ price self' = price fresh.
Proof.
  assert (book_ok fresh = true) as Hok by (vm_compute; reflexivity).
  assert (in_int64 1 = true) as Hq by reflexivity.
  assert (best_ask fresh = Ok 1) as Hp by (vm_compute; reflexivity).
  split; [exact Hok |]. split; [exact Hq |]. split; [exact Hp |].
  exact (market_buy_at_best_ask fresh 1 1 Hok Hq Hp).
Defined.

(** X2. On a book state with a best bid [p], [market_sell(qty)] returns for
    every int64 [qty]: the one bid cell at [p], which held [x > 0], now
    holds [x - qty] (modulo 2^64); every other bid cell, the ask side and
    the price array are as before. *)
Theorem market_sell_at_best_bid (self : Book) (qty p : Z) :
  book_ok self = true -> in_int64 qty = true -> best_bid self = Ok p ->
  exists self' i x,
    market_sell self qty = Ok self' /\
    nth_error (price self) i = Some p /\
    nth_error (bid_size self) i = Some x /\ 0 < x /\
    nth_error (bid_size self') i = Some (wrap64 (x - qty)) /\
    (forall j, j <> i -> nth_error (bid_size self') j = nth_error (bid_size self) j) /\
    ask_size self' = ask_size self /\ price self' = price self.
Proof.
  intros Hok Hq Hp. apply book_ok_spec in Hok.
  destruct Hok as (Hbid & _ & Hnd & _).
  pose proof (best_bid_Ok self p Hp) as (_ & Hrest & _).
  destruct (at_tick_Ok self (bid_size self) p Hbid (resting_In _ _ _ Hrest)) as [x Hx].
  destruct (write_at_tick self (bid_size self) p x (wrap64 (x - qty)) Hnd Hbid Hx)
    as (i & Hi & Hxi & Hnew & Hothers).
  eexists. exists i, x.
  split; [exact (market_sell_Ok self qty p x Hp Hx Hq) |].
  cbn [set_bid_size ask_size bid_size price].
  repeat split; auto.
  exact (best_quote_cell self (bid_size self) p x Hnd Hbid Hrest Hx).
Qed.

Lemma market_sell_at_best_bid_witness :
  book_ok fresh = true /\ in_int64 1 = true /\ best_bid fresh = Ok (- 1) /\
  exists self' i x,
    market_sell fresh 1 = Ok self' /\
    nth_error (price fresh) i = Some (- 1) /\
    nth_error (bid_size fresh) i = Some x /\ 0 < x /\
    nth_error (bid_size self') i = Some (wrap64 (x - 1)) /\
    (forall j, j <> i -> nth_error (bid_size self') j = nth_error (bid_size fresh) j) /\
    ask_size self' = ask_size fresh /\ price self' = price fresh.
Proof.
  assert (book_ok fresh = true) as Hok by (vm_compute; reflexivity).
  assert (in_int64 1 = true) as Hq by reflexivity.
  assert (best_bid fresh = Ok (- 1)) as Hp by (vm_compute; reflexivity).
  split; [exact Hok |]. split; [exact Hq |]. split; [exact Hp |].
  exact (market_sell_at_best_bid fresh 1 (- 1) Hok Hq Hp).
Defined.

(** X3. On a book state, [cancel_buy(price=p, qty)] returns for every
    in-ladder [p] and int64 [qty]: the one bid cell at [p] goes from [x] to
    [x - qty] (modulo 2^64); every other bid cell, the ask side, the price
    array and the random state are as before. *)
Theorem cancel_buy_at_price `{RandomSource} (self : Book) (p qty : Z)
    (co : option Z) (g : rng) :
  book_ok self = true -> In p (price self) -> in_int64 qty = true ->
  exists self' i x,
    cancel_buy self (Some p) co qty g = Ok (self', g) /\
    nth_error (price self) i = Some p /\
    nth_error (bid_size self) i = Some x /\
    nth_error (bid_size self') i = Some (wrap64 (x - qty)) /\
    (forall j, j <> i -> nth_error (bid_size self') j = nth_error (bid_size self) j) /\
    ask_size self' = ask_size self /\ price self' = price self.
Proof.
  intros Hok Hin Hq. apply book_ok_spec in Hok.
  destruct Hok as (Hbid & _ & Hnd & _).
  destruct (at_tick_Ok self (bid_size self) p Hbid Hin) as [x Hx].
  destruct (write_at_tick self (bid_size self) p x (wrap64 (x - qty)) Hnd Hbid Hx)
    as (i & Hi & Hxi & Hnew & Hothers).
  eexists. exists i, x.
  split; [exact (cancel_buy_Ok self p x co qty g Hx Hq) |].
  cbn [set_bid_size ask_size bid_size price].
  repeat split; auto.
Qed.

Lemma cancel_buy_at_price_witness :
  book_ok fresh = true /\ In (- 3) (price fresh) /\ in_int64 1 = true /\
  exists self' i x,
    cancel_buy fresh (Some (- 3)) None 1 ([] : list nat) = Ok (self', []) /\
    nth_error (price fresh) i = Some (- 3) /\
    nth_error (bid_size fresh) i = Some x /\
    nth_error (bid_size self') i = Some (wrap64 (x - 1)) /\
    (forall j, j <> i -> nth_error (bid_size self') j = nth_error (bid_size fresh) j) /\
    ask_size self' = ask_size fresh /\ price self' = price fresh.
Proof.
  assert (book_ok fresh = true) as Hok by (vm_compute; reflexivity).
  assert (In (- 3) (price fresh)) as Hin
    by (exact (In_arange (- 1000) 1001 (- 3) ltac:(lia))).
  assert (in_int64 1 = true) as Hq by reflexivity.
  split; [exact Hok |]. split; [exact Hin |]. split; [exact Hq |].
  exact (cancel_buy_at_price (H0 := tape) fresh (- 3) 1 None [] Hok Hin Hq).
Defined.

(** ** The best ask after a market buy *)

Lemma resting_put_iff (self : Book) (arr : list Z) (p v t : Z) :
  length arr = length (price self) ->
  (resting self (np.put arr (np.eq (price self) p) v) t <->
   (t = p /\ In p (price self) /\ 0 < v) \/ (t <> p /\ resting self arr t)).
Proof.
  intros Hlen. split.
  - intros (i & x & Hp & Hx & Hpos).
    rewrite nth_error_put in Hx by assumption. rewrite Hp in Hx.
    destruct (t =? p) eqn:E.
    + left. apply Z.eqb_eq in E. subst t. injection Hx as <-.
      split; [reflexivity |]. split; [| assumption].
      eapply nth_error_In. eassumption.
    + right. apply Z.eqb_neq in E. split; [assumption |]. exists i, x. auto.
  - intros [(-> & Hin & Hpos) | (Hne & i & x & Hp & Hx & Hpos)].
    + apply In_nth_error in Hin. destruct Hin as [i Hi].
      exists i, v. split; [assumption |]. split; [| assumption].
      rewrite nth_error_put by assumption. rewrite Hi, Z.eqb_refl. reflexivity.
    + exists i, x. split; [assumption |]. split; [| assumption].
      rewrite nth_error_put by assumption. rewrite Hp.
      apply Z.eqb_neq in Hne. rewrite Hne. assumption.
Qed.

Lemma best_ask_unique (self : Book) (m : Z) :
  length (ask_size self) = length (price self) ->
  resting self (ask_size self) m ->
  (forall t, resting self (ask_size self) t -> m <= t) ->
  best_ask self = Ok m.
Proof.
  intros Hlen Hm Hmin.
  destruct (best_ask_total self Hlen) as [[a Ha] | [_ Hnone]].
  - pose proof (best_ask_Ok self a Ha) as (_ & Hra & Hamin).
    specialize (Hmin a Hra). specialize (Hamin m Hm).
    rewrite Ha. f_equal. lia.
  - exfalso. exact (Hnone m Hm).
Qed.

(** X4. On a book state whose best ask [p] holds [x] units, a market buy of
    [qty >= 1] returns; the best ask stays at [p] when [qty < x], and when
    [qty >= x] the cell no longer counts as an ask, so any best ask
    afterwards lies strictly above [p]. *)
Theorem market_buy_moves_best_ask (self : Book) (qty p x : Z) :
  book_ok self = true -> 1 <= qty -> in_int64 qty = true ->
  best_ask self = Ok p -> at_tick self (ask_size self) p = Ok x ->
  exists self',
    market_buy self qty = Ok self' /\
    (qty < x -> best_ask self' = Ok p) /\
    (x <= qty -> ~ resting self' (ask_size self') p /\
                 forall p', best_ask self' = Ok p' -> p < p').
Proof.
  intros Hok Hqty Hq Hp Hx. apply book_ok_spec in Hok.
  destruct Hok as (_ & Hask & Hnd & _ & Hask64).
  pose proof (best_ask_Ok self p Hp) as (_ & Hrest & Hmin).
  pose proof (best_quote_cell self (ask_size self) p x Hnd Hask Hrest Hx) as Hx0.
  assert (wrap64 (x - qty) = x - qty) as Hw.
  { apply wrap64_small. apply in_int64_spec in Hq.
    rewrite Forall_forall in Hask64.
    pose proof (Hask64 x (at_tick_cell _ _ _ _ Hx)) as Hx64.
    apply in_int64_spec in Hx64. lia. }
  eexists. split; [exact (market_buy_Ok self qty p x Hp Hx Hq) |].
  rewrite Hw.
  set (self' := set_ask_size self
                  (np.put (ask_size self) (np.eq (price self) p) (x - qty))).
  assert (forall t, resting self' (ask_size self') t <->
                    (t = p /\ In p (price self) /\ 0 < x - qty) \/
                    (t <> p /\ resting self (ask_size self) t)) as Hiff.
  { intros t. exact (resting_put_iff self (ask_size self) p (x - qty) t Hask). }
  split.
  - intros Hlt. apply best_ask_unique.
    + unfold self'. cbn [set_ask_size ask_size price]. rewrite length_put. assumption.
    + apply Hiff. left. split; [reflexivity |].
      split; [eapply resting_In; eassumption | lia].
    + intros t Ht. apply Hiff in Ht.
      destruct Ht as [(-> & _) | (_ & Ht)]; [lia | auto].
  - intros Hge. split.
    + intros Hr. apply Hiff in Hr. destruct Hr as [(_ & _ & Hpos) | (Hne & _)];
        [lia | congruence].
    + intros p' Hp'. apply best_ask_Ok in Hp'. destruct Hp' as (_ & Hr & _).
      apply Hiff in Hr. destruct Hr as [(_ & _ & Hpos) | (Hne & Hr)]; [lia |].
      specialize (Hmin p' Hr). lia.
Qed.

Lemma market_buy_moves_best_ask_witness :
  book_ok fresh = true /\ 1 <= 1 /\ in_int64 1 = true /\
  best_ask fresh = Ok 1 /\ at_tick fresh (ask_size fresh) 1 = Ok 1 /\
  exists self',
    market_buy fresh 1 = Ok self' /\
    (1 < 1 -> best_ask self' = Ok 1) /\
    (1 <= 1 -> ~ resting self' (ask_size self') 1 /\
               forall p', best_ask self' = Ok p' -> 1 < p').
Proof.
  assert (book_ok fresh = true) as Hok by (vm_compute; reflexivity).
  assert (1 <= 1) as Hqty by lia.
  assert (in_int64 1 = true) as Hq by reflexivity.
  assert (best_ask fresh = Ok 1) as Hp by (vm_compute; reflexivity).
  assert (at_tick fresh (ask_size fresh) 1 = Ok 1) as Hx by (vm_compute; reflexivity).
  split; [exact Hok |]. split; [exact Hqty |]. split; [exact Hq |].
  split; [exact Hp |]. split; [exact Hx |].
  exact (market_buy_moves_best_ask fresh 1 1 1 Hok Hqty Hq Hp Hx).
Defined.

(** ** Prices outside the ladder and cancels without a price *)

(** X5. On a book state, an order at a price that is not a tick of the
    ladder raises [IndexError] and changes nothing: [limit_buy],
    [limit_sell], [cancel_buy(price=p)] and [cancel_sell(price=p)]
    alike. *)
Theorem price_outside_ladder_raises `{RandomSource} (self : Book) (p qty : Z)
    (co : option Z) (g : rng) :
  book_ok self = true -> ~ In p (price self) ->
  limit_buy self p qty = Raise IndexError /\
  limit_sell self p qty = Raise IndexError /\
  cancel_buy self (Some p) co qty g = Raise IndexError /\
  cancel_sell self (Some p) co qty g = Raise IndexError.
Proof.
  intros Hok Hnin. apply book_ok_spec in Hok. destruct Hok as (Hbid & Hask & _).
  pose proof (at_tick_not_In self (bid_size self) p Hbid Hnin) as Eb.
  pose proof (at_tick_not_In self (ask_size self) p Hask Hnin) as Ea.
  unfold limit_buy, limit_sell, cancel_buy, cancel_sell.
  rewrite Eb, Ea. repeat split; reflexivity.
Qed.

Lemma price_outside_ladder_raises_witness :
  book_ok fresh = true /\ ~ In 1001 (price fresh) /\
  limit_buy fresh 1001 1 = Raise IndexError /\
  limit_sell fresh 1001 1 = Raise IndexError /\
  cancel_buy fresh (Some 1001) None 1 ([] : list nat) = Raise IndexError /\
  cancel_sell fresh (Some 1001) None 1 ([] : list nat) = Raise IndexError.
Proof.
  assert (book_ok fresh = true) as Hok by (vm_compute; reflexivity).
  assert (~ In 1001 (price fresh)) as Hnin.
  { rewrite price_fresh. intros Hin. apply arange_In in Hin. lia. }
  split; [exact Hok |]. split; [exact Hnin |].
  exact (price_outside_ladder_raises (H0 := tape) fresh 1001 1 None [] Hok Hnin).
Defined.

(** X6. Without a price neither cancel ever returns.  With
    [cancelable_orders] left at [None] both raise [TypeError]; otherwise
    they draw a position and then read [self.buy_size], resp.
    [self.sell_size], which raises [AttributeError] (or they pass on the
    error of the draw).  The book is not changed. *)
Theorem cancel_without_price_raises :
  forall (F : FloatOps) (R : RandomSource) (self : Book) (co : option Z) (qty : Z)
         (g : rng),
    cancel_buy self None co qty g =
    match choose co None g with
    | Ok _ => Raise (AttributeError "buy_size")
    | Raise e => Raise e
    end /\
    cancel_sell self None co qty g =
    match choose co None g with
    | Ok _ => Raise (AttributeError "sell_size")
    | Raise e => Raise e
    end /\
    cancel_buy self None None qty g = Raise TypeError /\
    cancel_sell self None None qty g = Raise TypeError.
Proof.
  intros F R self co qty g. unfold cancel_buy, cancel_sell.
  repeat split; try reflexivity;
    destruct (choose co None g) as [[q g'] | e]; reflexivity.
Qed.

(** ** Orders in sequence *)

Lemma wrap64_sub_add (x q : Z) : wrap64 (wrap64 (x - q) + q) = wrap64 x.
Proof.
  pose proof (wrap64_add_sub x (- q)) as E.
  replace (x + - q) with (x - q) in E by lia.
  replace (wrap64 (x - q) - - q) with (wrap64 (x - q) + q) in E by lia.
  exact E.
Qed.

Lemma wrap64_add_add (x q1 q2 : Z) :
  wrap64 (wrap64 (x + q1) + q2) = wrap64 (x + (q1 + q2)).
Proof.
  unfold wrap64.
  replace ((x + q1 + 2 ^ 63) mod 2 ^ 64 - 2 ^ 63 + q2 + 2 ^ 63)
    with ((x + q1 + 2 ^ 63) mod 2 ^ 64 + q2) by lia.
  rewrite Zplus_mod_idemp_l. do 2 f_equal. lia.
Qed.

Lemma limit_sell_again (self : Book) (p x v q : Z) :
  at_tick self (ask_size self) p = Ok x -> in_int64 q = true ->
  limit_sell (set_ask_size self (np.put (ask_size self) (np.eq (price self) p) v)) p q
  = Ok (set_ask_size self
          (np.put (ask_size self) (np.eq (price self) p) (wrap64 (v + q)))).
Proof.
  intros Hx Hq.
  set (self1 := set_ask_size self (np.put (ask_size self) (np.eq (price self) p) v)).
  assert (at_tick self1 (ask_size self1) p = Ok v) as Hv
    by exact (at_tick_put_same self (ask_size self) p x v Hx).
  unfold limit_sell.
  rewrite (update_intro self1 (ask_size self1) p v (wrap64 (v + q))
             (fun c => int64_add c q) (set_ask_size self1) Hv)
    by (unfold int64_add; rewrite Hq; reflexivity).
  unfold self1, set_ask_size. cbn [bid_size price _levels _depth ask_size events].
  rewrite put_put. reflexivity.
Qed.

Lemma limit_buy_twice (self : Book) (p x v q : Z) :
  at_tick self (bid_size self) p = Ok x -> in_int64 q = true ->
  limit_buy (set_bid_size self (np.put (bid_size self) (np.eq (price self) p) v)) p q
  = Ok (set_bid_size self
          (np.put (bid_size self) (np.eq (price self) p) (wrap64 (v + q)))).
Proof.
  intros Hx Hq.
  set (self1 := set_bid_size self (np.put (bid_size self) (np.eq (price self) p) v)).
  assert (at_tick self1 (bid_size self1) p = Ok v) as Hv
    by exact (at_tick_put_same self (bid_size self) p x v Hx).
  unfold limit_buy.
  rewrite (update_intro self1 (bid_size self1) p v (wrap64 (v + q))
             (fun c => int64_add c q) (set_bid_size self1) Hv)
    by (unfold int64_add; rewrite Hq; reflexivity).
  unfold self1, set_bid_size. cbn [bid_size price _levels _depth ask_size events].
  rewrite put_put. reflexivity.
Qed.

(** X7. On a book state with best ask [p], [market_buy(qty)] followed by
    [limit_sell(p, qty)] both return and give back the book the pair
    started from, for every int64 [qty]. *)
Theorem market_buy_then_limit_sell_restores (self : Book) (p qty : Z) :
  book_ok self = true -> in_int64 qty = true -> best_ask self = Ok p ->
  exists self1,
    market_buy self qty = Ok self1 /\ limit_sell self1 p qty = Ok self.
Proof.
  intros Hok Hq Hp. apply book_ok_spec in Hok.
  destruct Hok as (_ & Hask & Hnd & _ & Hask64).
  pose proof (best_ask_Ok self p Hp) as (_ & Hrest & _).
  destruct (at_tick_Ok self (ask_size self) p Hask (resting_In _ _ _ Hrest)) as [x Hx].
  eexists. split; [exact (market_buy_Ok self qty p x Hp Hx Hq) |].
  rewrite (limit_sell_again self p x (wrap64 (x - qty)) qty Hx Hq).
  rewrite wrap64_sub_add.
  assert (wrap64 x = x) as ->.
  { apply wrap64_small. apply in_int64_spec.
    rewrite Forall_forall in Hask64. apply Hask64.
    eapply at_tick_cell. eassumption. }
  destruct (at_tick_inv _ _ _ _ Hx) as (_ & rest & Hpick).
  assert (np.put (ask_size self) (np.eq (price self) p) x = ask_size self) as ->.
  { rewrite <- (put_put (ask_size self) (np.eq (price self) p) 0 x).
    exact (put_NoDup_restore (price self) (ask_size self) p x 0 rest Hnd Hask Hpick). }
  destruct self; reflexivity.
Qed.

Lemma market_buy_then_limit_sell_restores_witness :
  book_ok fresh = true /\ in_int64 3 = true /\ best_ask fresh = Ok 1 /\
  exists self1,
    market_buy fresh 3 = Ok self1 /\ limit_sell self1 1 3 = Ok fresh.
Proof.
  assert (book_ok fresh = true) as Hok by (vm_compute; reflexivity).
  assert (in_int64 3 = true) as Hq by reflexivity.
  assert (best_ask fresh = Ok 1) as Hp by (vm_compute; reflexivity).
  split; [exact Hok |]. split; [exact Hq |]. split; [exact Hp |].
  exact (market_buy_then_limit_sell_restores fresh 1 3 Hok Hq Hp).
Defined.

(** X8. On a book state, two limit buys at the same in-ladder price add
    up: [limit_buy(p, q1)] then [limit_buy(p, q2)] leaves the book that one
    [limit_buy(p, q1 + q2)] leaves, whenever [q1], [q2] and their sum are
    int64 quantities. *)
Theorem limit_buys_add_up (self : Book) (p q1 q2 : Z) :
  book_ok self = true -> In p (price self) ->
  in_int64 q1 = true -> in_int64 q2 = true -> in_int64 (q1 + q2) = true ->
  exists self1 self2,
    limit_buy self p q1 = Ok self1 /\ limit_buy self1 p q2 = Ok self2 /\
    limit_buy self p (q1 + q2) = Ok self2.
Proof.
  intros Hok Hin H1 H2 H12. apply book_ok_spec in Hok.
  destruct Hok as (Hbid & _).
  destruct (limit_buy_Ok self p q1 Hbid Hin H1) as (x & Hx & Hfirst).
  destruct (limit_buy_Ok self p (q1 + q2) Hbid Hin H12) as (x' & Hx' & Hsum).
  assert (x' = x) as -> by congruence.
  eexists. eexists. split; [exact Hfirst |]. split.
  - exact (limit_buy_twice self p x (wrap64 (x + q1)) q2 Hx H2).
  - rewrite Hsum, wrap64_add_add. reflexivity.
Qed.

Lemma limit_buys_add_up_witness :
  book_ok fresh = true /\ In (- 2) (price fresh) /\
  in_int64 1 = true /\ in_int64 4 = true /\ in_int64 (1 + 4) = true /\
  exists self1 self2,
    limit_buy fresh (- 2) 1 = Ok self1 /\ limit_buy self1 (- 2) 4 = Ok self2 /\
    limit_buy fresh (- 2) (1 + 4) = Ok self2.
Proof.
  assert (book_ok fresh = true) as Hok by (vm_compute; reflexivity).
  assert (In (- 2) (price fresh)) as Hin
    by (exact (In_arange (- 1000) 1001 (- 2) ltac:(lia))).
  split; [exact Hok |]. split; [exact Hin |].
  split; [reflexivity |]. split; [reflexivity |]. split; [reflexivity |].
  exact (limit_buys_add_up fresh (- 2) 1 4 Hok Hin eq_refl eq_refl eq_refl).
Defined.

(** X9. On a book state a limit buy and a limit sell commute: for in-ladder
    prices and int64 quantities, [limit_buy(p, q)] then [limit_sell(p', q')]
    and the two calls in the other order all return and end in the same
    book. *)
Theorem limit_buy_sell_commute (self : Book) (p q p' q' : Z) :
  book_ok self = true -> In p (price self) -> In p' (price self) ->
  in_int64 q = true -> in_int64 q' = true ->
  exists self1 self2 self3,
    limit_buy self p q = Ok self1 /\ limit_sell self1 p' q' = Ok self3 /\
    limit_sell self p' q' = Ok self2 /\ limit_buy self2 p q = Ok self3.
Proof.
  intros Hok Hin Hin' Hq Hq'. apply book_ok_spec in Hok.
  destruct Hok as (Hbid & Hask & _).
  destruct (limit_buy_Ok self p q Hbid Hin Hq) as (x & Hx & Hbuy).
  destruct (limit_sell_Ok self p' q' Hask Hin' Hq') as (y & Hy & Hsell).
  set (self1 := set_bid_size self
                  (np.put (bid_size self) (np.eq (price self) p) (wrap64 (x + q)))).
  set (self2 := set_ask_size self
                  (np.put (ask_size self) (np.eq (price self) p') (wrap64 (y + q')))).
  fold self1 in Hbuy. fold self2 in Hsell.
  assert (at_tick self1 (ask_size self1) p' = Ok y) as Hy1 by exact Hy.
  assert (at_tick self2 (bid_size self2) p = Ok x) as Hx2 by exact Hx.
  exists self1, self2. eexists.
  split; [exact Hbuy |]. split.
  - unfold limit_sell.
    apply (update_intro self1 (ask_size self1) p' y (wrap64 (y + q'))
             (fun c => int64_add c q') (set_ask_size self1) Hy1).
    unfold int64_add. rewrite Hq'. reflexivity.
  - split; [exact Hsell |]. unfold limit_buy.
    exact (update_intro self2 (bid_size self2) p x (wrap64 (x + q))
             (fun c => int64_add c q) (set_bid_size self2) Hx2
             ltac:(unfold int64_add; rewrite Hq; reflexivity)).
Qed.

Lemma limit_buy_sell_commute_witness :
  book_ok fresh = true /\ In (- 2) (price fresh) /\ In 2 (price fresh) /\
  in_int64 1 = true /\ in_int64 4 = true /\
  exists self1 self2 self3,
    limit_buy fresh (- 2) 1 = Ok self1 /\ limit_sell self1 2 4 = Ok self3 /\
    limit_sell fresh 2 4 = Ok self2 /\ limit_buy self2 (- 2) 1 = Ok self3.
Proof.
  assert (book_ok fresh = true) as Hok by (vm_compute; reflexivity).
  assert (In (- 2) (price fresh)) as Hin
    by (exact (In_arange (- 1000) 1001 (- 2) ltac:(lia))).
  assert (In 2 (price fresh)) as Hin'
    by (exact (In_arange (- 1000) 1001 2 ltac:(lia))).
  split; [exact Hok |]. split; [exact Hin |]. split; [exact Hin' |].
  split; [reflexivity |]. split; [reflexivity |].
  exact (limit_buy_sell_commute fresh (- 2) 1 2 4 Hok Hin Hin' eq_refl eq_refl).
Defined.

(** ** Positions *)

Lemma where_first (price' : list Z) (b k : Z) (i : nat) :
  nth_error price' i = Some b ->
  (forall j, (j < i)%nat -> nth_error price' j <> Some b) ->
  exists rest, np.where_from k (np.eq price' b) = (k + Z.of_nat i) :: rest.
Proof.
  revert k i. induction price' as [| t price' IH]; intros k i Hi Hfirst.
  - destruct i; discriminate.
  - destruct i as [| i]; simpl in *.
    + injection Hi as ->. rewrite Z.eqb_refl. exists (np.where_from (k + 1) (np.eq price' b)).
      f_equal. lia.
    + assert ((t =? b) = false) as ->.
      { apply Z.eqb_neq. intros ->. apply (Hfirst 0%nat); [lia | reflexivity]. }
      destruct (IH (k + 1) i Hi) as [rest Hrest].
      { intros j Hj. apply (Hfirst (S j)). lia. }
      exists rest. rewrite Hrest. f_equal. lia.
Qed.

Lemma position_of_tick (self : Book) (b : Z) (i : nat) :
  nth_error (price self) i = Some b ->
  (forall j, (j < i)%nat -> nth_error (price self) j <> Some b) ->
  np.item (np.where_ (np.eq (price self) b)) 0 = Ok (Z.of_nat i).
Proof.
  intros Hi Hfirst. unfold np.where_.
  destruct (where_first (price self) b 0 i Hi Hfirst) as [rest ->].
  apply item0_Ok. eauto.
Qed.

(** X10. On a book state where both sides hold orders, the three position
    queries return 1-based indices into the price array: [_bid_position]
    is one more than the index of the best bid, [_ask_position] one more
    than the index of the best ask, and [_mid_position] is the integer
    half of their sum. *)
Theorem positions_of_quotes (self : Book) (b a : Z) :
  book_ok self = true -> best_bid self = Ok b -> best_ask self = Ok a ->
  exists i j,
    nth_error (price self) i = Some b /\ nth_error (price self) j = Some a /\
    _bid_position self = Ok (Z.of_nat i + 1) /\
    _ask_position self = Ok (Z.of_nat j + 1) /\
    _mid_position self = Ok ((Z.of_nat i + 1 + (Z.of_nat j + 1)) / 2).
Proof.
  intros Hok Hb Ha. apply book_ok_spec in Hok. destruct Hok as (_ & _ & Hnd & _).
  pose proof (best_bid_Ok self b Hb) as (_ & Hrb & _).
  pose proof (best_ask_Ok self a Ha) as (_ & Hra & _).
  destruct (tick_index (price self) b Hnd (resting_In _ _ _ Hrb)) as (i & Hi & Hib).
  destruct (tick_index (price self) a Hnd (resting_In _ _ _ Hra)) as (j & Hj & Hja).
  assert (_bid_position self = Ok (Z.of_nat i + 1)) as Hbp.
  { unfold _bid_position. rewrite Hb. cbn [bind].
    rewrite (position_of_tick self b i Hi); [reflexivity |].
    intros k Hk. apply Hib. lia. }
  assert (_ask_position self = Ok (Z.of_nat j + 1)) as Hap.
  { unfold _ask_position. rewrite Ha. cbn [bind].
    rewrite (position_of_tick self a j Hj); [reflexivity |].
    intros k Hk. apply Hja. lia. }
  exists i, j. repeat split; auto.
  unfold _mid_position. rewrite Hbp, Hap. reflexivity.
Qed.

Lemma positions_of_quotes_witness :
  book_ok fresh = true /\ best_bid fresh = Ok (- 1) /\ best_ask fresh = Ok 1 /\
  exists i j,
    nth_error (price fresh) i = Some (- 1) /\ nth_error (price fresh) j = Some 1 /\
    _bid_position fresh = Ok (Z.of_nat i + 1) /\
    _ask_position fresh = Ok (Z.of_nat j + 1) /\
    _mid_position fresh = Ok ((Z.of_nat i + 1 + (Z.of_nat j + 1)) / 2).
Proof.
  assert (book_ok fresh = true) as Hok by (vm_compute; reflexivity).
  assert (best_bid fresh = Ok (- 1)) as Hb by (vm_compute; reflexivity).
  assert (best_ask fresh = Ok 1) as Ha by (vm_compute; reflexivity).
  split; [exact Hok |]. split; [exact Hb |]. split; [exact Ha |].
  exact (positions_of_quotes fresh (- 1) 1 Hok Hb Ha).
Defined.

Lemma nth_error_arange (lo hi : Z) (i : nat) :
  (i < Z.to_nat (hi - lo))%nat ->
  nth_error (np.arange lo hi) i = Some (lo + Z.of_nat i).
Proof.
  intros Hi. unfold np.arange. rewrite nth_error_map.
  rewrite nth_error_seq.
  assert ((i <? Z.to_nat (hi - lo))%nat = true) as -> by (apply Nat.ltb_lt; lia).
  reflexivity.
Qed.

Lemma position_in_ladder (self : Book) (t : Z) :
  price self = np.arange (- 1000) 1001 -> - 1000 <= t <= 1000 ->
  np.item (np.where_ (np.eq (price self) t)) 0 = Ok (t + 1000).
Proof.
  intros Hprice Ht.
  replace (t + 1000) with (Z.of_nat (Z.to_nat (t + 1000))) by lia.
  apply position_of_tick; rewrite Hprice.
  - rewrite nth_error_arange by lia. f_equal. lia.
  - intros j Hj. rewrite nth_error_arange by lia. intros E.
    assert (- 1000 + Z.of_nat j = t) as E' by congruence. lia.
Qed.

(** X11. In every state the event models can reach in which both sides
    hold orders, a quote at tick [t] has position [t + 1001], so
    [_bid_position() < _ask_position()], and [_mid_position()] returns a
    position from the best bid's (included) to the best ask's
    (excluded). *)
Theorem reachable_positions (self : Book) (b a : Z) :
  reachable self -> best_bid self = Ok b -> best_ask self = Ok a ->
  _bid_position self = Ok (b + 1001) /\
  _ask_position self = Ok (a + 1001) /\
  _mid_position self = Ok ((a + b + 2002) / 2) /\
  b + 1001 <= (a + b + 2002) / 2 < a + 1001.
Proof.
  intros Hreach Hb Ha. apply reachable_no_cross in Hreach.
  pose proof Hreach as (Hprice & _ & _ & Hsep).
  pose proof (best_bid_Ok self b Hb) as (_ & Hrb & _).
  pose proof (best_ask_Ok self a Ha) as (_ & Hra & _).
  pose proof (no_cross_tick self b Hreach (resting_In _ _ _ Hrb)) as Hbt.
  pose proof (no_cross_tick self a Hreach (resting_In _ _ _ Hra)) as Hat.
  specialize (Hsep b a Hrb Hra).
  assert (_bid_position self = Ok (b + 1001)) as Hbp.
  { unfold _bid_position. rewrite Hb. cbn [bind].
    rewrite (position_in_ladder self b Hprice Hbt). cbn [bind]. f_equal. lia. }
  assert (_ask_position self = Ok (a + 1001)) as Hap.
  { unfold _ask_position. rewrite Ha. cbn [bind].
    rewrite (position_in_ladder self a Hprice Hat). cbn [bind]. f_equal. lia. }
  split; [assumption |]. split; [assumption |]. split.
  - unfold _mid_position. rewrite Hbp, Hap. cbn [bind]. do 2 f_equal. lia.
  - split.
    + apply Z.div_le_lower_bound; lia.
    + apply Z.div_lt_upper_bound; lia.
Qed.

Lemma reachable_positions_witness :
  reachable fresh /\ best_bid fresh = Ok (- 1) /\ best_ask fresh = Ok 1 /\
  _bid_position fresh = Ok (- 1 + 1001) /\
  _ask_position fresh = Ok (1 + 1001) /\
  _mid_position fresh = Ok ((1 + - 1 + 2002) / 2) /\
  - 1 + 1001 <= (1 + - 1 + 2002) / 2 < 1 + 1001.
Proof.
  assert (best_bid fresh = Ok (- 1)) as Hb by (vm_compute; reflexivity).
  assert (best_ask fresh = Ok 1) as Ha by (vm_compute; reflexivity).
  split; [exact reach_fresh |]. split; [exact Hb |]. split; [exact Ha |].
  exact (reachable_positions fresh (- 1) 1 reach_fresh Hb Ha).
Defined.

(** ** Queries on an empty side *)

Lemma bid_position_Ok (self : Book) (b : Z) :
  best_bid self = Ok b -> exists pos, _bid_position self = Ok pos.
Proof.
  intros Hb. pose proof (best_bid_Ok self b Hb) as (_ & Hrb & _).
  apply resting_In in Hrb. unfold _bid_position. rewrite Hb. cbn [bind].
  assert (exists i, nth_error (price self) i = Some b /\
                    forall j, (j < i)%nat -> nth_error (price self) j <> Some b)
    as (i & Hi & Hfirst).
  { clear Hb. induction (price self) as [| t l IH]; [destruct Hrb |].
    destruct (Z.eq_dec t b) as [-> | Hne].
    - exists 0%nat. split; [reflexivity | intros j Hj; lia].
    - destruct Hrb as [E | Hin]; [congruence |].
      destruct (IH Hin) as (i & Hi & Hfirst). exists (S i). split; [assumption |].
      intros [| j] Hj; simpl; [congruence | apply Hfirst; lia]. }
  rewrite (position_of_tick self b i Hi Hfirst). cbn [bind]. eauto.
Qed.

Lemma no_resting_of_raise (self : Book) :
  length (ask_size self) = length (price self) ->
  best_ask self = Raise ValueError -> forall t, ~ resting self (ask_size self) t.
Proof.
  intros Hlen Hraise.
  destruct (best_ask_total self Hlen) as [[a Ha] | [_ Hnone]]; [congruence | assumption].
Qed.

(** X12. On a book state, when either side holds no order, [spread()],
    [mid()], [_mid_position()] and [book_shape(band)] all raise numpy's
    [ValueError]; with an empty bid side so do [market_sell] and
    [_bid_position()], with an empty ask side so does
    [_ask_position()]. *)
Theorem queries_raise_on_empty_side `{FloatOps} (self : Book) :
  book_ok self = true ->
  (forall t, ~ resting self (bid_size self) t) \/
  (forall t, ~ resting self (ask_size self) t) ->
  spread self = Raise ValueError /\ mid self = Raise ValueError /\
  _mid_position self = Raise ValueError /\
  (forall band, book_shape self band = Raise ValueError) /\
  ((forall t, ~ resting self (bid_size self) t) ->
   _bid_position self = Raise ValueError /\
   forall qty, market_sell self qty = Raise ValueError) /\
  ((forall t, ~ resting self (ask_size self) t) ->
   _ask_position self = Raise ValueError).
Proof.
  intros Hok Hempty. apply book_ok_spec in Hok. destruct Hok as (Hbid & Hask & _).
  assert ((forall t, ~ resting self (bid_size self) t) ->
          best_bid self = Raise ValueError) as Hnobid.
  { intros Hnone. destruct (best_bid_total self Hbid) as [[b Hb] | [E _]];
      [| assumption].
    apply best_bid_Ok in Hb. destruct Hb as (_ & Hr & _). exfalso. exact (Hnone b Hr). }
  assert ((forall t, ~ resting self (ask_size self) t) ->
          best_ask self = Raise ValueError) as Hnoask.
  { intros Hnone. destruct (best_ask_total self Hask) as [[a Ha] | [E _]];
      [| assumption].
    apply best_ask_Ok in Ha. destruct Ha as (_ & Hr & _). exfalso. exact (Hnone a Hr). }
  assert (spread self = Raise ValueError /\ mid self = Raise ValueError /\
          _mid_position self = Raise ValueError) as (Hs & Hm & Hmp).
  { unfold spread, mid, _mid_position.
    destruct Hempty as [Hnone | Hnone].
    - rewrite (Hnobid Hnone).
      unfold _bid_position. rewrite (Hnobid Hnone).
      destruct (best_ask_total self Hask) as [[a ->] | [-> _]];
        repeat split; reflexivity.
    - rewrite (Hnoask Hnone).
      unfold _ask_position. rewrite (Hnoask Hnone). cbn [bind].
      destruct (best_bid self) as [b |] eqn:Eb.
      + destruct (bid_position_Ok self b Eb) as [pos ->]. repeat split; reflexivity.
      + destruct (best_bid_total self Hbid) as [[b Hb] | [E _]]; [congruence |].
        assert (_bid_position self = Raise ValueError) as ->
          by (unfold _bid_position; rewrite E; reflexivity).
        repeat split; reflexivity. }
  split; [assumption |]. split; [assumption |]. split; [assumption |].
  split.
  { intros band. unfold book_shape. rewrite Hmp. reflexivity. }
  split.
  - intros Hnone. split.
    + unfold _bid_position. rewrite (Hnobid Hnone). reflexivity.
    + intros qty. unfold market_sell. rewrite (Hnobid Hnone). reflexivity.
  - intros Hnone. unfold _ask_position. rewrite (Hnoask Hnone). reflexivity.
Qed.

Lemma queries_raise_on_empty_side_witness :
  book_ok drained = true /\
  ((forall t, ~ resting drained (bid_size drained) t) \/
   (forall t, ~ resting drained (ask_size drained) t)) /\
  spread drained = Raise ValueError /\
  (forall band, book_shape drained band = Raise ValueError).
Proof.
  assert (book_ok drained = true) as Hok by (vm_compute; reflexivity).
  assert (forall t, ~ resting drained (ask_size drained) t) as Hnone.
  { apply no_resting_of_raise; vm_compute; reflexivity. }
  split; [exact Hok |]. split; [right; exact Hnone |].
  destruct (queries_raise_on_empty_side (H := binary64) drained Hok
              (or_intror Hnone)) as (Hs & _ & _ & Hshape & _).
  split; [exact Hs | exact Hshape].
Defined.

(** ** The book shape *)

Lemma item_nat {A : Type} (arr : list A) (s : nat) (x : A) :
  nth_error arr s = Some x -> np.item arr (Z.of_nat s) = Ok x.
Proof.
  intros Hx. unfold np.item.
  assert (s < length arr)%nat as Hs by (apply nth_error_Some; congruence).
  assert ((- Z.of_nat (length arr) <=? Z.of_nat s)
          && (Z.of_nat s <? Z.of_nat (length arr)) = true) as ->.
  { apply andb_true_iff. split; [apply Z.leb_le | apply Z.ltb_lt]; lia. }
  assert ((Z.of_nat s <? 0) = false) as -> by (apply Z.ltb_ge; lia).
  rewrite Nat2Z.id, Hx. reflexivity.
Qed.

Lemma item_In {A : Type} (arr : list A) (i : Z) (x : A) :
  np.item arr i = Ok x -> In x arr.
Proof.
  unfold np.item.
  destruct ((- Z.of_nat (length arr) <=? i) && (i <? Z.of_nat (length arr)));
    [| discriminate].
  destruct (nth_error arr _) as [y |] eqn:E; [| discriminate].
  intros Hx. injection Hx as <-. eapply nth_error_In. eassumption.
Qed.

Lemma take_In {A : Type} (arr : list A) (idx : list Z) (l : list A) (x : A) :
  np.take arr idx = Ok l -> In x l -> In x arr.
Proof.
  revert l. induction idx as [| i idx IH]; intros l Ht Hin; simpl in Ht.
  - injection Ht as <-. destruct Hin.
  - inv_bind Ht. inv_bind Ht. injection Ht as <-.
    destruct Hin as [<- | Hin]; [eapply item_In; eassumption | eauto].
Qed.

Lemma take_seq {A : Type} (arr : list A) (n s : nat) :
  (s + n <= length arr)%nat ->
  np.take arr (map Z.of_nat (seq s n)) = Ok (firstn n (skipn s arr)).
Proof.
  revert s. induction n as [| n IH]; intros s Hs; [reflexivity |].
  cbn [seq map np.take].
  destruct (nth_error arr s) as [x |] eqn:Ex.
  2:{ apply nth_error_None in Ex. lia. }
  rewrite (item_nat arr s x Ex). cbn [bind].
  rewrite IH by lia. cbn [bind]. f_equal.
  assert (skipn s arr = x :: skipn (S s) arr) as ->; [| reflexivity].
  clear IH Hs. revert s Ex. induction arr as [| a arr IHarr]; intros [| s] Ex;
    simpl in *; try discriminate.
  - injection Ex as ->. reflexivity.
  - apply IHarr. assumption.
Qed.

Lemma shifted_seq (m lo : Z) (n k : nat) :
  0 <= m + lo ->
  map (fun i => m + (lo + Z.of_nat i)) (seq k n) =
  map Z.of_nat (seq (k + Z.to_nat (m + lo)) n).
Proof.
  intros Hlo. revert k. induction n as [| n IH]; intros k; [reflexivity |].
  cbn [seq map]. f_equal; [lia |].
  exact (IH (S k)).
Qed.

Lemma shifted_arange (m lo hi : Z) :
  0 <= m + lo ->
  map (Z.add m) (np.arange lo hi) =
  map Z.of_nat (seq (Z.to_nat (m + lo)) (Z.to_nat (hi - lo))).
Proof.
  intros Hlo. unfold np.arange. rewrite map_map.
  exact (shifted_seq m lo (Z.to_nat (hi - lo)) 0 Hlo).
Qed.

(** X13. When [_mid_position()] returns [m] and the band fits the ladder
    ([0 <= band], [band + 1 <= m], [m + band] within the arrays),
    [book_shape(band)] returns the [band + 1] bid cells at indices
    [m - band - 1] to [m - 1] followed by the [band] ask cells at indices
    [m] to [m + band - 1]. *)
Theorem book_shape_slices (self : Book) (band m : Z) :
  _mid_position self = Ok m -> 0 <= band -> band + 1 <= m ->
  m <= Z.of_nat (length (bid_size self)) ->
  m + band <= Z.of_nat (length (ask_size self)) ->
  book_shape self band =
  Ok (firstn (Z.to_nat (band + 1)) (skipn (Z.to_nat (m - band - 1)) (bid_size self))
      ++ firstn (Z.to_nat band) (skipn (Z.to_nat m) (ask_size self))).
Proof.
  intros Hm Hband Hlow Hbid Hask. unfold book_shape. rewrite Hm. cbn [bind].
  rewrite (shifted_arange m (- band - 1) 0) by lia.
  rewrite (shifted_arange m 0 band) by lia.
  replace (m + (- band - 1)) with (m - band - 1) by lia.
  replace (0 - (- band - 1)) with (band + 1) by lia.
  replace (m + 0) with m by lia. replace (band - 0) with band by lia.
  rewrite take_seq by lia. cbn [bind].
  rewrite take_seq by lia. reflexivity.
Qed.

Lemma book_shape_slices_witness :
  _mid_position fresh = Ok 1001 /\ 0 <= 3 /\ 3 + 1 <= 1001 /\
  1001 <= Z.of_nat (length (bid_size fresh)) /\
  1001 + 3 <= Z.of_nat (length (ask_size fresh)) /\
  book_shape fresh 3 =
  Ok (firstn (Z.to_nat (3 + 1)) (skipn (Z.to_nat (1001 - 3 - 1)) (bid_size fresh))
      ++ firstn (Z.to_nat 3) (skipn (Z.to_nat 1001) (ask_size fresh))).
Proof.
  assert (_mid_position fresh = Ok 1001) as Hm by (vm_compute; reflexivity).
  assert (1001 <= Z.of_nat (length (bid_size fresh))) as Hbid
    by (vm_compute; discriminate).
  assert (1001 + 3 <= Z.of_nat (length (ask_size fresh))) as Hask
    by (vm_compute; discriminate).
  split; [exact Hm |]. split; [lia |]. split; [lia |].
  split; [exact Hbid |]. split; [exact Hask |].
  exact (book_shape_slices fresh 3 1001 Hm ltac:(lia) ltac:(lia) Hbid Hask).
Defined.

(** X14. Whenever [book_shape(band)] returns, its result has
    [2 * band + 1] cells when [band >= 0], and every cell is a cell of
    [bid_size] or of [ask_size]; so on a book with no negative cell the
    shape has none either. *)
Theorem book_shape_cells (self : Book) (band : Z) (shape : list Z) :
  book_shape self band = Ok shape ->
  (0 <= band -> length shape = Z.to_nat (2 * band + 1)) /\
  (forall c, In c shape -> In c (bid_size self) \/ In c (ask_size self)) /\
  (nonneg self -> Forall (Z.le 0) shape).
Proof.
  intros Hs. pose proof (book_shape_length self band shape Hs) as Hlen.
  assert (forall c, In c shape -> In c (bid_size self) \/ In c (ask_size self)) as Hin.
  { unfold book_shape in Hs. inv_bind Hs. inv_bind Hs. inv_bind Hs. inv_bind Hs.
    injection Hs as <-. intros c Hc. unfold np.append in Hc.
    apply in_app_or in Hc. destruct Hc as [Hc | Hc].
    - left. eapply take_In; eassumption.
    - right. eapply take_In; eassumption. }
  split; [intros Hband; rewrite Hlen; lia |]. split; [exact Hin |].
  intros [Hb Ha]. apply Forall_forall. intros c Hc.
  rewrite Forall_forall in Hb, Ha.
  destruct (Hin c Hc); auto.
Qed.

Lemma book_shape_cells_witness :
  book_shape fresh 3 = Ok [2; 2; 1; 0; 1; 2; 2] /\
  (0 <= 3 -> length [2; 2; 1; 0; 1; 2; 2] = Z.to_nat (2 * 3 + 1)) /\
  (forall c, In c [2; 2; 1; 0; 1; 2; 2] ->
             In c (bid_size fresh) \/ In c (ask_size fresh)) /\
  (nonneg fresh -> Forall (Z.le 0) [2; 2; 1; 0; 1; 2; 2]).
Proof.
  assert (book_shape fresh 3 = Ok [2; 2; 1; 0; 1; 2; 2]) as Hs
    by (vm_compute; reflexivity).
  split; [exact Hs |].
  exact (book_shape_cells fresh 3 [2; 2; 1; 0; 1; 2; 2] Hs).
Defined.

(** ** What the events keep *)

(** X15. Every state the event models can reach is a book state on the
    constructor's ladder: the price array is still [arange(-1000, 1001)]
    and both size arrays still hold 2001 int64 cells. *)
Theorem reachable_book_state (self : Book) :
  reachable self ->
  book_ok self = true /\ price self = np.arange (- 1000) 1001 /\
  length (bid_size self) = 2001%nat /\ length (ask_size self) = 2001%nat.
Proof.
  intros Hreach.
  assert (book_ok self = true) as Hok.
  { induction Hreach as [| F R self mu lamda theta L g self' g' _ _ Hstep
                         | F R self mu lamdas thetas L g self' g' _ _ Hstep
                         | F R self ev L nb ns g self' g' _ IH Hstep
                         | F R self ev lamdas thetas L cb cs cl cbr csr g self' g' _ IH
                             Hstep].
    - exact fresh_ok.
    - discriminate Hstep.
    - discriminate Hstep.
    - unfold sfgk_dispatch in Hstep.
      destruct (String.eqb ev "market_buy").
      { inv_bind Hstep. injection Hstep as <- _.
        exact (proj1 (proj2 (proj2 (orders_keep_book_ok self v 0 1 IH))) E). }
      destruct (String.eqb ev "market_sell").
      { inv_bind Hstep. injection Hstep as <- _.
        exact (proj2 (proj2 (proj2 (orders_keep_book_ok self v 0 1 IH))) E). }
      destruct (String.eqb ev "limit_buy").
      { inv_bind Hstep. destruct v as [q g1]. inv_bind Hstep. rename v into a.
        cbv zeta in Hstep. inv_bind Hstep. injection Hstep as <- _.
        exact (proj1 (orders_keep_book_ok self v _ 1 IH) E1). }
      destruct (String.eqb ev "limit_sell").
      { inv_bind Hstep. destruct v as [q g1]. inv_bind Hstep. rename v into b.
        cbv zeta in Hstep. inv_bind Hstep. injection Hstep as <- _.
        exact (proj1 (proj2 (orders_keep_book_ok self v _ 1 IH)) E1). }
      destruct (String.eqb ev "cancel_buy"); [discriminate |].
      destruct (String.eqb ev "cancel_sell"); [discriminate |].
      injection Hstep as <- _. exact IH.
    - unfold cst_dispatch in Hstep.
      destruct (String.eqb ev "market_buy").
      { inv_bind Hstep. injection Hstep as <- _.
        exact (proj1 (proj2 (proj2 (orders_keep_book_ok self v 0 1 IH))) E). }
      destruct (String.eqb ev "market_sell").
      { inv_bind Hstep. injection Hstep as <- _.
        exact (proj2 (proj2 (proj2 (orders_keep_book_ok self v 0 1 IH))) E). }
      destruct (String.eqb ev "limit_buy").
      { inv_bind Hstep. destruct v as [q g1]. inv_bind Hstep. rename v into a.
        cbv zeta in Hstep. inv_bind Hstep. injection Hstep as <- _.
        exact (proj1 (orders_keep_book_ok self v _ 1 IH) E1). }
      destruct (String.eqb ev "limit_sell").
      { inv_bind Hstep. destruct v as [q g1]. inv_bind Hstep. rename v into b.
        cbv zeta in Hstep. inv_bind Hstep. injection Hstep as <- _.
        exact (proj1 (proj2 (orders_keep_book_ok self v _ 1 IH)) E1). }
      destruct (String.eqb ev "cancel_buy").
      { inv_bind Hstep. inv_bind Hstep. destruct v0 as [q g1].
        inv_bind Hstep. rename v0 into a. cbv zeta in Hstep.
        change (cancel_buy self (Some (wrap64 (a - q))) None 1 g1 = Ok (self', g'))
          in Hstep.
        exact (cancel_buy_keeps_book_ok self self' _ None 1 g1 g' IH Hstep). }
      destruct (String.eqb ev "cancel_sell").
      { inv_bind Hstep. inv_bind Hstep. destruct v0 as [q g1].
        inv_bind Hstep. rename v0 into b. cbv zeta in Hstep.
        change (cancel_sell self (Some (wrap64 (b + q))) None 1 g1 = Ok (self', g'))
          in Hstep.
        destruct (cancel_sell_Raise self (wrap64 (b + q)) None 1 g1) as (e & He & _).
        rewrite He in Hstep. discriminate. }
      injection Hstep as <- _. exact IH. }
  pose proof (reachable_no_cross self Hreach) as (Hprice & Hbid & Hask & _).
  split; [exact Hok |]. split; [exact Hprice |].
  rewrite Hbid, Hask, Hprice, length_arange. split; reflexivity.
Qed.

Lemma reachable_book_state_witness :
  reachable fresh /\
  book_ok fresh = true /\ price fresh = np.arange (- 1000) 1001 /\
  length (bid_size fresh) = 2001%nat /\ length (ask_size fresh) = 2001%nat.
Proof.
  split; [exact reach_fresh |].
  exact (reachable_book_state fresh reach_fresh).
Defined.

(** * Properties of the Markov estimators *)

Section EstimatorFacts.
Context `{UniformSource}.
Variables mu lamda theta : float64.

Lemma prob_mid_send_orders_step (xb xs : Z) (g : rng) (xb' xs' : Z) (g' : rng) :
  prob_mid_send_orders mu lamda theta xb xs g = Ok (xb', xs', g') ->
  xb - 1 <= xb' /\ xs - 1 <= xs'.
Proof.
  unfold prob_mid_send_orders. cbv zeta. intros Hs. inv_bind Hs.
  destruct v as [ans g1].
  repeat match type of Hs with
         | (if ?c then _ else _) = _ => destruct c
         end; injection Hs as <- <- _; lia.
Qed.

Lemma prob_mid_trial_events (budget : nat) (xb xs : Z) (g : rng) (up : bool)
    (g' : rng) :
  prob_mid_trial mu lamda theta budget xb xs g = Ok (Finished (up, g')) ->
  (if up then xs else xb) <= Z.of_nat budget.
Proof.
  revert xb xs g. induction budget as [| budget IH]; intros xb xs g Ht;
    [discriminate |].
  cbn [prob_mid_trial] in Ht. inv_bind Ht. destruct v as [[qb qs] g1].
  apply prob_mid_send_orders_step in E. destruct E as [Hb Hs].
  destruct (qb =? 0) eqn:Eb.
  { apply Z.eqb_eq in Eb. injection Ht as <- _. lia. }
  destruct (qs =? 0) eqn:Es.
  { apply Z.eqb_eq in Es. injection Ht as <- _. lia. }
  apply IH in Ht. destruct up; lia.
Qed.

Lemma limit_order_send_orders_step (xb xs d : Z) (g : rng) (xb' xs' d' : Z)
    (g' : rng) :
  limit_order_send_orders mu lamda theta xb xs d g = Ok (xb', xs', d', g') ->
  xs - 1 <= xs' /\ d - 1 <= d'.
Proof.
  unfold limit_order_send_orders. cbv zeta. intros Hs. inv_bind Hs.
  destruct v as [ans g1].
  destruct (ans =? 0); [injection Hs as _ <- <- _; lia |].
  destruct (ans =? 1); [injection Hs as _ <- <- _; lia |].
  destruct (ans =? 2).
  { injection Hs as _ <- <- _. destruct (0 <? d); lia. }
  destruct (ans =? 3).
  { destruct (uniform g1) as [r g2]. inv_bind Hs.
    injection Hs as _ <- <- _. destruct (fgt r v); lia. }
  injection Hs as _ <- <- _. lia.
Qed.

Lemma limit_order_trial_events (budget : nat) (xb xs d : Z) (g : rng) (done : bool)
    (g' : rng) :
  limit_order_trial mu lamda theta budget xb xs d g = Ok (Finished (done, g')) ->
  (if done then d else xs) <= Z.of_nat budget.
Proof.
  revert xb xs d g. induction budget as [| budget IH]; intros xb xs d g Ht;
    [discriminate |].
  cbn [limit_order_trial] in Ht. inv_bind Ht. destruct v as [[[qb qs] d1] g1].
  apply limit_order_send_orders_step in E. destruct E as [Hs Hd].
  destruct (d1 =? 0) eqn:Ed.
  { apply Z.eqb_eq in Ed. injection Ht as <- _. lia. }
  destruct ((qs =? 0) && (0 <? d1)) eqn:Es.
  { apply andb_true_iff in Es. destruct Es as [Es _]. apply Z.eqb_eq in Es.
    injection Ht as <- _. lia. }
  apply IH in Ht. destruct done; lia.
Qed.

Lemma making_spread_send_orders_step (xb xs b a : Z) (g : rng) (xb' xs' b' a' : Z)
    (g' : rng) :
  making_spread_send_orders mu lamda theta xb xs b a g = Ok (xb', xs', b', a', g') ->
  xb - 1 <= xb' /\ xs - 1 <= xs' /\ b + a - 1 <= b' + a'.
Proof.
  unfold making_spread_send_orders. cbv zeta. intros Hs. inv_bind Hs.
  destruct v as [ans g1].
  destruct (ans =? 0); [injection Hs as <- <- <- <- _; lia |].
  destruct (ans =? 1); [injection Hs as <- <- <- <- _; lia |].
  destruct (ans =? 2).
  { injection Hs as <- <- <- <- _. destruct (0 <? b); lia. }
  destruct (ans =? 3).
  { injection Hs as <- <- <- <- _. destruct (0 <? a); lia. }
  destruct (ans =? 4).
  { destruct (uniform g1) as [r g2]. inv_bind Hs.
    injection Hs as <- <- <- <- _. destruct (fgt r v); lia. }
  destruct (ans =? 5).
  { destruct (uniform g1) as [r g2]. inv_bind Hs.
    injection Hs as <- <- <- <- _. destruct (fgt r v); lia. }
  injection Hs as <- <- <- <- _. lia.
Qed.

Lemma making_spread_trial_events (budget : nat) (xb xs b a : Z) (g : rng)
    (done : bool) (g' : rng) :
  making_spread_trial mu lamda theta budget xb xs b a g = Ok (Finished (done, g')) ->
  (if done then b + a else Z.min xb xs) <= Z.of_nat budget.
Proof.
  revert xb xs b a g. induction budget as [| budget IH]; intros xb xs b a g Ht;
    [discriminate |].
  cbn [making_spread_trial] in Ht. inv_bind Ht.
  destruct v as [[[[qb qs] b1] a1] g1].
  apply making_spread_send_orders_step in E. destruct E as (Hb & Hs & Hsum).
  destruct ((b1 =? 0) && (a1 =? 0)) eqn:Eba.
  { apply andb_true_iff in Eba. destruct Eba as [Eb Ea].
    apply Z.eqb_eq in Eb. apply Z.eqb_eq in Ea. injection Ht as <- _. lia. }
  destruct ((qb =? 0) && (0 <? a1)) eqn:Eq.
  { apply andb_true_iff in Eq. destruct Eq as [Eq _]. apply Z.eqb_eq in Eq.
    injection Ht as <- _. lia. }
  destruct ((qs =? 0) && (0 <? b1)) eqn:Es.
  { apply andb_true_iff in Es. destruct Es as [Es _]. apply Z.eqb_eq in Es.
    injection Ht as <- _. lia. }
  apply IH in Ht. destruct done; lia.
Qed.

Lemma successes_cons (up : bool) (ups : list bool) :
  successes (up :: ups) = (if up then 1 else 0) + successes ups.
Proof. unfold successes. destruct up; simpl filter; simpl length; lia. Qed.

Lemma successes_bound (ups : list bool) : 0 <= successes ups <= Z.of_nat (length ups).
Proof.
  unfold successes. pose proof (filter_length_le (fun up : bool => up) ups). lia.
Qed.

Lemma trial_outcomes_length {G : Type} (trial : G -> result (run (bool * G)))
    (n : nat) (g : G) (ups : list bool) (g' : G) :
  trial_outcomes trial n g ups g' -> length ups = n.
Proof. induction 1; simpl; congruence. Qed.

Lemma prob_mid_trials_outcomes (budget n : nat) (xb xs count : Z) (g : rng)
    (count' : Z) (g' : rng) :
  prob_mid_trials mu lamda theta budget n xb xs count g = Ok (Finished (count', g'))
  <-> exists ups,
        trial_outcomes (prob_mid_trial mu lamda theta budget xb xs) n g ups g' /\
        count' = count + successes ups.
Proof.
  split.
  - revert count g. induction n as [| n IH]; intros count g Ht.
    + injection Ht as <- <-. exists []. split; [constructor |].
      unfold successes. simpl. lia.
    + cbn [prob_mid_trials] in Ht. inv_bind Ht.
      destruct v as [[up g1] |]; [| discriminate].
      apply IH in Ht. destruct Ht as (ups & Hups & ->).
      exists (up :: ups). split; [econstructor; eassumption |].
      rewrite successes_cons. destruct up; lia.
  - intros (ups & Hups & ->). revert count.
    induction Hups as [g | n g up g1 ups g2 Htrial Hups IH]; intros count.
    + cbn [prob_mid_trials]. unfold successes. simpl. rewrite Z.add_0_r. reflexivity.
    + cbn [prob_mid_trials]. rewrite Htrial. cbn [bind]. rewrite IH.
      rewrite successes_cons. do 3 f_equal. destruct up; lia.
Qed.

Lemma limit_order_trials_outcomes (budget n : nat) (xb xs d count : Z) (g : rng)
    (count' : Z) (g' : rng) :
  limit_order_trials mu lamda theta budget n xb xs d count g
    = Ok (Finished (count', g'))
  <-> exists ups,
        trial_outcomes (limit_order_trial mu lamda theta budget xb xs d) n g ups g' /\
        count' = count + successes ups.
Proof.
  split.
  - revert count g. induction n as [| n IH]; intros count g Ht.
    + injection Ht as <- <-. exists []. split; [constructor |].
      unfold successes. simpl. lia.
    + cbn [limit_order_trials] in Ht. inv_bind Ht.
      destruct v as [[up g1] |]; [| discriminate].
      apply IH in Ht. destruct Ht as (ups & Hups & ->).
      exists (up :: ups). split; [econstructor; eassumption |].
      rewrite successes_cons. destruct up; lia.
  - intros (ups & Hups & ->). revert count.
    induction Hups as [g | n g up g1 ups g2 Htrial Hups IH]; intros count.
    + cbn [limit_order_trials]. unfold successes. simpl. rewrite Z.add_0_r. reflexivity.
    + cbn [limit_order_trials]. rewrite Htrial. cbn [bind]. rewrite IH.
      rewrite successes_cons. do 3 f_equal. destruct up; lia.
Qed.

Lemma making_spread_trials_outcomes (budget n : nat) (xb xs b a count : Z) (g : rng)
    (count' : Z) (g' : rng) :
  making_spread_trials mu lamda theta budget n xb xs b a count g
    = Ok (Finished (count', g'))
  <-> exists ups,
        trial_outcomes (making_spread_trial mu lamda theta budget xb xs b a) n g ups g' /\
        count' = count + successes ups.
Proof.
  split.
  - revert count g. induction n as [| n IH]; intros count g Ht.
    + injection Ht as <- <-. exists []. split; [constructor |].
      unfold successes. simpl. lia.
    + cbn [making_spread_trials] in Ht. inv_bind Ht.
      destruct v as [[up g1] |]; [| discriminate].
      apply IH in Ht. destruct Ht as (ups & Hups & ->).
      exists (up :: ups). split; [econstructor; eassumption |].
      rewrite successes_cons. destruct up; lia.
  - intros (ups & Hups & ->). revert count.
    induction Hups as [g | n g up g1 ups g2 Htrial Hups IH]; intros count.
    + cbn [making_spread_trials]. unfold successes. simpl. rewrite Z.add_0_r. reflexivity.
    + cbn [making_spread_trials]. rewrite Htrial. cbn [bind]. rewrite IH.
      rewrite successes_cons. do 3 f_equal. destruct up; lia.
Qed.

(** The last step of an estimator: [count / n] on the count the trials
    left. *)
Lemma estimate_of_trials (trial : rng -> result (run (bool * rng)))
    (trials : result (run (Z * rng))) (n : Z) (g : rng) (p : float64) (g' : rng) :
  1 <= n ->
  (forall count', trials = Ok (Finished (count', g'))
     <-> exists ups, trial_outcomes trial (Z.to_nat n) g ups g' /\
                     count' = 0 + successes ups) ->
  ((r <- trials ;;
    match r with
    | Running => Ok Running
    | Finished (count, g) => p <- py_ratio count n ;; Ok (Finished (p, g))
    end) = Ok (Finished (p, g'))
   <-> exists ups,
         trial_outcomes trial (Z.to_nat n) g ups g' /\
         0 <= successes ups <= n /\
         p = fdiv (of_int (successes ups)) (of_int n)).
Proof.
  intros Hn Hspec.
  assert ((n =? 0) = false) as En by (apply Z.eqb_neq; lia).
  split.
  - intros Hrun. inv_bind Hrun.
    destruct v as [[count g1] |]; [| discriminate].
    unfold py_ratio in Hrun. rewrite En in Hrun. cbn [bind] in Hrun.
    injection Hrun as <- <-.
    apply Hspec in E. destruct E as (ups & Hups & ->).
    exists ups. split; [exact Hups |]. split; [| reflexivity].
    pose proof (successes_bound ups) as Hb.
    rewrite (trial_outcomes_length _ _ _ _ _ Hups) in Hb. lia.
  - intros (ups & Hups & _ & ->).
    assert (trials = Ok (Finished (0 + successes ups, g'))) as ->
      by (apply Hspec; eauto).
    cbn [bind]. unfold py_ratio. rewrite En. reflexivity.
Qed.

End EstimatorFacts.

(** X16. A trial of [prob_mid] cannot end early: it reports an up move
    (the ask queue emptied first) only after at least [xs] events, and a
    down move only after at least [xb] events. *)
Theorem prob_mid_trial_needs_events `{UniformSource} (mu lamda theta : float64)
    (budget : nat) (xb xs : Z) (g : rng) (up : bool) (g' : rng) :
  prob_mid_trial mu lamda theta budget xb xs g = Ok (Finished (up, g')) ->
  (up = true -> xs <= Z.of_nat budget) /\ (up = false -> xb <= Z.of_nat budget).
Proof.
  intros Ht. apply prob_mid_trial_events in Ht.
  split; intros ->; exact Ht.
Qed.

Lemma prob_mid_trial_needs_events_witness :
  prob_mid_trial (ratio 94 100) (ratio 185 100) (ratio 71 100) 5 2 2 [3; 0; 3]%nat
  = Ok (Finished (true, [])) /\
  (true = true -> 2 <= Z.of_nat 5) /\ (true = false -> 2 <= Z.of_nat 5).
Proof.
  assert (prob_mid_trial (ratio 94 100) (ratio 185 100) (ratio 71 100) 5 2 2 [3; 0; 3]%nat
          = Ok (Finished (true, []))) as Ht by (vm_compute; reflexivity).
  split; [exact Ht |].
  exact (prob_mid_trial_needs_events (ratio 94 100) (ratio 185 100) (ratio 71 100)
           5 2 2 [3; 0; 3]%nat true [] Ht).
Defined.

(** X17. A trial of [limit_order_prob] reports the order at queue position
    [d] as executed only after at least [d] events, and reports a failure
    (the ask queue emptied) only after at least [xs] events. *)
Theorem limit_order_trial_needs_events `{UniformSource} (mu lamda theta : float64)
    (budget : nat) (xb xs d : Z) (g : rng) (done : bool) (g' : rng) :
  limit_order_trial mu lamda theta budget xb xs d g = Ok (Finished (done, g')) ->
  (done = true -> d <= Z.of_nat budget) /\ (done = false -> xs <= Z.of_nat budget).
Proof.
  intros Ht. apply limit_order_trial_events in Ht.
  split; intros ->; exact Ht.
Qed.

Lemma limit_order_trial_needs_events_witness :
  limit_order_trial (ratio 94 100) (ratio 185 100) (ratio 71 100) 4 3 3 2 [2; 1; 2]%nat
  = Ok (Finished (true, [])) /\
  (true = true -> 2 <= Z.of_nat 4) /\ (true = false -> 3 <= Z.of_nat 4).
Proof.
  assert (limit_order_trial (ratio 94 100) (ratio 185 100) (ratio 71 100) 4 3 3 2
            [2; 1; 2]%nat
          = Ok (Finished (true, []))) as Ht by (vm_compute; reflexivity).
  split; [exact Ht |].
  exact (limit_order_trial_needs_events (ratio 94 100) (ratio 185 100) (ratio 71 100)
           4 3 3 2 [2; 1; 2]%nat true [] Ht).
Defined.

(** X18. A trial of [prob_making_spread] reports both orders as executed
    only after at least [bid_pos + ask_pos] events, and reports a failure
    only after at least [min(xb, xs)] events. *)
Theorem making_spread_trial_needs_events `{UniformSource} (mu lamda theta : float64)
    (budget : nat) (xb xs bid_pos ask_pos : Z) (g : rng) (done : bool) (g' : rng) :
  making_spread_trial mu lamda theta budget xb xs bid_pos ask_pos g
    = Ok (Finished (done, g')) ->
  (done = true -> bid_pos + ask_pos <= Z.of_nat budget) /\
  (done = false -> Z.min xb xs <= Z.of_nat budget).
Proof.
  intros Ht. apply making_spread_trial_events in Ht.
  split; intros ->; exact Ht.
Qed.

Lemma making_spread_trial_needs_events_witness :
  making_spread_trial (ratio 94 100) (ratio 185 100) (ratio 71 100) 4 2 2 1 1 [2; 3]%nat
  = Ok (Finished (true, [])) /\
  (true = true -> 1 + 1 <= Z.of_nat 4) /\ (true = false -> Z.min 2 2 <= Z.of_nat 4).
Proof.
  assert (making_spread_trial (ratio 94 100) (ratio 185 100) (ratio 71 100) 4 2 2 1 1
            [2; 3]%nat
          = Ok (Finished (true, []))) as Ht by (vm_compute; reflexivity).
  split; [exact Ht |].
  exact (making_spread_trial_needs_events (ratio 94 100) (ratio 185 100) (ratio 71 100)
           4 2 2 1 1 [2; 3]%nat true [] Ht).
Defined.

(** X19. With [n = 0] the three estimators run no trial and raise
    [ZeroDivisionError] on [count / n].  With [n >= 1], an estimator
    returns [p] exactly when its [n] trials, run one after the other on the
    same random stream, all end, and [p] is [count / n] for the number
    [count] of those trials that ended in success; [count] lies between 0
    and [n]. *)
Theorem estimates_are_ratios `{UniformSource} (mu lamda theta : float64)
    (budget : nat) (n xb xs d bid_pos ask_pos : Z) (g : rng) :
  (prob_mid mu lamda theta budget 0 xb xs g
     = Raise (UserError "ZeroDivisionError") /\
   limit_order_prob mu lamda theta budget 0 xb xs d g
     = Raise (UserError "ZeroDivisionError") /\
   prob_making_spread mu lamda theta budget 0 xb xs bid_pos ask_pos g
     = Raise (UserError "ZeroDivisionError")) /\
  (1 <= n ->
   forall p g',
     (prob_mid mu lamda theta budget n xb xs g = Ok (Finished (p, g'))
      <-> exists ups,
            trial_outcomes (prob_mid_trial mu lamda theta budget xb xs)
              (Z.to_nat n) g ups g' /\
            0 <= successes ups <= n /\
            p = fdiv (of_int (successes ups)) (of_int n)) /\
     (limit_order_prob mu lamda theta budget n xb xs d g = Ok (Finished (p, g'))
      <-> exists ups,
            trial_outcomes (limit_order_trial mu lamda theta budget xb xs d)
              (Z.to_nat n) g ups g' /\
            0 <= successes ups <= n /\
            p = fdiv (of_int (successes ups)) (of_int n)) /\
     (prob_making_spread mu lamda theta budget n xb xs bid_pos ask_pos g
        = Ok (Finished (p, g'))
      <-> exists ups,
            trial_outcomes
              (making_spread_trial mu lamda theta budget xb xs bid_pos ask_pos)
              (Z.to_nat n) g ups g' /\
            0 <= successes ups <= n /\
            p = fdiv (of_int (successes ups)) (of_int n))).
Proof.
  split; [repeat split; reflexivity |].
  intros Hn p g'. split; [| split].
  - unfold prob_mid. apply estimate_of_trials; [exact Hn |].
    intros count'. apply prob_mid_trials_outcomes.
  - unfold limit_order_prob. apply estimate_of_trials; [exact Hn |].
    intros count'. apply limit_order_trials_outcomes.
  - unfold prob_making_spread. apply estimate_of_trials; [exact Hn |].
    intros count'. apply making_spread_trials_outcomes.
Qed.

Lemma estimates_are_ratios_witness :
  1 <= 2 /\
  prob_mid (ratio 94 100) (ratio 185 100) (ratio 71 100) 3 2 1 1 [3; 2]%nat
  = Ok (Finished (ratio 1 2, [])) /\
  exists ups,
    trial_outcomes (prob_mid_trial (ratio 94 100) (ratio 185 100) (ratio 71 100) 3 1 1)
      (Z.to_nat 2) [3; 2]%nat ups [] /\
    0 <= successes ups <= 2 /\
    ratio 1 2 = fdiv (of_int (successes ups)) (of_int 2).
Proof.
  assert (prob_mid (ratio 94 100) (ratio 185 100) (ratio 71 100) 3 2 1 1 [3; 2]%nat
          = Ok (Finished (ratio 1 2, []))) as Hrun
    by (vm_compute; reflexivity).
  split; [lia |]. split; [exact Hrun |].
  exact (proj1 (proj1 (proj2 (estimates_are_ratios
                                (ratio 94 100) (ratio 185 100) (ratio 71 100)
                                3 2 1 1 0 0 0 [3; 2]%nat)
                         ltac:(lia) (ratio 1 2) [])) Hrun).
Defined.
